(** * GraphForge hub synchronisation: a shallow embedding of the plugin

    The TypeScript sources (pathRules, hubForFolder, writeLock, hubContent,
    linksInNotes, vaultEvents, commands, hideStyles, main and the settings
    tab) are transcribed as Rocq functions.  Conventions of the embedding:

    - a JavaScript string is a list of code units; the model ranges over
      the code units below 256 ([Ascii.ascii]), written [js "..."];
    - [async] functions run to completion: a handler is one state
      transformer, and the state is threaded explicitly;
    - the Obsidian vault (folders, files, contents, creation times) is an
      in-memory value; its operations are transcribed from the way the
      plugin calls them;
    - [Map<string, number>] of writeLock.ts is a [gmap]; [Date.now()] is
      the clock field of the state. *)

From Stdlib Require Import List Ascii String ZArith Lia Bool Permutation Sorted DecimalNat.
From stdpp Require Import gmap strings.
Import ListNotations.

Set Default Proof Using "Type".

(** ** JavaScript strings *)

Module JS.

Abbreviation str := (list ascii).

Definition js (s : string) : str := list_ascii_of_string s.
Arguments js s%_string.

Definition ch (n : nat) : ascii := ascii_of_nat n.

(** The line feed and the double quote. *)
Definition newline : ascii := ch 10.
Definition dquote : ascii := ch 34.

Definition eqc (a b : ascii) : bool := Ascii.eqb a b.

Fixpoint eqs (a b : str) : bool :=
  match a, b with
  | [], [] => true
  | x :: a', y :: b' => eqc x y && eqs a' b'
  | _, _ => false
  end.

Definition memc (c : ascii) (cs : str) : bool := List.existsb (eqc c) cs.

(** [WhiteSpace] and [LineTerminator] code units below 256: what
    [String.prototype.trim] removes and what [\s] matches. *)
Definition isSpace (c : ascii) : bool :=
  let n := nat_of_ascii c in
  (Nat.leb 9 n && Nat.leb n 13) || Nat.eqb n 32 || Nat.eqb n 160.

(** [\d] : the ten ASCII digits. *)
Definition isDigit (c : ascii) : bool :=
  let n := nat_of_ascii c in Nat.leb 48 n && Nat.leb n 57.

(** Line terminators, the code units [.] does not match. *)
Definition isLineTerminator (c : ascii) : bool :=
  let n := nat_of_ascii c in Nat.eqb n 10 || Nat.eqb n 13.

Fixpoint dropWhile (p : ascii -> bool) (s : str) : str :=
  match s with
  | c :: s' => if p c then dropWhile p s' else s
  | [] => []
  end.

Fixpoint takeWhile (p : ascii -> bool) (s : str) : str :=
  match s with
  | c :: s' => if p c then c :: takeWhile p s' else []
  | [] => []
  end.

Fixpoint takeWhileLines (p : str -> bool) (ls : list str) : list str :=
  match ls with
  | l :: ls' => if p l then l :: takeWhileLines p ls' else []
  | [] => []
  end.

(** [s.trim()] *)
Definition trim (s : str) : str :=
  rev (dropWhile isSpace (rev (dropWhile isSpace s))).

(** [s.startsWith(p)] *)
Fixpoint startsWith (p s : str) : bool :=
  match p, s with
  | [], _ => true
  | x :: p', y :: s' => eqc x y && startsWith p' s'
  | _ :: _, [] => false
  end.

(** [s.split(sep)] for a one-unit separator: never the empty array. *)
Fixpoint split (sep : ascii) (s : str) : list str :=
  match s with
  | [] => [[]]
  | c :: s' =>
      if eqc c sep then [] :: split sep s'
      else match split sep s' with
           | l :: ls => (c :: l) :: ls
           | [] => [[c]]
           end
  end.

(** [lines.join(sep)] *)
Fixpoint join (sep : str) (ls : list str) : str :=
  match ls with
  | [] => []
  | [l] => l
  | l :: ls' => l ++ sep ++ join sep ls'
  end.

(** [String(n)] for a non-negative integer. *)
Fixpoint digitsOfUint (d : Decimal.uint) : str :=
  match d with
  | Decimal.Nil => []
  | Decimal.D0 d' => "0"%char :: digitsOfUint d'
  | Decimal.D1 d' => "1"%char :: digitsOfUint d'
  | Decimal.D2 d' => "2"%char :: digitsOfUint d'
  | Decimal.D3 d' => "3"%char :: digitsOfUint d'
  | Decimal.D4 d' => "4"%char :: digitsOfUint d'
  | Decimal.D5 d' => "5"%char :: digitsOfUint d'
  | Decimal.D6 d' => "6"%char :: digitsOfUint d'
  | Decimal.D7 d' => "7"%char :: digitsOfUint d'
  | Decimal.D8 d' => "8"%char :: digitsOfUint d'
  | Decimal.D9 d' => "9"%char :: digitsOfUint d'
  end.

Definition stringOfNat (n : nat) : str := digitsOfUint (Nat.to_uint n).

(** [a || b] on strings: the empty string is falsy. *)
Definition orElse (a b : str) : str :=
  match a with [] => b | _ => a end.

Definition allDigits (s : str) : Prop := Forall (fun c => isDigit c = true) s.

End JS.
Import JS.

(** ** Regular expressions

    The fragment of ECMAScript patterns the plugin uses: literals, [\d],
    [\s], [.], negated classes, the anchors and the greedy quantifiers
    on one-unit atoms.  [a+] is [a] followed by [a*]. *)

Module RegExp.

Inductive atom :=
| AChar (c : ascii)
| ADigit
| ASpace
| ADot
| ANotIn (cs : str).

Inductive item :=
| IStart
| IEnd
| IOne (a : atom)
| IStar (a : atom)
| IOpt (a : atom).

Abbreviation regex := (list item).

Definition atomMatches (a : atom) (c : ascii) : bool :=
  match a with
  | AChar x => eqc x c
  | ADigit => isDigit c
  | ASpace => isSpace c
  | ADot => negb (isLineTerminator c)
  | ANotIn cs => negb (memc c cs)
  end.

(** Backtracking match of [r] at the current position, then of the
    continuation [k] on what is left; [atStart] tells whether the
    position is index 0.  Alternatives are tried in priority order
    (greedy quantifiers try the longer one first) until [k] succeeds. *)
Fixpoint matchK {T} (r : regex) (k : bool -> str -> option T) (atStart : bool) (s : str)
    : option T :=
  match r with
  | [] => k atStart s
  | IStart :: r' => if atStart then matchK r' k atStart s else None
  | IEnd :: r' =>
      match s with
      | [] => matchK r' k atStart s
      | _ :: _ => None
      end
  | IOne a :: r' =>
      match s with
      | c :: s' => if atomMatches a c then matchK r' k false s' else None
      | [] => None
      end
  | IStar a :: r' =>
      (fix star (b : bool) (s : str) {struct s} : option T :=
         match s with
         | c :: s' =>
             if atomMatches a c then
               match star false s' with
               | Some x => Some x
               | None => matchK r' k b s
               end
             else matchK r' k b s
         | [] => matchK r' k b s
         end) atStart s
  | IOpt a :: r' =>
      match s with
      | c :: s' =>
          if atomMatches a c then
            match matchK r' k false s' with
            | Some x => Some x
            | None => matchK r' k atStart s
            end
          else matchK r' k atStart s
      | [] => matchK r' k atStart s
      end
  end.

(** The input left after the first match of [r] here. *)
Definition matchHere (r : regex) (atStart : bool) (s : str) : option str :=
  matchK r (fun _ rest => Some rest) atStart s.

(** Search for the leftmost match: the units before the match and the
    input after it. *)
Fixpoint execFrom (r : regex) (atStart : bool) (s : str) : option (str * str) :=
  match matchHere r atStart s with
  | Some k => Some ([], k)
  | None =>
      match s with
      | c :: s' =>
          match execFrom r false s' with
          | Some (pre, k) => Some (c :: pre, k)
          | None => None
          end
      | [] => None
      end
  end.

(** A final capture group [(a+)]: the longest run of [a], at least one. *)
Definition captureRun (a : atom) (_ : bool) (s : str) : option str :=
  match takeWhile (atomMatches a) s with
  | [] => None
  | t => Some t
  end.

(** [s.match(re)?.[1]] for a pattern [pre(a+)] without flags: group 1
    of the leftmost match. *)
Fixpoint matchGroupFrom (pre : regex) (a : atom) (atStart : bool) (s : str) : option str :=
  match matchK pre (captureRun a) atStart s with
  | Some t => Some t
  | None =>
      match s with
      | _ :: s' => matchGroupFrom pre a false s'
      | [] => None
      end
  end.

Definition matchGroup (pre : regex) (a : atom) (s : str) : option str :=
  matchGroupFrom pre a true s.

(** [re.test(s)] for a pattern without the [g] and [y] flags. *)
Definition test (r : regex) (s : str) : bool :=
  match execFrom r true s with Some _ => true | None => false end.

(** [s.replace(re, "")] for a pattern without the [g] flag. *)
Definition replaceFirstWithEmpty (r : regex) (s : str) : str :=
  match execFrom r true s with
  | Some (pre, k) => pre ++ k
  | None => s
  end.

(** The syntax characters of a pattern, the set [escapeRegex] escapes:
    [. * + ? ^ $ { } ( ) | [ ] \]. *)
Definition syntaxChars : str := js ".*+?^${}()|[]\".

Definition isSyntaxChar (c : ascii) : bool := memc c syntaxChars.

(** [\x]: a class escape or an identity escape of a syntax character.
    Other escapes are outside the fragment. *)
Definition escapeAtom (c : ascii) : option atom :=
  if eqc c "d"%char then Some ADigit
  else if eqc c "s"%char then Some ASpace
  else if isSyntaxChar c then Some (AChar c)
  else None.

(** A quantifier after an atom. *)
Definition quantified (a : atom) (q : ascii) : option (list item) :=
  if eqc q "*"%char then Some [IStar a]
  else if eqc q "+"%char then Some [IOne a; IStar a]
  else if eqc q "?"%char then Some [IOpt a]
  else None.

Definition isQuantifier (c : ascii) : bool :=
  eqc c "*"%char || eqc c "+"%char || eqc c "?"%char.

(** [new RegExp(source)]: [None] stands for the [SyntaxError] of a
    malformed pattern, and for a pattern outside the fragment. *)
Fixpoint parse (src : str) : option regex :=
  match src with
  | [] => Some []
  | c :: rest =>
      if eqc c "^"%char then option_map (cons IStart) (parse rest)
      else if eqc c "$"%char then option_map (cons IEnd) (parse rest)
      else if eqc c "\"%char then
        match rest with
        | [] => None
        | e :: rest' =>
            match escapeAtom e with
            | None => None
            | Some a =>
                match rest' with
                | q :: rest'' =>
                    match quantified a q with
                    | Some its => option_map (app its) (parse rest'')
                    | None => option_map (cons (IOne a)) (parse rest')
                    end
                | [] => Some [IOne a]
                end
            end
        end
      else
        match (if eqc c "."%char then Some ADot
               else if isSyntaxChar c then None
               else Some (AChar c)) with
        | None => None
        | Some a =>
            match rest with
            | q :: rest' =>
                match quantified a q with
                | Some its => option_map (app its) (parse rest')
                | None => option_map (cons (IOne a)) (parse rest)
                end
            | [] => Some [IOne a]
            end
        end
  end.

(** The pattern of a run of literal units. *)
Definition lits (s : str) : regex := map (fun c => IOne (AChar c)) s.

Definition headNotQuantifier (t : str) : Prop :=
  match t with
  | q :: _ => isQuantifier q = false
  | [] => True
  end.

End RegExp.

(** ** pathRules.ts *)

Module PathRules.
Import RegExp.

Record PathSkipOptions := {
  skipFolderNames_opt : list str;
  skipDotFolders_opt : bool
}.

Definition stripLeadingSlash (s : str) : str :=
  match s with
  | c :: s' => if eqc c "/"%char then s' else s
  | [] => []
  end.

Definition stripTrailingSlash (s : str) : str :=
  rev (stripLeadingSlash (rev s)).

(** [path.replace(/^\/|\/$/g, "")]: one slash off the front, then one off
    the end of what is left. *)
Definition normalizeSlashes (path : str) : str :=
  stripTrailingSlash (stripLeadingSlash path).

Definition nonEmpty (s : str) : bool :=
  match s with [] => false | _ :: _ => true end.

(** [skipFolderNames.includes(segment)] *)
Definition includes (names : list str) (segment : str) : bool :=
  List.existsb (eqs segment) names.

Definition shouldSkipPath (path : str) (options : PathSkipOptions) : bool :=
  let normalized := normalizeSlashes path in
  if eqs normalized [] then true
  else
    let segments := List.filter nonEmpty (split "/"%char normalized) in
    List.existsb
      (fun segment =>
         includes (skipFolderNames_opt options) segment
         || (skipDotFolders_opt options && startsWith (js ".") segment))
      segments.

Definition isRootFolder (folderPath : str) : bool :=
  eqs (trim (normalizeSlashes folderPath)) [].

Definition getHubNameForFolder (folderName suffix : str) : str :=
  folderName ++ orElse suffix (js "_").

Definition getNumberedHubName (folderName : str) (index : nat) (suffix : str) : str :=
  let s := orElse suffix (js "_") in
  folderName ++ s ++ stringOfNat index.

(** [s.replace(/[.*+?^${}()|[\]\\]/g, "\\$&")] *)
Definition escapeRegex (s : str) : str :=
  List.flat_map (fun c => if isSyntaxChar c then ["\"%char; c] else [c]) s.

Definition numberedHubPatternSource (folderName suffix : str) : str :=
  let escapedFolder := escapeRegex folderName in
  let escapedSuffix := escapeRegex (orElse suffix (js "_")) in
  js "^" ++ escapedFolder ++ escapedSuffix ++ js "\d+$".

Definition getNumberedHubPattern (folderName suffix : str) : option regex :=
  parse (numberedHubPatternSource folderName suffix).

End PathRules.
Import PathRules.



(** ** settings.ts: the settings object *)

Record HubSettings := {
  hubSuffix : str;
  previousHubSuffix : option str;   (* read with [??]: may be absent *)
  hubInsertTitle : str;
  skipFolderNames : list str;
  skipDotFolders : bool;
  parentLinkForSubfolderHubs : bool;
  updateHubOnFolderRename : bool;
  insertHubLinkOnCreate : bool;
  updateHubLinkOnMove : bool;
  debugLogs : bool;
  hideObHideSpans : bool;
  removeHiddenBlink : bool;
  autoHideHubLinks : bool;
  hideHubNotesInExplorer : bool;
  folderDirectoryColor : str;
  realTimeUpdating : bool;
  excludeHubLinksFromSelectAll : bool;
  insertSeparatorAfterHubLink : bool;
  autoCreateSuppressedUntilBuildRefresh : bool
}.

Definition DEFAULT_SETTINGS : HubSettings := {|
  hubSuffix := js "_";
  previousHubSuffix := Some (js "_");
  hubInsertTitle := js "## DIRECTORY";
  skipFolderNames := [js ".trash"; js "ATTACHMENTS"];
  skipDotFolders := true;
  parentLinkForSubfolderHubs := true;
  updateHubOnFolderRename := true;
  insertHubLinkOnCreate := true;
  updateHubLinkOnMove := true;
  debugLogs := false;
  hideObHideSpans := true;
  removeHiddenBlink := false;
  autoHideHubLinks := false;
  hideHubNotesInExplorer := true;
  folderDirectoryColor := js "#7B61E2";
  realTimeUpdating := true;
  excludeHubLinksFromSelectAll := true;
  insertSeparatorAfterHubLink := true;
  autoCreateSuppressedUntilBuildRefresh := true
|}.

Definition pathSkipFromSettings (s : HubSettings) : PathSkipOptions :=
  {| skipFolderNames_opt := skipFolderNames s; skipDotFolders_opt := skipDotFolders s |}.

(** ** constants.ts *)

Definition WAIT_FOR_HUB_ATTEMPTS : nat := 60.
Definition WAIT_MS_PER_ATTEMPT : Z := 100.
Definition WRITE_LOCK_MS : Z := 1200.
Definition STARTUP_DELAY_MS : Z := 2000.
Definition CSS_CLASS_OB_HIDE : str := js "graphforge-ob-hide".

(** ** The vault *)

Module Vault.

(** [TFolder]: [path], [name] and the [parent] object (absent on the
    vault root, whose path is ["/"]). *)
#[local] Set Warnings "-register-all".
Inductive TFolder := mkTFolder (path name : str) (parent : option TFolder).
#[local] Set Warnings "+register-all".

Definition folder_path (d : TFolder) : str := let '(mkTFolder p _ _) := d in p.
Definition folder_name (d : TFolder) : str := let '(mkTFolder _ n _) := d in n.
Definition folder_parent (d : TFolder) : option TFolder := let '(mkTFolder _ _ p) := d in p.

Definition rootFolder : TFolder := mkTFolder (js "/") [] None.

(** [folder.isRoot()] *)
Definition isRoot (d : TFolder) : bool := eqs (folder_path d) (js "/").

Record TFile := {
  file_path : str;
  file_basename : str;
  file_extension : str;
  file_parent : option TFolder
}.

Inductive TAbstractFile :=
| AFile (f : TFile)
| AFolder (d : TFolder).

Definition abstract_path (x : TAbstractFile) : str :=
  match x with AFile f => file_path f | AFolder d => folder_path d end.

(** The vault: the folders [getAllFolders(false)] enumerates (the root is
    left out), the files with their text in the order the vault lists
    them, the creation time [adapter.stat(path)] reports ([None] when
    [stat] yields null), and [vault.configDir]. *)
Record Vault := {
  allFolders : list TFolder;
  allFiles : list (TFile * str);
  statCtime : str -> option Z;
  configDir : str
}.

Definition parentIs (d : TFolder) (p : option TFolder) : bool :=
  match p with
  | Some q => eqs (folder_path q) (folder_path d)
  | None => false
  end.

(** [folder.children], read off the vault. *)
Definition children (v : Vault) (d : TFolder) : list TAbstractFile :=
  map AFile (List.filter (fun f => parentIs d (file_parent f)) (map fst (allFiles v)))
  ++ map AFolder (List.filter (fun x => parentIs d (folder_parent x)) (allFolders v)).

Definition getMarkdownFiles (v : Vault) : list TFile :=
  List.filter (fun f => eqs (file_extension f) (js "md")) (map fst (allFiles v)).

Definition getFileByPath (v : Vault) (path : str) : option TFile :=
  List.find (fun f => eqs (file_path f) path) (map fst (allFiles v)).

(** [vault.read(file)] *)
Definition readFile (v : Vault) (path : str) : option str :=
  option_map snd (List.find (fun e => eqs (file_path (fst e)) path) (allFiles v)).

Definition pathIsFile (v : Vault) (path : str) : bool :=
  List.existsb (fun e => eqs (file_path (fst e)) path) (allFiles v).

Definition pathExists (v : Vault) (path : str) : bool :=
  pathIsFile v path
  || List.existsb (fun d => eqs (folder_path d) path) (allFolders v).

End Vault.
Import Vault.

(** ** hubForFolder.ts *)

Module HubForFolder.
Import RegExp.

(** [pattern.test(s)]; the constructor never throws on the sources
    [getNumberedHubPattern] builds ([getNumberedHubPattern_eq]). *)
Definition patternTest (p : option regex) (s : str) : bool :=
  match p with Some r => test r s | None => false end.

Definition isHubBasename (folderName suffix basename : str) : bool :=
  eqs basename (getHubNameForFolder folderName suffix)
  || patternTest (getNumberedHubPattern folderName suffix) basename.

Fixpoint firstHubFile (folderName suffix : str) (cs : list TAbstractFile) : option TFile :=
  match cs with
  | [] => None
  | AFile child :: cs' =>
      if isHubBasename folderName suffix (file_basename child) then Some child
      else firstHubFile folderName suffix cs'
  | AFolder _ :: cs' => firstHubFile folderName suffix cs'
  end.

Definition findHubInFolderWithName (v : Vault) (folder : TFolder) (folderName : str)
    (settings : HubSettings) : option TFile :=
  let suffix := orElse (hubSuffix settings) (js "_") in
  firstHubFile folderName suffix (children v folder).

Definition findHubInFolder (v : Vault) (folder : TFolder) (settings : HubSettings) : option TFile :=
  findHubInFolderWithName v folder (folder_name folder) settings.

(** [Array.prototype.sort(cmp)]: a stable sort; [x] goes before [y] when
    [cmp x y <= 0] and [x] was before [y]. *)
Section Sort.
Context {A : Type} (cmp : A -> A -> Z).

Fixpoint insertSorted (x : A) (l : list A) : list A :=
  match l with
  | [] => [x]
  | y :: l' => if (cmp x y <=? 0)%Z then x :: y :: l' else y :: insertSorted x l'
  end.

Fixpoint sortWith (l : list A) : list A :=
  match l with
  | [] => []
  | x :: l' => insertSorted x (sortWith l')
  end.
End Sort.

(** The comparator [(a, b) => key(a) - key(b)] and the orders it induces. *)
Section Keys.
Context {A : Type} (key : A -> Z).
Definition byKey (a b : A) : Z := (key a - key b)%Z.
Definition keyLe (a b : A) : Prop := (key a <= key b)%Z.
Definition keyLt (a b : A) : Prop := (key a < key b)%Z.
End Keys.

(** [stat?.ctime ?? 0] *)
Definition ctimeOf (v : Vault) (f : TFolder) : Z :=
  match statCtime v (folder_path f) with Some t => t | None => 0%Z end.

Definition getFoldersWithSameName (v : Vault) (folderName : str)
    (options : PathSkipOptions) : list TFolder :=
  let all := allFolders v in
  let sameName :=
    List.filter (fun f => eqs (folder_name f) folderName
                          && negb (shouldSkipPath (folder_path f) options)) all in
  let withStat := map (fun f => (f, ctimeOf v f)) sameName in
  map fst (sortWith (fun a b => (snd a - snd b)%Z) withStat).

(** [arr.findIndex(p)]: [None] stands for -1. *)
Fixpoint findIndex {A} (p : A -> bool) (l : list A) : option nat :=
  match l with
  | [] => None
  | x :: l' => if p x then Some 0 else option_map S (findIndex p l')
  end.

Definition getExpectedHubNameForFolder (v : Vault) (folder : TFolder)
    (settings : HubSettings) : str :=
  let suffix := orElse (hubSuffix settings) (js "_") in
  let sameName :=
    getFoldersWithSameName v (folder_name folder) (pathSkipFromSettings settings) in
  if Nat.leb (length sameName) 1 then getHubNameForFolder (folder_name folder) suffix
  else
    match findIndex (fun f => eqs (folder_path f) (folder_path folder)) sameName with
    | None => getHubNameForFolder (folder_name folder) suffix
    | Some index => getNumberedHubName (folder_name folder) (index + 1) suffix
    end.

Record WaitForNumberedHubOptions := {
  attempts : option nat;
  msPerAttempt : option Z
}.

(** The loop of [waitForNumberedHub].  The vault may change while the
    function sleeps: [obs i] is the vault the [i]-th attempt sees.  The
    second component counts the attempts made. *)
Fixpoint pollNumberedHub (obs : nat -> Vault) (folder : TFolder) (settings : HubSettings)
    (i remaining : nat) : option TFile * nat :=
  match remaining with
  | 0 => (None, i)
  | S remaining' =>
      let expectedName := getExpectedHubNameForFolder (obs i) folder settings in
      match findHubInFolder (obs i) folder settings with
      | Some hub =>
          if eqs (file_basename hub) expectedName then (Some hub, S i)
          else pollNumberedHub obs folder settings (S i) remaining'
      | None => pollNumberedHub obs folder settings (S i) remaining'
      end
  end.

Definition attemptsOf (options : option WaitForNumberedHubOptions) : nat :=
  match options with
  | Some o => match attempts o with Some n => n | None => WAIT_FOR_HUB_ATTEMPTS end
  | None => WAIT_FOR_HUB_ATTEMPTS
  end.

Definition waitForNumberedHub (obs : nat -> Vault) (folder : TFolder)
    (settings : HubSettings) (options : option WaitForNumberedHubOptions)
    : option TFile * nat :=
  pollNumberedHub obs folder settings 0 (attemptsOf options).

End HubForFolder.
Import HubForFolder.

(** ** Name groups *)

(** The test of [getFoldersWithSameName]'s filter. *)
Definition inNameGroup (options : PathSkipOptions) (folderName : str) (f : TFolder) : bool :=
  eqs (folder_name f) folderName && negb (shouldSkipPath (folder_path f) options).

(** The folders of a name group in the order the vault enumerates them. *)
Definition nameGroup (v : Vault) (folderName : str) (options : PathSkipOptions) : list TFolder :=
  List.filter (inNameGroup options folderName) (allFolders v).

Definition samePath (folder : TFolder) (f : TFolder) : bool :=
  eqs (folder_path f) (folder_path folder).

(** What [waitForNumberedHub] polls for: the folder's hub exists and
    carries the expected name. *)
Definition hubStable (v : Vault) (folder : TFolder) (settings : HubSettings) (hub : TFile) : Prop :=
  findHubInFolder v folder settings = Some hub /\
  file_basename hub = getExpectedHubNameForFolder v folder settings.

(** ** Sample vaults *)

Module Samples.

Definition top (name : string) : TFolder :=
  mkTFolder (js name) (js name) (Some rootFolder).
Arguments top name%_string.

Definition sub (parent : TFolder) (name : string) : TFolder :=
  mkTFolder (folder_path parent ++ js "/" ++ js name) (js name) (Some parent).
Arguments sub parent name%_string.

Definition dirA : TFolder := top "a".
Definition dirB : TFolder := top "b".
Definition dirC : TFolder := top "c".
Definition aX : TFolder := sub dirA "X".
Definition bX : TFolder := sub dirB "X".
Definition cX : TFolder := sub dirC "X".

Definition ctimes (l : list (TFolder * Z)) (path : str) : option Z :=
  option_map snd (List.find (fun e => eqs (folder_path (fst e)) path) l).

(** Three folders named X, created in the order a/X, b/X, c/X and
    enumerated in another order. *)
Definition threeX : Vault := {|
  allFolders := [dirA; cX; dirB; aX; dirC; bX];
  allFiles := [];
  statCtime := ctimes [(aX, 10%Z); (bX, 20%Z); (cX, 30%Z)];
  configDir := js ".obsidian"
|}.

(** The same vault after b/X was deleted. *)
Definition threeX_without_middle : Vault := {|
  allFolders := [dirA; cX; dirB; aX; dirC];
  allFiles := [];
  statCtime := ctimes [(aX, 10%Z); (cX, 30%Z)];
  configDir := js ".obsidian"
|}.

(** Two folders named X whose creation time is unavailable, in the two
    enumeration orders. *)
Definition tieAB : Vault := {|
  allFolders := [aX; bX];
  allFiles := [];
  statCtime := fun _ => None;
  configDir := js ".obsidian"
|}.

Definition tieBA : Vault := {|
  allFolders := [bX; aX];
  allFiles := [];
  statCtime := fun _ => None;
  configDir := js ".obsidian"
|}.

End Samples.

(** ** The state the plugin runs in *)

(** A write reaching the storage layer. *)
Inductive VaultWrite :=
| WCreate (path content : str)
| WModify (path content : str)
| WRename (oldPath newPath : str)
| WTrash (path : str).

(** Settings objects live in a store and are handed around by reference,
    as the plugin hands its [settings] object to closures and functions:
    [w_plugin] is [plugin.settings], [w_handlers] the object the vault
    event handlers captured when they were registered. *)
Record World := {
  w_vault : Vault;
  w_heap : list HubSettings;
  w_plugin : nat;
  w_handlers : option nat;
  w_data : option HubSettings;     (* data.json: [loadData] and [saveData] *)
  w_locks : gmap str Z;            (* writeLock.ts: [locks] *)
  w_now : Z;                       (* [Date.now()] *)
  w_writes : list VaultWrite;      (* oldest first *)
  w_startupTimer : bool            (* the startup refresh is scheduled *)
}.

Definition setVault (v : Vault) (w : World) : World :=
  {| w_vault := v; w_heap := w_heap w; w_plugin := w_plugin w;
     w_handlers := w_handlers w; w_data := w_data w; w_locks := w_locks w;
     w_now := w_now w; w_writes := w_writes w; w_startupTimer := w_startupTimer w |}.

Definition setHeap (h : list HubSettings) (w : World) : World :=
  {| w_vault := w_vault w; w_heap := h; w_plugin := w_plugin w;
     w_handlers := w_handlers w; w_data := w_data w; w_locks := w_locks w;
     w_now := w_now w; w_writes := w_writes w; w_startupTimer := w_startupTimer w |}.

Definition setPlugin (r : nat) (w : World) : World :=
  {| w_vault := w_vault w; w_heap := w_heap w; w_plugin := r;
     w_handlers := w_handlers w; w_data := w_data w; w_locks := w_locks w;
     w_now := w_now w; w_writes := w_writes w; w_startupTimer := w_startupTimer w |}.

Definition setHandlers (r : option nat) (w : World) : World :=
  {| w_vault := w_vault w; w_heap := w_heap w; w_plugin := w_plugin w;
     w_handlers := r; w_data := w_data w; w_locks := w_locks w;
     w_now := w_now w; w_writes := w_writes w; w_startupTimer := w_startupTimer w |}.

Definition setData (d : option HubSettings) (w : World) : World :=
  {| w_vault := w_vault w; w_heap := w_heap w; w_plugin := w_plugin w;
     w_handlers := w_handlers w; w_data := d; w_locks := w_locks w;
     w_now := w_now w; w_writes := w_writes w; w_startupTimer := w_startupTimer w |}.

Definition setLocks (l : gmap str Z) (w : World) : World :=
  {| w_vault := w_vault w; w_heap := w_heap w; w_plugin := w_plugin w;
     w_handlers := w_handlers w; w_data := w_data w; w_locks := l;
     w_now := w_now w; w_writes := w_writes w; w_startupTimer := w_startupTimer w |}.

Definition setNow (t : Z) (w : World) : World :=
  {| w_vault := w_vault w; w_heap := w_heap w; w_plugin := w_plugin w;
     w_handlers := w_handlers w; w_data := w_data w; w_locks := w_locks w;
     w_now := t; w_writes := w_writes w; w_startupTimer := w_startupTimer w |}.

Definition setWrites (l : list VaultWrite) (w : World) : World :=
  {| w_vault := w_vault w; w_heap := w_heap w; w_plugin := w_plugin w;
     w_handlers := w_handlers w; w_data := w_data w; w_locks := w_locks w;
     w_now := w_now w; w_writes := l; w_startupTimer := w_startupTimer w |}.

Definition setStartupTimer (b : bool) (w : World) : World :=
  {| w_vault := w_vault w; w_heap := w_heap w; w_plugin := w_plugin w;
     w_handlers := w_handlers w; w_data := w_data w; w_locks := w_locks w;
     w_now := w_now w; w_writes := w_writes w; w_startupTimer := b |}.

(** *** The monad of the engine: state and exceptions *)

Inductive Outcome (A : Type) :=
| Done (a : A) (w : World)
| Thrown (w : World).
Arguments Done {A} a w.
Arguments Thrown {A} w.

Definition M (A : Type) : Type := World -> Outcome A.

Definition ret {A} (a : A) : M A := fun w => Done a w.

Definition bind {A B} (m : M A) (f : A -> M B) : M B :=
  fun w => match m w with
           | Done a w' => f a w'
           | Thrown w' => Thrown w'
           end.

Definition throw {A} : M A := fun w => Thrown w.

Definition getWorld : M World := fun w => Done w w.

Definition modifyWorld (f : World -> World) : M unit := fun w => Done tt (f w).

(** [promise.catch(() => {})] *)
Definition catchAll (m : M unit) : M unit :=
  fun w => match m w with
           | Done a w' => Done a w'
           | Thrown w' => Done tt w'
           end.

(** [try { body } finally { cleanup }] *)
Definition tryFinally (body cleanup : M unit) : M unit :=
  fun w => match body w with
           | Done a w' => cleanup w'
           | Thrown w' =>
               match cleanup w' with
               | Done _ w'' => Thrown w''
               | Thrown w'' => Thrown w''
               end
           end.

Definition worldOf {A} (o : Outcome A) : World :=
  match o with Done _ w => w | Thrown w => w end.

Declare Scope engine_scope.
Delimit Scope engine_scope with engine.
Notation "'let!' x := m 'in' k" := (bind m (fun x => k))
  (at level 10, x name, m at level 100, k at level 200) : engine_scope.
Notation "m ;; k" := (bind m (fun _ => k))
  (at level 100, k at level 200, right associativity) : engine_scope.
Open Scope engine_scope.

(** [for (const x of xs) await body(x)] over an array nothing mutates. *)
Fixpoint forEach {A} (xs : list A) (body : A -> M unit) : M unit :=
  match xs with
  | [] => ret tt
  | x :: xs' => body x ;; forEach xs' body
  end.

Definition getVault : M Vault := fun w => Done (w_vault w) w.

(** Reading the settings object behind a reference. *)
Definition readSettings (settings : nat) : M HubSettings :=
  fun w => match nth_error (w_heap w) settings with
           | Some s => Done s w
           | None => Thrown w
           end.

Definition updateSettings (settings : nat) (f : HubSettings -> HubSettings) : M unit :=
  fun w => match nth_error (w_heap w) settings with
           | Some s => Done tt (setHeap (<[settings := f s]> (w_heap w)) w)
           | None => Thrown w
           end.

(** [this.settings = { ... }]: a new object. *)
Definition newSettings (s : HubSettings) : M nat :=
  fun w => Done (length (w_heap w)) (setHeap (w_heap w ++ [s]) w).

(** *** writeLock.ts *)

Definition setWriteLock (path : str) : M unit :=
  modifyWorld (fun w => setLocks (<[path := w_now w]> (w_locks w)) w).

Definition isWriteLocked (path : str) : M bool :=
  fun w =>
    match w_locks w !! path with
    | None => Done false w
    | Some t =>
        if (w_now w - t >=? WRITE_LOCK_MS)%Z
        then Done false (setLocks (delete path (w_locks w)) w)
        else Done true w
    end.

(** *** The vault operations the plugin calls *)

(** The last index of [sep]: what is before it and what is after. *)
Fixpoint splitAtLast (sep : ascii) (s : str) : option (str * str) :=
  match s with
  | [] => None
  | c :: s' =>
      match splitAtLast sep s' with
      | Some (before, after) => Some (c :: before, after)
      | None => if eqc c sep then Some ([], s') else None
      end
  end.

Definition findFolder (v : Vault) (path : str) : option TFolder :=
  List.find (fun d => eqs (folder_path d) path) (allFolders v).

(** The [TFile] the vault makes for a path: parent folder, basename and
    extension are read off the path. *)
Definition fileAt (v : Vault) (path : str) : option TFile :=
  let '(dir, filename) :=
    match splitAtLast "/" path with
    | Some (d, f) => (Some d, f)
    | None => (None, path)
    end in
  let '(base, ext) :=
    match splitAtLast "." filename with
    | Some (b, e) => (b, e)
    | None => (filename, [])
    end in
  let parent :=
    match dir with
    | None => Some rootFolder
    | Some d => findFolder v d
    end in
  match parent with
  | Some p => Some {| file_path := path; file_basename := base;
                      file_extension := ext; file_parent := Some p |}
  | None => None
  end.

Definition logWrite (x : VaultWrite) : M unit :=
  modifyWorld (fun w => setWrites (w_writes w ++ [x]) w).

Definition setFiles (fs : list (TFile * str)) (v : Vault) : Vault :=
  {| allFolders := allFolders v; allFiles := fs; statCtime := statCtime v;
     configDir := configDir v |}.

(** [vault.read(file)] *)
Definition vaultRead (file : TFile) : M str :=
  fun w => match readFile (w_vault w) (file_path file) with
           | Some text => Done text w
           | None => Thrown w
           end.

(** [vault.modify(file, data)] *)
Definition vaultModify (file : TFile) (data : str) : M unit :=
  let! v := getVault in
  if pathIsFile v (file_path file) then
    modifyWorld (fun w =>
      setVault (setFiles
        (map (fun e => if eqs (file_path (fst e)) (file_path file)
                       then (fst e, data) else e) (allFiles v)) v) w) ;;
    logWrite (WModify (file_path file) data)
  else throw.

(** [vault.create(path, data)]: refused when the path is taken; the new
    file is listed last. *)
Definition vaultCreate (path data : str) : M unit :=
  let! v := getVault in
  if pathExists v path then throw
  else
    match fileAt v path with
    | Some f =>
        modifyWorld (setVault (setFiles (allFiles v ++ [(f, data)]) v)) ;;
        logWrite (WCreate path data)
    | None => throw
    end.

Definition withoutFile (path : str) (fs : list (TFile * str)) : list (TFile * str) :=
  List.filter (fun e => negb (eqs (file_path (fst e)) path)) fs.

(** [vault.rename(file, newPath)]: refused when the destination is
    taken; the file leaves its parent's children and joins the children
    of the destination folder at the end. *)
Definition vaultRename (file : TFile) (newPath : str) : M unit :=
  let! v := getVault in
  match readFile v (file_path file) with
  | None => throw
  | Some text =>
      if pathExists v newPath then throw
      else
        match fileAt v newPath with
        | Some f =>
            modifyWorld (setVault
              (setFiles (withoutFile (file_path file) (allFiles v) ++ [(f, text)]) v)) ;;
            logWrite (WRename (file_path file) newPath)
        | None => throw
        end
  end.

(** [app.fileManager.trashFile(file)] *)
Definition trashFile (file : TFile) : M unit :=
  let! v := getVault in
  if pathIsFile v (file_path file) then
    modifyWorld (setVault (setFiles (withoutFile (file_path file) (allFiles v)) v)) ;;
    logWrite (WTrash (file_path file))
  else throw.

(** [plugin.saveSettings()]: [saveData(this.settings)] *)
Definition saveSettings : M unit :=
  let! w := getWorld in
  let! s := readSettings (w_plugin w) in
  modifyWorld (setData (Some s)).

(** ** hubContent.ts *)

Module HubContent.

Definition LF : str := [newline].

(** [await waitForNumberedHub(vault, folder, settings)] in a run nothing
    interleaves with: every attempt sees the same vault. *)
Definition waitForNumberedHubNow (v : Vault) (folder : TFolder) (s : HubSettings)
    : option TFile :=
  fst (waitForNumberedHub (fun _ => v) folder s None).

Definition wikiLink (name : str) : str := js "[[" ++ name ++ js "]]".

Definition hubContentOf (v : Vault) (folder : TFolder) (s : HubSettings) : str :=
  let lines := [orElse (hubInsertTitle s) (js "## DIRECTORY"); []] in
  let lines :=
    match folder_parent folder with
    | Some parent =>
        if negb (isRoot parent) && parentLinkForSubfolderHubs s then
          let _ := waitForNumberedHubNow v parent s in
          let parentHubName := getExpectedHubNameForFolder v parent s in
          lines ++ [wikiLink parentHubName; []]
        else lines
    | None => lines
    end in
  let lines := lines ++ [js "```display_folder_directory"; js "```"; []] in
  join LF lines.

Definition buildHubContent (folder : TFolder) (settings : nat) : M str :=
  let! s := readSettings settings in
  let! v := getVault in
  ret (hubContentOf v folder s).

Definition ensureHubContentUpToDate (hubFile : TFile) (folder : TFolder) (settings : nat)
    : M unit :=
  let! desired := buildHubContent folder settings in
  let! current := vaultRead hubFile in
  if eqs current desired then ret tt
  else setWriteLock (file_path hubFile) ;; vaultModify hubFile desired.

Definition hubPath (folder : TFolder) (name : str) : str :=
  folder_path folder ++ js "/" ++ name ++ js ".md".

Definition ensureHubForFolder (folder : TFolder) (settings : nat) : M unit :=
  let! s := readSettings settings in
  let! v := getVault in
  let expectedName := getExpectedHubNameForFolder v folder s in
  match findHubInFolder v folder s with
  | Some hub => ensureHubContentUpToDate hub folder settings
  | None =>
      let! content := buildHubContent folder settings in
      let path := hubPath folder expectedName in
      setWriteLock path ;; vaultCreate path content
  end.

(** Rename the hub to its expected name, then bring the renamed file's
    content up to date. *)
Definition renameHubAndRefresh (hub : TFile) (folder : TFolder) (expectedName : str)
    (settings : nat) : M unit :=
  let newPath := hubPath folder expectedName in
  setWriteLock (file_path hub) ;;
  setWriteLock newPath ;;
  vaultRename hub newPath ;;
  let! v := getVault in
  match getFileByPath v newPath with
  | Some updated => ensureHubContentUpToDate updated folder settings
  | None => ret tt
  end.

Definition assignNumberedHubsForName (folderName : str) (settings : nat) : M unit :=
  let! s := readSettings settings in
  let options := pathSkipFromSettings s in
  let! v := getVault in
  let sameName := getFoldersWithSameName v folderName options in
  let suffix := orElse (hubSuffix s) (js "_") in
  if Nat.leb (length sameName) 1 then
    match sameName with
    | [] => ret tt
    | folder :: _ =>
        let expectedName := getHubNameForFolder folderName suffix in
        match findHubInFolderWithName v folder folderName s with
        | Some hub =>
            if negb (eqs (file_basename hub) expectedName)
            then renameHubAndRefresh hub folder expectedName settings
            else ret tt
        | None => ret tt
        end
    end
  else
    forEach (combine (seq 0 (length sameName)) sameName)
      (fun '(i, folder) =>
         let expectedName := getNumberedHubName folderName (i + 1) suffix in
         let! v := getVault in
         match findHubInFolder v folder s with
         | None =>
             let! content := buildHubContent folder settings in
             let path := hubPath folder expectedName in
             setWriteLock path ;; vaultCreate path content
         | Some hub =>
             if negb (eqs (file_basename hub) expectedName)
             then renameHubAndRefresh hub folder expectedName settings
             else ensureHubContentUpToDate hub folder settings
         end).

Definition handleDuplicateFolderNames (folderName : str) (settings : nat) : M unit :=
  assignNumberedHubsForName folderName settings.

(** [for (const child of folder.children)] with the body trashing
    children: the iterator reads the live array by index, so the entry
    that follows a trashed one is stepped over. *)
Fixpoint trashHubChildren (folder : TFolder) (baseName : str)
    (numberedPattern : option RegExp.regex) (fuel index : nat) : M unit :=
  match fuel with
  | 0 => ret tt
  | S fuel' =>
      let! v := getVault in
      match nth_error (children v folder) index with
      | None => ret tt
      | Some (AFile child) =>
          (if eqs (file_basename child) baseName
              || patternTest numberedPattern (file_basename child)
           then setWriteLock (file_path child) ;; trashFile child
           else ret tt) ;;
          trashHubChildren folder baseName numberedPattern fuel' (S index)
      | Some (AFolder _) =>
          trashHubChildren folder baseName numberedPattern fuel' (S index)
      end
  end.

Definition deleteAllHubFilesWithSuffix (settings : nat) (suffix : str) : M unit :=
  let! s := readSettings settings in
  let options := pathSkipFromSettings s in
  let! v := getVault in
  let all := allFolders v in
  forEach all
    (fun folder =>
       if shouldSkipPath (folder_path folder) options then ret tt
       else if isRootFolder (folder_path folder) then ret tt
       else
         let baseName := getHubNameForFolder (folder_name folder) suffix in
         let numberedPattern := getNumberedHubPattern (folder_name folder) suffix in
         let! v := getVault in
         trashHubChildren folder baseName numberedPattern
           (length (children v folder)) 0).

Definition migrateHubSuffix (settings : nat) (oldSuffix : str) : M unit :=
  deleteAllHubFilesWithSuffix settings oldSuffix.

Definition removeAllHubNotes (settings : nat) : M unit :=
  let! s := readSettings settings in
  deleteAllHubFilesWithSuffix settings (orElse (hubSuffix s) (js "_")).

(** [nameCount.set(name, (nameCount.get(name) ?? 0) + 1)] on a [Map],
    which keeps its keys in insertion order. *)
Fixpoint countName (name : str) (nameCount : list (str * nat)) : list (str * nat) :=
  match nameCount with
  | [] => [(name, 1)]
  | (k, c) :: rest =>
      if eqs k name then (k, c + 1) :: rest else (k, c) :: countName name rest
  end.

(** [settings.previousHubSuffix ?? settings.hubSuffix] *)
Definition previousSuffixOf (s : HubSettings) : str :=
  match previousHubSuffix s with
  | Some p => p
  | None => hubSuffix s
  end.

Definition buildRefreshHubNotes (settings : nat) : M unit :=
  let! s := readSettings settings in
  let prev := previousSuffixOf s in
  (if negb (eqs prev (hubSuffix s)) then migrateHubSuffix settings prev else ret tt) ;;
  let! s := readSettings settings in
  let options := pathSkipFromSettings s in
  let! v := getVault in
  let all := allFolders v in
  forEach all
    (fun folder =>
       if shouldSkipPath (folder_path folder) options then ret tt
       else if isRootFolder (folder_path folder) then ret tt
       else ensureHubForFolder folder settings) ;;
  let nameCount :=
    fold_left
      (fun m folder =>
         if shouldSkipPath (folder_path folder) options then m
         else if isRootFolder (folder_path folder) then m
         else countName (folder_name folder) m)
      all [] in
  forEach nameCount
    (fun '(name, count) =>
       if Nat.ltb 1 count then assignNumberedHubsForName name settings else ret tt).

End HubContent.
Import HubContent.

(** ** Field updates of the settings object *)

Definition withPreviousHubSuffix (p : option str) (s : HubSettings) : HubSettings :=
  {| hubSuffix := hubSuffix s; previousHubSuffix := p;
     hubInsertTitle := hubInsertTitle s; skipFolderNames := skipFolderNames s;
     skipDotFolders := skipDotFolders s;
     parentLinkForSubfolderHubs := parentLinkForSubfolderHubs s;
     updateHubOnFolderRename := updateHubOnFolderRename s;
     insertHubLinkOnCreate := insertHubLinkOnCreate s;
     updateHubLinkOnMove := updateHubLinkOnMove s; debugLogs := debugLogs s;
     hideObHideSpans := hideObHideSpans s; removeHiddenBlink := removeHiddenBlink s;
     autoHideHubLinks := autoHideHubLinks s;
     hideHubNotesInExplorer := hideHubNotesInExplorer s;
     folderDirectoryColor := folderDirectoryColor s;
     realTimeUpdating := realTimeUpdating s;
     excludeHubLinksFromSelectAll := excludeHubLinksFromSelectAll s;
     insertSeparatorAfterHubLink := insertSeparatorAfterHubLink s;
     autoCreateSuppressedUntilBuildRefresh := autoCreateSuppressedUntilBuildRefresh s |}.

Definition withHubSuffix (x : str) (s : HubSettings) : HubSettings :=
  {| hubSuffix := x; previousHubSuffix := previousHubSuffix s;
     hubInsertTitle := hubInsertTitle s; skipFolderNames := skipFolderNames s;
     skipDotFolders := skipDotFolders s;
     parentLinkForSubfolderHubs := parentLinkForSubfolderHubs s;
     updateHubOnFolderRename := updateHubOnFolderRename s;
     insertHubLinkOnCreate := insertHubLinkOnCreate s;
     updateHubLinkOnMove := updateHubLinkOnMove s; debugLogs := debugLogs s;
     hideObHideSpans := hideObHideSpans s; removeHiddenBlink := removeHiddenBlink s;
     autoHideHubLinks := autoHideHubLinks s;
     hideHubNotesInExplorer := hideHubNotesInExplorer s;
     folderDirectoryColor := folderDirectoryColor s;
     realTimeUpdating := realTimeUpdating s;
     excludeHubLinksFromSelectAll := excludeHubLinksFromSelectAll s;
     insertSeparatorAfterHubLink := insertSeparatorAfterHubLink s;
     autoCreateSuppressedUntilBuildRefresh := autoCreateSuppressedUntilBuildRefresh s |}.

Definition withSkipFolderNames (x : list str) (s : HubSettings) : HubSettings :=
  {| hubSuffix := hubSuffix s; previousHubSuffix := previousHubSuffix s;
     hubInsertTitle := hubInsertTitle s; skipFolderNames := x;
     skipDotFolders := skipDotFolders s;
     parentLinkForSubfolderHubs := parentLinkForSubfolderHubs s;
     updateHubOnFolderRename := updateHubOnFolderRename s;
     insertHubLinkOnCreate := insertHubLinkOnCreate s;
     updateHubLinkOnMove := updateHubLinkOnMove s; debugLogs := debugLogs s;
     hideObHideSpans := hideObHideSpans s; removeHiddenBlink := removeHiddenBlink s;
     autoHideHubLinks := autoHideHubLinks s;
     hideHubNotesInExplorer := hideHubNotesInExplorer s;
     folderDirectoryColor := folderDirectoryColor s;
     realTimeUpdating := realTimeUpdating s;
     excludeHubLinksFromSelectAll := excludeHubLinksFromSelectAll s;
     insertSeparatorAfterHubLink := insertSeparatorAfterHubLink s;
     autoCreateSuppressedUntilBuildRefresh := autoCreateSuppressedUntilBuildRefresh s |}.

Definition withRealTimeUpdating (x : bool) (s : HubSettings) : HubSettings :=
  {| hubSuffix := hubSuffix s; previousHubSuffix := previousHubSuffix s;
     hubInsertTitle := hubInsertTitle s; skipFolderNames := skipFolderNames s;
     skipDotFolders := skipDotFolders s;
     parentLinkForSubfolderHubs := parentLinkForSubfolderHubs s;
     updateHubOnFolderRename := updateHubOnFolderRename s;
     insertHubLinkOnCreate := insertHubLinkOnCreate s;
     updateHubLinkOnMove := updateHubLinkOnMove s; debugLogs := debugLogs s;
     hideObHideSpans := hideObHideSpans s; removeHiddenBlink := removeHiddenBlink s;
     autoHideHubLinks := autoHideHubLinks s;
     hideHubNotesInExplorer := hideHubNotesInExplorer s;
     folderDirectoryColor := folderDirectoryColor s;
     realTimeUpdating := x;
     excludeHubLinksFromSelectAll := excludeHubLinksFromSelectAll s;
     insertSeparatorAfterHubLink := insertSeparatorAfterHubLink s;
     autoCreateSuppressedUntilBuildRefresh := autoCreateSuppressedUntilBuildRefresh s |}.

Definition withAutoCreateSuppressed (x : bool) (s : HubSettings) : HubSettings :=
  {| hubSuffix := hubSuffix s; previousHubSuffix := previousHubSuffix s;
     hubInsertTitle := hubInsertTitle s; skipFolderNames := skipFolderNames s;
     skipDotFolders := skipDotFolders s;
     parentLinkForSubfolderHubs := parentLinkForSubfolderHubs s;
     updateHubOnFolderRename := updateHubOnFolderRename s;
     insertHubLinkOnCreate := insertHubLinkOnCreate s;
     updateHubLinkOnMove := updateHubLinkOnMove s; debugLogs := debugLogs s;
     hideObHideSpans := hideObHideSpans s; removeHiddenBlink := removeHiddenBlink s;
     autoHideHubLinks := autoHideHubLinks s;
     hideHubNotesInExplorer := hideHubNotesInExplorer s;
     folderDirectoryColor := folderDirectoryColor s;
     realTimeUpdating := realTimeUpdating s;
     excludeHubLinksFromSelectAll := excludeHubLinksFromSelectAll s;
     insertSeparatorAfterHubLink := insertSeparatorAfterHubLink s;
     autoCreateSuppressedUntilBuildRefresh := x |}.

(** ** linksInNotes.ts *)

Module LinksInNotes.
Import RegExp.

(** The class [[^\]#|]] of a link target. *)
Definition linkTargetUnit : atom := ANotIn (js "]#|").

(** [/^\[\[([^\]#|]+)/] and [/<span[^>]*>\[\[([^\]#|]+)/], each up to its
    capture group. *)
Definition bareLinkPrefix : regex := IStart :: lits (js "[[").
Definition spanLinkPrefix : regex :=
  lits (js "<span") ++ [IStar (ANotIn (js ">"))] ++ lits (js ">[[").

Definition extractWikiLinkTarget (line : str) : option str :=
  let trimmed := trim line in
  match matchGroup bareLinkPrefix linkTargetUnit trimmed with
  | Some target => Some target
  | None => matchGroup spanLinkPrefix linkTargetUnit trimmed
  end.

Definition targetMatchesHubSuffixPattern (target suffix : str) : bool :=
  let s := orElse suffix (js "_") in
  patternTest (parse (js "^.*" ++ escapeRegex s ++ js "\d*$")) target.

Definition isHubLinkLine (line : str) (folder : option TFolder) (s : HubSettings) : bool :=
  match extractWikiLinkTarget line with
  | None => false
  | Some target =>
      let suffix := orElse (hubSuffix s) (js "_") in
      match folder with
      | None =>
          if targetMatchesHubSuffixPattern target suffix then true
          else
            let prev := match previousHubSuffix s with Some p => p | None => suffix end in
            if negb (eqs prev suffix) && targetMatchesHubSuffixPattern target prev
            then true else false
      | Some folder =>
          let baseName := getHubNameForFolder (folder_name folder) suffix in
          let numberedPattern := getNumberedHubPattern (folder_name folder) suffix in
          eqs target baseName || patternTest numberedPattern target
      end
  end.

(** The index after the leading lines that are blank or hub links. *)
Fixpoint stripLeadingHubLinkLines (lines : list str) (folder : option TFolder)
    (s : HubSettings) : nat :=
  match lines with
  | [] => 0
  | line :: rest =>
      if eqs (trim line) [] then S (stripLeadingHubLinkLines rest folder s)
      else if isHubLinkLine line folder s then S (stripLeadingHubLinkLines rest folder s)
      else 0
  end.

Definition getLeadingHubLinkLineCount (lines : list str) (folder : option TFolder)
    (s : HubSettings) : nat :=
  stripLeadingHubLinkLines lines folder s.

Definition getCorrectHubLinkForNote (note : TFile) (settings : nat) : M (option str) :=
  match file_parent note with
  | None => ret None
  | Some folder =>
      if isRoot folder then ret None
      else
        let! s := readSettings settings in
        if shouldSkipPath (folder_path folder) (pathSkipFromSettings s) then ret None
        else
          let! v := getVault in
          match waitForNumberedHubNow v folder s with
          | None => ret None
          | Some _ =>
              let name := getExpectedHubNameForFolder v folder s in
              ret (Some (wikiLink name))
          end
  end.

Definition isHubNote (note : TFile) (settings : nat) : M bool :=
  match file_parent note with
  | None => ret false
  | Some folder =>
      if isRoot folder then ret false
      else
        let! s := readSettings settings in
        let! v := getVault in
        let expectedName := getExpectedHubNameForFolder v folder s in
        ret (eqs (file_basename note) expectedName)
  end.

Definition getCorrectParentLinkForHubNote (note : TFile) (settings : nat) : M (option str) :=
  match file_parent note with
  | None => ret None
  | Some folder =>
      if isRoot folder then ret None
      else
        match folder_parent folder with
        | None => ret None
        | Some parent =>
            if isRoot parent then ret None
            else
              let! s := readSettings settings in
              if shouldSkipPath (folder_path parent) (pathSkipFromSettings s) then ret None
              else
                let! v := getVault in
                let _ := waitForNumberedHubNow v parent s in
                let name := getExpectedHubNameForFolder v parent s in
                ret (Some (wikiLink name))
        end
  end.

(** [/^##\s+/] *)
Definition headingPattern : regex :=
  IStart :: lits (js "##") ++ [IOne ASpace; IStar ASpace].

Definition isBlankLine (l : str) : bool := eqs (trim l) [].

(** [lines.splice(i, 1)] *)
Definition removeAt {A} (i : nat) (l : list A) : list A :=
  firstn i l ++ skipn (S i) l.

Definition updateParentLinkUnderDirectory (content : str) (parentLink : option str) : str :=
  let lines := split newline content in
  match findIndex (fun l => test headingPattern (trim l)) lines with
  | None => content
  | Some dirIdx =>
      let j := dirIdx + 1 + length (takeWhileLines isBlankLine (skipn (dirIdx + 1) lines)) in
      let linkIdx :=
        match nth_error lines j with
        | Some lineAtJ =>
            match extractWikiLinkTarget lineAtJ with
            | Some _ => Some j
            | None => None
            end
        | None => None
        end in
      match linkIdx with
      | Some linkIdx =>
          match parentLink with
          | Some link => join LF (<[linkIdx := link]> lines)
          | None =>
              let lines := removeAt linkIdx lines in
              let lines :=
                match nth_error lines linkIdx with
                | Some lineAfterSplice =>
                    if isBlankLine lineAfterSplice then removeAt linkIdx lines else lines
                | None => lines
                end in
              join LF lines
          end
      | None =>
          match parentLink with
          | Some link => join LF (firstn j lines ++ [link; []] ++ skipn j lines)
          | None => content
          end
      end
  end.

(** [/^\s*\n?---\s*\n\s*/] *)
Definition separatorPattern : regex :=
  [IStart; IStar ASpace; IOpt (AChar newline)] ++ lits (js "---")
  ++ [IStar ASpace; IOne (AChar newline); IStar ASpace].

Definition stripSeparator (rest : str) : str :=
  replaceFirstWithEmpty separatorPattern rest.

Definition hiddenSpan (link : str) : str :=
  js "<span class=" ++ [dquote] ++ CSS_CLASS_OB_HIDE ++ [dquote] ++ js ">"
  ++ link ++ js "</span>".

(** The block [upsertHubLinkInNote] puts on top of a note. *)
Definition newTopFor (correctLink : option str) (addSeparator : bool) (s : HubSettings) : str :=
  match correctLink with
  | Some link =>
      let linkLine := if autoHideHubLinks s then hiddenSpan link else link in
      let prefixBlank := if removeHiddenBlink s then LF else [] in
      prefixBlank ++ linkLine ++ LF ++ LF ++ (if addSeparator then js "---" ++ LF ++ LF else [])
  | None => []
  end.

Definition isSome {A} (o : option A) : bool :=
  match o with Some _ => true | None => false end.

Definition upsertHubLinkInNote (note : TFile) (settings : nat) : M unit :=
  let! correctLink := getCorrectHubLinkForNote note settings in
  let! content := vaultRead note in
  let lines := split newline content in
  let! s := readSettings settings in
  let afterHub := stripLeadingHubLinkLines lines None s in
  let rest := join LF (skipn afterHub lines) in
  let rest := if isSome correctLink then rest else stripSeparator rest in
  let! hubNote := isHubNote note settings in
  if hubNote then
    let! parentLink := getCorrectParentLinkForHubNote note settings in
    let rest := updateParentLinkUnderDirectory rest parentLink in
    let newContent := rest in
    if eqs newContent content then ret tt
    else setWriteLock (file_path note) ;; vaultModify note newContent
  else
    let! s := readSettings settings in
    let addSeparator := insertSeparatorAfterHubLink s && negb hubNote in
    let rest := if isSome correctLink && addSeparator then stripSeparator rest else rest in
    let newTop := newTopFor correctLink addSeparator s in
    let newContent := newTop ++ rest in
    if eqs newContent content then ret tt
    else setWriteLock (file_path note) ;; vaultModify note newContent.

Definition removeHubLinkFromNoteIfPresent (note : TFile) (settings : nat) : M unit :=
  upsertHubLinkInNote note settings.

Definition buildRefreshHubLinks (settings : nat) : M unit :=
  let! s := readSettings settings in
  let options := pathSkipFromSettings s in
  let! v := getVault in
  let files := getMarkdownFiles v in
  forEach files
    (fun file =>
       match file_parent file with
       | Some folder =>
           if negb (isRoot folder) && shouldSkipPath (folder_path folder) options
           then ret tt
           else upsertHubLinkInNote file settings
       | None => upsertHubLinkInNote file settings
       end) ;;
  updateSettings settings (fun s => withPreviousHubSuffix (Some (hubSuffix s)) s).

Definition removeAllHubLinksFromNotes (settings : nat) : M unit :=
  let! v := getVault in
  let files := getMarkdownFiles v in
  forEach files
    (fun file =>
       let! content := vaultRead file in
       let lines := split newline content in
       let! s := readSettings settings in
       let afterHub := stripLeadingHubLinkLines lines None s in
       let rest := join LF (skipn afterHub lines) in
       let rest := stripSeparator rest in
       let! hubNote := isHubNote file settings in
       let rest := if hubNote then updateParentLinkUnderDirectory rest None else rest in
       if eqs rest content then ret tt
       else setWriteLock (file_path file) ;; vaultModify file rest).

End LinksInNotes.
Import LinksInNotes.

(** ** vaultEvents.ts *)

Module VaultEvents.

(** [buildRefreshHubNotes] then [buildRefreshHubLinks], then
    [plugin.saveSettings()], when the suffix differs from the previous
    one.  (vaultEvents.ts hands its [Vault] to [buildRefreshHubNotes],
    whose parameter is the [App]; here both denote the one state.) *)
Definition runSuffixMigrationIfNeeded (settings : nat) : M bool :=
  let! s := readSettings settings in
  if eqs (hubSuffix s) (previousSuffixOf s) then ret false
  else
    buildRefreshHubNotes settings ;;
    buildRefreshHubLinks settings ;;
    saveSettings ;;
    ret true.

Definition getFolderNameFromPath (path : str) : str :=
  let segments := List.filter nonEmpty (split "/"%char (normalizeSlashes path)) in
  match rev segments with
  | last :: _ => last
  | [] => path
  end.

(** The walk of [getMarkdownFilesUnderFolder]; the fuel bounds its depth
    by the number of folders. *)
Fixpoint walkMarkdown (v : Vault) (fuel : nat) (f : TFolder) : list TFile :=
  match fuel with
  | 0 => []
  | S fuel' =>
      flat_map
        (fun child =>
           match child with
           | AFile x => if eqs (file_extension x) (js "md") then [x] else []
           | AFolder d => walkMarkdown v fuel' d
           end)
        (children v f)
  end.

Definition getMarkdownFilesUnderFolder (v : Vault) (folder : TFolder) : list TFile :=
  walkMarkdown v (S (length (allFolders v))) folder.

Definition refreshLinksInNotesForFolderName (folderName : str) (settings : nat) : M unit :=
  let! s := readSettings settings in
  let options := pathSkipFromSettings s in
  let! v := getVault in
  let sameName := getFoldersWithSameName v folderName options in
  forEach sameName
    (fun folder =>
       let! v := getVault in
       forEach (getMarkdownFilesUnderFolder v folder)
         (fun note => upsertHubLinkInNote note settings)).

(** The two guards every incremental handler starts with, then the
    pending suffix migration: [true] when the handler is to stop. *)
Definition handlerStops (settings : nat) : M bool :=
  let! s := readSettings settings in
  if negb (realTimeUpdating s) then ret true
  else if autoCreateSuppressedUntilBuildRefresh s then ret true
  else runSuffixMigrationIfNeeded settings.

Definition onFolderCreate (folder : TFolder) (settings : nat) : M unit :=
  let! stop := handlerStops settings in
  if stop then ret tt
  else if isRootFolder (folder_path folder) then ret tt
  else
    let! s := readSettings settings in
    if shouldSkipPath (folder_path folder) (pathSkipFromSettings s) then ret tt
    else
      ensureHubForFolder folder settings ;;
      handleDuplicateFolderNames (folder_name folder) settings ;;
      refreshLinksInNotesForFolderName (folder_name folder) settings.

Definition orElseFile (a b : option TFile) : option TFile :=
  match a with Some _ => a | None => b end.

Definition onFolderRename (folder : TFolder) (oldPath : str) (settings : nat) : M unit :=
  let! stop := handlerStops settings in
  if stop then ret tt
  else if isRootFolder (folder_path folder) then ret tt
  else
    let! s := readSettings settings in
    if shouldSkipPath (folder_path folder) (pathSkipFromSettings s) then ret tt
    else
      let oldFolderName := getFolderNameFromPath oldPath in
      let! v := getVault in
      let expectedName := getExpectedHubNameForFolder v folder s in
      let hub :=
        orElseFile (findHubInFolder v folder s)
                   (findHubInFolderWithName v folder oldFolderName s) in
      match hub with
      | Some hub =>
          if negb (eqs (file_basename hub) expectedName) then
            let newPath := hubPath folder expectedName in
            setWriteLock (file_path hub) ;;
            setWriteLock newPath ;;
            vaultRename hub newPath
          else ret tt
      | None => ret tt
      end ;;
      handleDuplicateFolderNames oldFolderName settings ;;
      handleDuplicateFolderNames (folder_name folder) settings ;;
      refreshLinksInNotesForFolderName oldFolderName settings ;;
      refreshLinksInNotesForFolderName (folder_name folder) settings ;;
      let! v := getVault in
      match findHubInFolder v folder s with
      | Some hubAfter => ensureHubContentUpToDate hubAfter folder settings
      | None => ret tt
      end ;;
      let! v := getVault in
      forEach (children v folder)
        (fun child =>
           match child with
           | AFolder child =>
               let! v := getVault in
               match findHubInFolder v child s with
               | Some childHub => ensureHubContentUpToDate childHub child settings
               | None => ret tt
               end
           | AFile _ => ret tt
           end) ;;
      let! v := getVault in
      forEach (getMarkdownFilesUnderFolder v folder)
        (fun note => upsertHubLinkInNote note settings).

Definition onFolderDelete (folderName : str) (settings : nat) : M unit :=
  let! stop := handlerStops settings in
  if stop then ret tt
  else
    handleDuplicateFolderNames folderName settings ;;
    refreshLinksInNotesForFolderName folderName settings.

Definition onFileCreate (file : TFile) (settings : nat) : M unit :=
  let! stop := handlerStops settings in
  if stop then ret tt
  else
    let! locked := isWriteLocked (file_path file) in
    if locked then ret tt
    else
      let! s := readSettings settings in
      if shouldSkipPath (file_path file) (pathSkipFromSettings s) then ret tt
      else if negb (eqs (file_extension file) (js "md")) then ret tt
      else upsertHubLinkInNote file settings.

Definition onFileRename (file : TFile) (settings : nat) : M unit :=
  let! stop := handlerStops settings in
  if stop then ret tt
  else
    let! locked := isWriteLocked (file_path file) in
    if locked then ret tt
    else if negb (eqs (file_extension file) (js "md")) then ret tt
    else upsertHubLinkInNote file settings.

(** The three callbacks [registerVaultEvents] registers; [settings] is
    the object the closure captured. *)
Definition onVaultCreate (settings : nat) (file : TAbstractFile) : M unit :=
  let! locked := isWriteLocked (abstract_path file) in
  if locked then ret tt
  else
    match file with
    | AFolder d => catchAll (onFolderCreate d settings)
    | AFile f => catchAll (onFileCreate f settings)
    end.

Definition onVaultRename (settings : nat) (file : TAbstractFile) (oldPath : str) : M unit :=
  match file with
  | AFolder d =>
      let! lockedNew := isWriteLocked (folder_path d) in
      if lockedNew then ret tt
      else
        let! lockedOld := isWriteLocked oldPath in
        if lockedOld then ret tt
        else catchAll (onFolderRename d oldPath settings)
  | AFile f => catchAll (onFileRename f settings)
  end.

Definition onVaultDelete (settings : nat) (file : TAbstractFile) : M unit :=
  match file with
  | AFolder d => catchAll (onFolderDelete (folder_name d) settings)
  | AFile _ => ret tt
  end.

(** [registerVaultEvents(plugin)]: the callbacks close over
    [plugin.settings] as it is now. *)
Definition registerVaultEvents : M unit :=
  modifyWorld (fun w => setHandlers (Some (w_plugin w)) w).

End VaultEvents.
Import VaultEvents.

(** ** main.ts and the settings tab *)

Module Plugin.

Definition defaultSkipFolderNames (v : Vault) : list str :=
  [configDir v; js ".trash"; js "ATTACHMENTS"].

(** [loadSettings]: a new object from the defaults and data.json. *)
Definition loadSettings : M unit :=
  let! w := getWorld in
  let loaded :=
    match w_data w with
    | Some data => data
    | None => withSkipFolderNames (defaultSkipFolderNames (w_vault w)) DEFAULT_SETTINGS
    end in
  let! r := newSettings loaded in
  modifyWorld (setPlugin r).

Definition onload : M unit :=
  loadSettings ;;
  registerVaultEvents ;;
  let! w := getWorld in
  let! s := readSettings (w_plugin w) in
  if realTimeUpdating s && negb (autoCreateSuppressedUntilBuildRefresh s)
  then modifyWorld (setStartupTimer true)
  else ret tt.

Definition pluginSettings : M nat :=
  let! w := getWorld in ret (w_plugin w).

Definition buildRefreshHubNotesCommand : M unit :=
  let! r := pluginSettings in
  updateSettings r (withAutoCreateSuppressed false) ;;
  saveSettings ;;
  let! r := pluginSettings in
  buildRefreshHubNotes r ;;
  saveSettings.

Definition buildRefreshHubLinksCommand : M unit :=
  let! r := pluginSettings in
  updateSettings r (withAutoCreateSuppressed false) ;;
  saveSettings ;;
  let! r := pluginSettings in
  buildRefreshHubLinks r ;;
  saveSettings.

Definition removeAllHubNotesCommand : M unit :=
  let! r := pluginSettings in
  updateSettings r (withAutoCreateSuppressed true) ;;
  saveSettings ;;
  let! r := pluginSettings in
  removeAllHubNotes r.

Definition removeAllHubLinksCommand : M unit :=
  let! r := pluginSettings in
  updateSettings r (withAutoCreateSuppressed true) ;;
  saveSettings ;;
  let! r := pluginSettings in
  removeAllHubLinksFromNotes r.

Definition runStartupRefresh : M unit :=
  let! r := pluginSettings in
  let! s := readSettings r in
  let wasRealTime := realTimeUpdating s in
  updateSettings r (withRealTimeUpdating false) ;;
  tryFinally
    (let! r := pluginSettings in
     buildRefreshHubNotes r ;;
     saveSettings ;;
     let! r := pluginSettings in
     buildRefreshHubLinks r)
    (let! r := pluginSettings in
     updateSettings r (withRealTimeUpdating wasRealTime) ;;
     saveSettings).

(** Settings tab, "Restore to default": [plugin.settings] becomes a new
    object. *)
Definition restoreToDefault : M unit :=
  let! v := getVault in
  let! r := newSettings (withSkipFolderNames (defaultSkipFolderNames v) DEFAULT_SETTINGS) in
  modifyWorld (setPlugin r) ;;
  saveSettings.

(** Settings tab, the suffix input: the characters a file name cannot
    hold and the control characters are refused; the empty input stands
    for the underscore. *)
Definition hasInvalidChars (typed : str) : bool :=
  List.existsb (fun c => memc c (js "<>:/\|?*" ++ [dquote]) || Nat.leb (nat_of_ascii c) 31)
    typed.

Definition saveSuffix (typed : str) : M unit :=
  let! r := pluginSettings in
  let! s := readSettings r in
  let pendingSuffix := if hasInvalidChars typed then hubSuffix s else orElse typed (js "_") in
  if eqs pendingSuffix (hubSuffix s) then ret tt
  else
    updateSettings r
      (fun s => withHubSuffix pendingSuffix (withPreviousHubSuffix (Some (hubSuffix s)) s)) ;;
    saveSettings.

Definition setRealTimeUpdating (b : bool) : M unit :=
  let! r := pluginSettings in
  updateSettings r (withRealTimeUpdating b) ;;
  saveSettings.

(** What can happen to a loaded vault: the plugin's life cycle, the
    notifications of the vault, the commands and settings of the user,
    and the passing of time. *)
Inductive Event :=
| Onload
| StartupTimerFires
| VaultCreate (file : TAbstractFile)
| VaultRename (file : TAbstractFile) (oldPath : str)
| VaultDelete (file : TAbstractFile)
| BuildRefreshHubNotes
| BuildRefreshHubLinks
| RemoveAllHubNotes
| RemoveAllHubLinks
| RestoreToDefault
| SaveSuffix (typed : str)
| SetRealTimeUpdating (b : bool)
| TimePasses (ms : Z).

Definition withHandlers (f : nat -> M unit) : M unit :=
  let! w := getWorld in
  match w_handlers w with
  | Some settings => f settings
  | None => ret tt
  end.

Definition step (e : Event) : M unit :=
  match e with
  | Onload => onload
  | StartupTimerFires =>
      let! w := getWorld in
      if w_startupTimer w
      then modifyWorld (setStartupTimer false) ;; runStartupRefresh
      else ret tt
  | VaultCreate file => withHandlers (fun settings => onVaultCreate settings file)
  | VaultRename file oldPath =>
      withHandlers (fun settings => onVaultRename settings file oldPath)
  | VaultDelete file => withHandlers (fun settings => onVaultDelete settings file)
  | BuildRefreshHubNotes => buildRefreshHubNotesCommand
  | BuildRefreshHubLinks => buildRefreshHubLinksCommand
  | RemoveAllHubNotes => removeAllHubNotesCommand
  | RemoveAllHubLinks => removeAllHubLinksCommand
  | RestoreToDefault => restoreToDefault
  | SaveSuffix typed => saveSuffix typed
  | SetRealTimeUpdating b => setRealTimeUpdating b
  | TimePasses ms => modifyWorld (fun w => setNow (w_now w + ms)%Z w)
  end.

(** A sequence of events; an event that throws leaves the state it
    reached. *)
Fixpoint run (es : list Event) (w : World) : World :=
  match es with
  | [] => w
  | e :: es' => run es' (worldOf (step e w))
  end.

End Plugin.

(** ** Scenarios *)

Module Scenarios.
Import Plugin.

Definition isDone {A} (o : Outcome A) : bool :=
  match o with Done _ _ => true | Thrown _ => false end.

(** The markdown file [base].md of a folder. *)
Definition noteIn (d : TFolder) (base : string) : TFile :=
  {| file_path := folder_path d ++ js "/" ++ js base ++ js ".md";
     file_basename := js base;
     file_extension := js "md";
     file_parent := Some d |}.
Arguments noteIn d base%_string.

Definition vaultOf (folders : list TFolder) (files : list (TFile * str)) : Vault :=
  {| allFolders := folders; allFiles := files;
     statCtime := fun _ => None; configDir := js ".obsidian" |}.

(** Settings of a user who has built hubs before: live sync on, nothing
    suppressed. *)
Definition liveSettings : HubSettings := withAutoCreateSuppressed false DEFAULT_SETTINGS.

(** A loaded plugin: one settings object, shared by the plugin and the
    vault event handlers. *)
Definition loaded (v : Vault) (s : HubSettings) (now : Z) : World :=
  {| w_vault := v; w_heap := [s]; w_plugin := 0; w_handlers := Some 0;
     w_data := Some s; w_locks := ∅; w_now := now; w_writes := [];
     w_startupTimer := false |}.

(** Obsidian before the plugin loads, with [s] in data.json. *)
Definition unloaded (v : Vault) (s : HubSettings) : World :=
  {| w_vault := v; w_heap := []; w_plugin := 0; w_handlers := None;
     w_data := Some s; w_locks := ∅; w_now := 0; w_writes := [];
     w_startupTimer := false |}.

(** The user adds a folder to the vault. *)
Definition withFolder (d : TFolder) (w : World) : World :=
  setVault {| allFolders := allFolders (w_vault w) ++ [d];
              allFiles := allFiles (w_vault w);
              statCtime := statCtime (w_vault w);
              configDir := configDir (w_vault w) |} w.

Definition dirA : TFolder := Samples.top "A".
Definition dirN : TFolder := Samples.top "N".
Definition dirY : TFolder := Samples.top "Y".
Definition dirZ : TFolder := Samples.top "Z".

(** The content of the hub of a top-level folder under the default
    settings. *)
Definition topHubText : str :=
  js "## DIRECTORY" ++ LF ++ LF ++ js "```display_folder_directory" ++ LF
  ++ js "```" ++ LF.

(** *** Rebuilding twice after the suffix went from [-] to [-1] *)

Definition dashSettings : HubSettings :=
  withHubSuffix (js "-1") (withPreviousHubSuffix (Some (js "-")) liveSettings).

Definition dashWorld : World :=
  loaded (vaultOf [dirA] [(noteIn dirA "A-", topHubText)]) dashSettings 0.

(** *** Notes of folder Z *)

Definition noteN : TFile := noteIn dirZ "n".

Definition noteWorld (text : str) : World :=
  loaded (vaultOf [dirZ] [(noteIn dirZ "Z_", topHubText); (noteN, text)]) liveSettings 100.

Definition linkBlock : str := js "[[Z_]]" ++ LF ++ LF ++ js "---" ++ LF ++ LF.

(** *** A note moved from Y to Z shortly after the engine wrote it *)

Definition movedNote : TFile := noteIn dirZ "a".

Definition movedWorld : World :=
  setLocks {[ js "Y/a.md" := 0%Z ]}
    (loaded
       (vaultOf [dirY; dirZ]
          [(noteIn dirY "Y_", topHubText); (noteIn dirZ "Z_", topHubText);
           (movedNote, js "[[Y_]]" ++ LF ++ LF ++ js "---" ++ LF ++ LF ++ js "hello")])
       liveSettings 100).

(** *** One of two folders named X was deleted *)

Definition survivorWorld : World :=
  setLocks {[ js "a/X" := 0%Z ]}
    (loaded
       (vaultOf [Samples.dirA; Samples.dirB; Samples.bX]
          [(noteIn Samples.bX "X_2",
            js "## DIRECTORY" ++ LF ++ LF ++ js "[[b_]]" ++ LF ++ LF
            ++ js "```display_folder_directory" ++ LF ++ js "```" ++ LF)])
       liveSettings 100).

(** *** A session: load, then remove the hubs *)

Definition sessionStart : World :=
  unloaded (vaultOf [dirZ] [(noteIn dirZ "Z_", topHubText)]) liveSettings.

End Scenarios.

(** ** Frame conditions on the settings store *)

(** [m] leaves every settings object as it is, whether it returns or
    throws. *)
Definition keepsHeap {A} (m : M A) : Prop :=
  forall w, w_heap (worldOf (m w)) = w_heap w.

(** The one write of the engine to a settings object: the previous
    suffix becomes the current one. *)
Definition markMigrated (settings : nat) (h : list HubSettings) (s : HubSettings)
    : list HubSettings :=
  <[settings := withPreviousHubSuffix (Some (hubSuffix s)) s]> h.

(** The store after [m] is the store before, or the store before with
    the migration of [settings] marked as done. *)
Definition atMostMarksMigrated {A} (settings : nat) (m : M A) : Prop :=
  forall w,
    w_heap (worldOf (m w)) = w_heap w \/
    exists s, nth_error (w_heap w) settings = Some s /\
              w_heap (worldOf (m w)) = markMigrated settings (w_heap w) s.

(** ** Settled vaults *)

(** The hub of a folder is settled: [findHubInFolder] finds a file whose
    text is the content [buildHubContent] computes and which, when the
    folder shares its name, carries the expected numbered name. *)
Definition hubSettled (v : Vault) (s : HubSettings) (folder : TFolder) : Prop :=
  exists hub,
    findHubInFolder v folder s = Some hub /\
    readFile v (file_path hub) = Some (hubContentOf v folder s) /\
    (1 < length (getFoldersWithSameName v (folder_name folder) (pathSkipFromSettings s)) ->
     file_basename hub = getExpectedHubNameForFolder v folder s).

Definition vaultSettled (v : Vault) (s : HubSettings) : Prop :=
  forall folder,
    In folder (allFolders v) ->
    shouldSkipPath (folder_path folder) (pathSkipFromSettings s) = false ->
    hubSettled v s folder.

(** The step of the counting loop of [buildRefreshHubNotes]. *)
Definition countFolder (options : PathSkipOptions) (m : list (str * nat)) (folder : TFolder)
    : list (str * nat) :=
  if shouldSkipPath (folder_path folder) options then m
  else if isRootFolder (folder_path folder) then m
  else countName (folder_name folder) m.

(** ** Paths and names: auxiliary notions *)

(** The non-empty runs between slashes, the segments [shouldSkipPath]
    and [getFolderNameFromPath] look at. *)
Definition segmentsOf (path : str) : list str :=
  List.filter nonEmpty (split "/"%char path).

(** The test of the loop of [shouldSkipPath] on one segment. *)
Definition segmentSkipped (options : PathSkipOptions) (segment : str) : bool :=
  includes (skipFolderNames_opt options) segment
  || (skipDotFolders_opt options && startsWith (js ".") segment).

(** A name that can stand inside a wiki link: no [[]]], [#] or [|], which
    end the target of a link, and no line terminator. *)
Definition linkSafe (name : str) : bool :=
  List.forallb (fun c => negb (memc c (js "]#|")) && negb (isLineTerminator c)) name.

Definition noLineTerminator (s : str) : Prop :=
  Forall (fun c => isLineTerminator c = false) s.

(** The two forms of a hub name: the base name, and the numbered name of
    a folder that shares its name. *)
Definition hubNameFor (folderName suffix : str) (numbered : option nat) : str :=
  match numbered with
  | None => getHubNameForFolder folderName suffix
  | Some index => getNumberedHubName folderName index suffix
  end.

(** Whether the position after the units [p] is still the start of the
    input. *)
Definition startFlag (b : bool) (p : str) : bool :=
  match p with [] => b | _ :: _ => false end.

(** The files among the children of a folder, in the order of
    [folder.children]. *)
Definition childFiles (v : Vault) (folder : TFolder) : list TFile :=
  List.filter (fun f => parentIs folder (file_parent f)) (map fst (allFiles v)).

(** A basename of the form folder name, suffix, digits or nothing. *)
Definition hubShaped (folderName suffix basename : str) : Prop :=
  exists ds, allDigits ds /\ basename = folderName ++ orElse suffix (js "_") ++ ds.

(** ** linksInNotes.ts: the lines Ctrl+A leaves out *)

(** [i < lines.length && (lines[i] ?? "").trim() === text] *)
Definition lineTrimmedIs (lines : list str) (i : nat) (text : str) : bool :=
  match nth_error lines i with
  | Some l => eqs (trim l) text
  | None => false
  end.

Definition getSelectAllExcludeLineCount (lines : list str) (_folder : option TFolder)
    (s : HubSettings) : nat :=
  let i := 0 in
  let i := if lineTrimmedIs lines i [] then i + 1 else i in
  match nth_error lines i with
  | None => 0
  | Some hubLine =>
      if negb (isHubLinkLine hubLine None s) then 0
      else
        let i := i + 1 in
        let i := if lineTrimmedIs lines i [] then i + 1 else i in
        if lineTrimmedIs lines i (js "---") then
          let i := i + 1 in
          if lineTrimmedIs lines i [] then i + 1 else i
        else i
  end.

(** The line of a note that carries the link: the link, wrapped in the
    hidden span when links are hidden. *)
Definition linkLineFor (s : HubSettings) (link : str) : str :=
  if autoHideHubLinks s then hiddenSpan link else link.

(** The first line of a text. *)
Definition firstLine (text : str) : str := hd [] (split newline text).

(** A text that is empty or begins with a unit that is not white space. *)
Definition startsWithText (text : str) : Prop :=
  match text with
  | [] => True
  | c :: _ => isSpace c = false
  end.

(** ** commands.ts *)

Module Commands.

(** [OB_HIDE_SPAN_REGEX], [<span class="graphforge-ob-hide">([\s\S]*?)</span>]
    with the flag [g]: the opening tag, the shortest text up to a closing
    tag, the closing tag. *)
Definition obHideOpen : str :=
  js "<span class=" ++ [dquote] ++ CSS_CLASS_OB_HIDE ++ [dquote] ++ js ">".
Definition obHideClose : str := js "</span>".

(** The first occurrence of [pat] in [s]: the text before it and the
    text after it. *)
Fixpoint findFirst (pat s : str) : option (str * str) :=
  if startsWith pat s then Some ([], skipn (length pat) s)
  else
    match s with
    | [] => None
    | c :: s' =>
        match findFirst pat s' with
        | Some (before, after) => Some (c :: before, after)
        | None => None
        end
    end.

(** [text.replace(OB_HIDE_SPAN_REGEX, "$1")]: every match, from left to
    right, is replaced by what it wraps; the search goes on after the
    match.  The fuel is the length of the text. *)
Fixpoint unwrapFrom (fuel : nat) (text : str) : str :=
  match fuel with
  | 0 => text
  | S fuel' =>
      match findFirst obHideOpen text with
      | None => text
      | Some (before, afterOpen) =>
          match findFirst obHideClose afterOpen with
          | None => text
          | Some (inner, rest) => before ++ inner ++ unwrapFrom fuel' rest
          end
      end
  end.

Definition unwrapObHideInText (text : str) : str := unwrapFrom (length text) text.

(** The editor of the active note: the text before the selection, the
    selection, the text after it. *)
Record Editor := {
  beforeSelection : str;
  selection : str;
  afterSelection : str
}.

Definition getValue (e : Editor) : str :=
  beforeSelection e ++ selection e ++ afterSelection e.

(** [editor.replaceSelection(text)]: the cursor ends after the text. *)
Definition replaceSelection (text : str) (e : Editor) : Editor :=
  {| beforeSelection := beforeSelection e ++ text; selection := [];
     afterSelection := afterSelection e |}.

(** [editor.setValue(text)] *)
Definition setValue (text : str) : Editor :=
  {| beforeSelection := text; selection := []; afterSelection := [] |}.

(** "Hide selected text": [None] when nothing is selected and the command
    only shows a notice. *)
Definition hideSelectedText (e : Editor) : option Editor :=
  match selection e with
  | [] => None
  | sel => Some (replaceSelection (hiddenSpan sel) e)
  end.

(** "Unhide in note": [None] when the note holds no hidden span. *)
Definition unhideInNote (e : Editor) : option Editor :=
  let content := getValue e in
  let next := unwrapObHideInText content in
  if eqs next content then None else Some (setValue next).

(** "Insert folder directory display" *)
Definition insertFolderDirectoryDisplay (e : Editor) : Editor :=
  replaceSelection (js "```display_folder_directory" ++ [newline] ++ js "```" ++ [newline]) e.

(** A position of the editor. *)
Record EditorPosition := { line : nat; ch : nat }.

(** What the keydown handler does on Ctrl+A in a note: it leaves the key
    to the editor, or sets the selection itself. *)
Inductive SelectAll :=
| EditorDefault
| SetSelection (from to : EditorPosition).

Definition onSelectAllKey (s : HubSettings) (folder : option TFolder) (text : str)
    : SelectAll :=
  if negb (excludeHubLinksFromSelectAll s) then EditorDefault
  else
    let lines := split newline text in
    let skipLines := getSelectAllExcludeLineCount lines folder s in
    if Nat.leb skipLines 0 then EditorDefault
    else
      let lineCount := length lines in
      if Nat.leb lineCount skipLines then
        SetSelection {| line := 0; ch := 0 |} {| line := 0; ch := 0 |}
      else
        let from := {| line := skipLines; ch := 0 |} in
        let lastLine := lineCount - 1 in
        let to := {| line := lastLine;
                     ch := match nth_error lines lastLine with
                           | Some l => length l
                           | None => 0
                           end |} in
        SetSelection from to.

End Commands.

(** The lines of the block [upsertHubLinkInNote] puts on top of a note,
    before the first line of the text that follows. *)
Definition blockLines (s : HubSettings) (link : str) (separator : bool) : list str :=
  (if removeHiddenBlink s then [[]] else [])
  ++ [linkLineFor s link; []]
  ++ (if separator then [js "---"; []] else []).

(** ** Frame conditions on a component of the state *)

(** [m] leaves the component [proj] of the state as it is, whether it
    returns or throws. *)
Definition keepsField {X A} (proj : World -> X) (m : M A) : Prop :=
  forall w, proj (worldOf (m w)) = proj w.

(** ** Passes that only trash files *)

(** From [w] to [w'] nothing happened to the vault but the trashing of
    the files [trashed], each a file of [w] that satisfies [P]; the
    folders, the texts of the other files and the settings are as they
    were, and the log of writes has grown by one entry per file. *)
Definition trashedOnly (P : TFile -> Prop) (w w' : World) : Prop :=
  exists trashed : list TFile,
    Forall (fun f => In f (map fst (allFiles (w_vault w))) /\ P f) trashed /\
    w_writes w' = w_writes w ++ map (fun f => WTrash (file_path f)) trashed /\
    w_vault w' =
      setFiles (fold_left (fun fs f => withoutFile (file_path f) fs) trashed
                  (allFiles (w_vault w)))
               (w_vault w) /\
    w_heap w' = w_heap w.

(** A file that [deleteAllHubFilesWithSuffix] may trash: a child of a
    folder of the vault that is not excluded, with a basename of the hub
    shape of that folder. *)
Definition removableHub (v : Vault) (s : HubSettings) (suffix : str) (f : TFile) : Prop :=
  exists folder,
    In folder (allFolders v) /\
    shouldSkipPath (folder_path folder) (pathSkipFromSettings s) = false /\
    parentIs folder (file_parent f) = true /\
    hubShaped (folder_name folder) suffix (file_basename f).

(** ** settings.ts: the text field of the excluded folder names *)

Module SettingsTab.

(** What the field shows: [skipFolderNames.join(", ")]. *)
Definition skipFolderNamesText (names : list str) : str := join (js ", ") names.

(** What the field stores:
    [v.split(",").map((s) => s.trim()).filter(Boolean)]. *)
Definition parseSkipFolderNames (v : str) : list str :=
  List.filter nonEmpty (map trim (split ","%char v)).

(** The [onChange] of the field. *)
Definition setSkipFolderNames (v : str) : M unit :=
  let! r := Plugin.pluginSettings in
  updateSettings r (withSkipFolderNames (parseSkipFolderNames v)) ;;
  saveSettings.

(** A name as the field stores it: not empty, without a comma, without
    white space at either end. *)
Definition storedName (name : str) : Prop :=
  name <> [] /\ memc ","%char name = false /\ trim name = name.

End SettingsTab.

(** ** hideStyles.ts *)

Module HideStyles.

(** [getHubNotePaths]: the set of the paths where the hub of each folder
    is expected. *)
Definition getHubNotePaths (v : Vault) (s : HubSettings) : gset str :=
  let options := pathSkipFromSettings s in
  fold_left
    (fun (paths : gset str) folder =>
       if shouldSkipPath (folder_path folder) options then paths
       else if isRootFolder (folder_path folder) then paths
       else
         let name := getExpectedHubNameForFolder v folder s in
         {[ folder_path folder ++ js "/" ++ name ++ js ".md" ]} ∪ paths)
    (allFolders v) ∅.

(** An item of the file explorer: the path it shows and whether it
    carries the class that hides it. *)
Record NavFile := {
  navPath : str;
  hubNoteClass : bool
}.

(** [decorateFileExplorer]: the class is taken off every item when hubs
    are not hidden, and otherwise put on the items whose path is a hub
    path and taken off the others. *)
Definition decorateFileExplorer (v : Vault) (s : HubSettings) (navFiles : list NavFile)
    : list NavFile :=
  if negb (hideHubNotesInExplorer s) then
    map (fun el => {| navPath := navPath el; hubNoteClass := false |}) navFiles
  else
    let paths := getHubNotePaths v s in
    map (fun el =>
           {| navPath := navPath el;
              hubNoteClass := nonEmpty (navPath el) && bool_decide (navPath el ∈ paths) |})
        navFiles.

End HideStyles.

(** The file [vault.create] makes for the hub of a folder. *)
Definition hubFileOf (folder : TFolder) (name : str) : TFile :=
  {| file_path := hubPath folder name; file_basename := name;
     file_extension := js "md"; file_parent := Some folder |}.

(** ** commands.ts: "Unhide in vault" *)

(** The loop of "Unhide in vault" over the notes still to visit, with
    the count of the notes changed so far. *)
Fixpoint unhideFiles (files : list TFile) (count : nat) : M nat :=
  match files with
  | [] => ret count
  | file :: files' =>
      let! content := vaultRead file in
      let next := Commands.unwrapObHideInText content in
      if negb (eqs next content) then
        vaultModify file next ;; unhideFiles files' (S count)
      else unhideFiles files' count
  end.

(** "Unhide in vault": the result is the count its notice shows. *)
Definition unhideInVault : M nat :=
  let! v := getVault in
  unhideFiles (getMarkdownFiles v) 0.

(** ** Passes that rewrite the notes one by one *)

Definition isMarkdown (f : TFile) : bool := eqs (file_extension f) (js "md").

Definition pathOf (e : TFile * str) : str := file_path (fst e).

(** The files of a vault once each markdown file holds the text [g]
    makes of its text. *)
Definition rewrittenFiles (g : TFile -> str -> str) (fs : list (TFile * str))
    : list (TFile * str) :=
  map (fun e => if isMarkdown (fst e) then (fst e, g (fst e) (snd e)) else e) fs.

(** The writes of such a pass: one [modify] for each markdown file whose
    text changes, in the order of the vault. *)
Definition rewriteLog (g : TFile -> str -> str) (fs : list (TFile * str))
    : list VaultWrite :=
  flat_map (fun e =>
              if isMarkdown (fst e) && negb (eqs (g (fst e) (snd e)) (snd e))
              then [WModify (pathOf e) (g (fst e) (snd e))] else []) fs.

(** The world after the pass has visited the file [f], which held [t]:
    nothing when the text stays, else the lock when the pass takes one,
    and [vault.modify]. *)
Definition rewriteFile (lockOn : bool) (g : TFile -> str -> str) (f : TFile) (t : str)
    (w : World) : World :=
  if eqs (g f t) t then w
  else
    let w2 := if lockOn then setLocks (<[file_path f := w_now w]> (w_locks w)) w else w in
    let w3 :=
      setVault (setFiles
        (map (fun e => if eqs (file_path (fst e)) (file_path f) then (fst e, g f t) else e)
             (allFiles (w_vault w2))) (w_vault w2)) w2 in
    setWrites (w_writes w3 ++ [WModify (file_path f) (g f t)]) w3.

(** What such a pass leaves alone: all but the texts of the files, the
    write log and, when it takes locks, the lock table. *)
Definition sameButNotes (lockOn : bool) (w w' : World) : Prop :=
  allFolders (w_vault w') = allFolders (w_vault w) /\
  statCtime (w_vault w') = statCtime (w_vault w) /\
  configDir (w_vault w') = configDir (w_vault w) /\
  w_heap w' = w_heap w /\ w_plugin w' = w_plugin w /\ w_handlers w' = w_handlers w /\
  w_data w' = w_data w /\ w_now w' = w_now w /\ w_startupTimer w' = w_startupTimer w /\
  (lockOn = false -> w_locks w' = w_locks w).

(** Whether a note is the hub of its folder, as [isHubNote] finds it. *)
Definition isHubNoteIn (v : Vault) (s : HubSettings) (note : TFile) : bool :=
  match file_parent note with
  | None => false
  | Some folder =>
      if isRoot folder then false
      else eqs (file_basename note) (getExpectedHubNameForFolder v folder s)
  end.

(** The text [removeAllHubLinksFromNotes] computes for a file. *)
Definition withoutHubLinks (v : Vault) (s : HubSettings) (file : TFile) (content : str)
    : str :=
  let lines := split newline content in
  let afterHub := stripLeadingHubLinkLines lines None s in
  let rest := join LF (skipn afterHub lines) in
  let rest := stripSeparator rest in
  if isHubNoteIn v s file then updateParentLinkUnderDirectory rest None else rest.

(** ** linksInNotes.ts: what the link refresh leaves in a note *)

(** Two vaults with the same folders, creation times and files, whatever
    the texts of the files: what decides the links. *)
Definition sameStructure (v0 : Vault) (v : Vault) : Prop :=
  allFolders v = allFolders v0 /\ statCtime v = statCtime v0 /\
  map fst (allFiles v) = map fst (allFiles v0).

(** The link [getCorrectHubLinkForNote] returns in a vault. *)
Definition correctHubLinkIn (v : Vault) (s : HubSettings) (note : TFile) : option str :=
  match file_parent note with
  | None => None
  | Some folder =>
      if isRoot folder then None
      else if shouldSkipPath (folder_path folder) (pathSkipFromSettings s) then None
      else
        match waitForNumberedHubNow v folder s with
        | None => None
        | Some _ => Some (wikiLink (getExpectedHubNameForFolder v folder s))
        end
  end.

(** The link [getCorrectParentLinkForHubNote] returns in a vault. *)
Definition parentLinkIn (v : Vault) (s : HubSettings) (note : TFile) : option str :=
  match file_parent note with
  | None => None
  | Some folder =>
      if isRoot folder then None
      else
        match folder_parent folder with
        | None => None
        | Some parent =>
            if isRoot parent then None
            else if shouldSkipPath (folder_path parent) (pathSkipFromSettings s) then None
            else Some (wikiLink (getExpectedHubNameForFolder v parent s))
        end
  end.

(** The text [upsertHubLinkInNote] leaves in a note. *)
Definition upsertedText (v : Vault) (s : HubSettings) (note : TFile) (content : str)
    : str :=
  let correctLink := correctHubLinkIn v s note in
  let lines := split newline content in
  let afterHub := stripLeadingHubLinkLines lines None s in
  let rest := join LF (skipn afterHub lines) in
  let rest := if isSome correctLink then rest else stripSeparator rest in
  if isHubNoteIn v s note then
    updateParentLinkUnderDirectory rest (parentLinkIn v s note)
  else
    let addSeparator := insertSeparatorAfterHubLink s in
    let rest := if isSome correctLink && addSeparator then stripSeparator rest else rest in
    newTopFor correctLink addSeparator s ++ rest.

(** The text [buildRefreshHubLinks] leaves in a file: the files of the
    excluded folders are passed over. *)
Definition refreshedText (v : Vault) (s : HubSettings) (file : TFile) (content : str)
    : str :=
  match file_parent file with
  | Some folder =>
      if negb (isRoot folder)
         && shouldSkipPath (folder_path folder) (pathSkipFromSettings s)
      then content
      else upsertedText v s file content
  | None => upsertedText v s file content
  end.

(** *** A note moved to the vault root with the link of folder Z on top *)

Definition rootNote : TFile :=
  {| file_path := js "a.md"; file_basename := js "a"; file_extension := js "md";
     file_parent := Some rootFolder |}.

Definition rootNoteWorld : World :=
  Scenarios.loaded
    (Scenarios.vaultOf [Scenarios.dirZ]
       [(Scenarios.noteIn Scenarios.dirZ "Z_", Scenarios.topHubText);
        (rootNote, Scenarios.linkBlock ++ js "hello")])
    Scenarios.liveSettings 100.

(** * Part II: properties of the model *)

(** ** Facts about strings and patterns *)

Section StringFacts.

Lemma eqc_eq a b : eqc a b = true <-> a = b.
Proof. apply Ascii.eqb_eq. Qed.

Lemma eqc_refl a : eqc a a = true.
Proof. apply Ascii.eqb_refl. Qed.

Lemma eqc_neq a b : eqc a b = false <-> a <> b.
Proof. apply Ascii.eqb_neq. Qed.

Lemma eqs_eq a b : eqs a b = true <-> a = b.
Proof.
  revert b; induction a as [|x a IH]; intros [|y b]; simpl; split; try easy.
  - intros [Hx Hs]%andb_true_iff. apply eqc_eq in Hx. apply IH in Hs. congruence.
  - intros [= -> ->]. rewrite eqc_refl. simpl. now apply IH.
Qed.

Lemma eqs_refl a : eqs a a = true.
Proof. now apply eqs_eq. Qed.

Lemma eqs_neq a b : eqs a b = false <-> a <> b.
Proof.
  split.
  - intros H E. apply eqs_eq in E. congruence.
  - intros H. destruct (eqs a b) eqn:E; [|reflexivity]. apply eqs_eq in E. contradiction.
Qed.

Lemma orElse_nonempty a b : b <> [] -> orElse a b <> [].
Proof. destruct a; simpl; congruence. Qed.

Lemma orElse_idem a b : orElse (orElse a b) b = orElse a b.
Proof. destruct a; simpl; [destruct b|]; reflexivity. Qed.

End StringFacts.

Section PatternFacts.
Import RegExp.

Lemma quantified_none a q : isQuantifier q = false -> quantified a q = None.
Proof.
  unfold isQuantifier, quantified. intros H.
  apply orb_false_elim in H as [H H3]. apply orb_false_elim in H as [H1 H2].
  now rewrite H1, H2, H3.
Qed.

Lemma syntaxChar_cases c :
  isSyntaxChar c = true -> In c syntaxChars.
Proof.
  unfold isSyntaxChar, memc. intros H.
  apply existsb_exists in H as (x & Hin & Hx). apply eqc_eq in Hx. now subst.
Qed.

Lemma not_syntaxChar c x :
  isSyntaxChar c = false -> In x syntaxChars -> eqc c x = false.
Proof.
  unfold isSyntaxChar, memc. intros H Hin.
  destruct (eqc c x) eqn:E; [|reflexivity].
  assert (List.existsb (eqc c) syntaxChars = true) as Ht
    by (apply existsb_exists; eauto).
  congruence.
Qed.

Lemma syntaxChar_quantifier c : isQuantifier c = true -> isSyntaxChar c = true.
Proof.
  unfold isQuantifier. intros H.
  apply orb_true_iff in H as [H|H]; [apply orb_true_iff in H as [H|H]|];
    apply eqc_eq in H; subst c; reflexivity.
Qed.

Lemma not_syntaxChar_not_quantifier c :
  isSyntaxChar c = false -> isQuantifier c = false.
Proof.
  intros H. destruct (isQuantifier c) eqn:E; [|reflexivity].
  apply syntaxChar_quantifier in E. congruence.
Qed.

Lemma parse_literal c rest :
  isSyntaxChar c = false -> headNotQuantifier rest ->
  parse (c :: rest) = option_map (cons (IOne (AChar c))) (parse rest).
Proof.
  intros Hc Hq. cbn [parse].
  rewrite (not_syntaxChar c "^"%char), (not_syntaxChar c "$"%char),
    (not_syntaxChar c "\"%char), (not_syntaxChar c "."%char), Hc;
    try assumption; try (vm_compute; tauto).
  destruct rest as [|q rest']; [reflexivity|].
  now rewrite quantified_none.
Qed.

Lemma parse_escaped c rest :
  isSyntaxChar c = true -> headNotQuantifier rest ->
  parse ("\"%char :: c :: rest) = option_map (cons (IOne (AChar c))) (parse rest).
Proof.
  intros Hc Hq. cbn [parse].
  change (eqc "\"%char "^"%char) with false.
  change (eqc "\"%char "$"%char) with false.
  change (eqc "\"%char "\"%char) with true. cbv iota.
  assert (escapeAtom c = Some (AChar c)) as ->.
  { unfold escapeAtom. rewrite Hc.
    apply syntaxChar_cases in Hc. vm_compute in Hc.
    repeat (destruct Hc as [<-|Hc]; [reflexivity|]). contradiction. }
  destruct rest as [|q rest']; [reflexivity|].
  now rewrite quantified_none.
Qed.

Lemma escapeRegex_head s t :
  headNotQuantifier t -> headNotQuantifier (escapeRegex s ++ t).
Proof.
  intros Ht. destruct s as [|c s]; [exact Ht|].
  unfold escapeRegex. cbn [flat_map].
  destruct (isSyntaxChar c) eqn:E; simpl; [reflexivity|].
  now apply not_syntaxChar_not_quantifier.
Qed.

(** A pattern source built by [escapeRegex] denotes its argument, unit by
    unit. *)
Lemma parse_escapeRegex s t :
  headNotQuantifier t ->
  parse (escapeRegex s ++ t) = option_map (app (lits s)) (parse t).
Proof.
  intros Ht. induction s as [|c s IH].
  - simpl. now destruct (parse t).
  - pose proof (escapeRegex_head s t Ht) as Hh.
    change (escapeRegex (c :: s)) with
      ((if isSyntaxChar c then ["\"%char; c] else [c]) ++ escapeRegex s).
    destruct (isSyntaxChar c) eqn:E; simpl app.
    + rewrite parse_escaped by assumption. rewrite IH. now destruct (parse t).
    + rewrite parse_literal by assumption. rewrite IH. now destruct (parse t).
Qed.

Lemma getNumberedHubPattern_eq folderName suffix :
  getNumberedHubPattern folderName suffix =
  Some (IStart :: lits (folderName ++ orElse suffix (js "_"))
          ++ [IOne ADigit; IStar ADigit; IEnd]).
Proof.
  unfold getNumberedHubPattern, numberedHubPatternSource.
  change (js "^" ++ ?x) with ("^"%char :: x).
  cbn [parse]. change (eqc "^"%char "^"%char) with true. cbv iota.
  rewrite parse_escapeRegex by (apply escapeRegex_head; reflexivity).
  rewrite parse_escapeRegex by reflexivity.
  change (parse (js "\d+$")) with (Some [IOne ADigit; IStar ADigit; IEnd]).
  simpl. unfold lits. now rewrite map_app, <- app_assoc.
Qed.

(** Matching a run of literals consumes exactly that prefix. *)
Lemma matchK_lits {T} l r (k : bool -> str -> option T) b s x :
  matchK (lits l ++ r) k b s = Some x <->
  exists s', s = l ++ s' /\
             matchK r k (match l with [] => b | _ => false end) s' = Some x.
Proof.
  revert b s. induction l as [|c l IH]; intros b s.
  - simpl. split; [eauto|]. now intros (s' & -> & H).
  - cbn [lits map app matchK]. destruct s as [|y s].
    + split; [discriminate|]. intros (s' & [=] & _).
    + cbn [atomMatches]. destruct (eqc c y) eqn:E.
      * apply eqc_eq in E. subst y. fold (lits l). rewrite IH.
        split; intros (s' & Hs & H).
        -- exists s'. subst s. split; [reflexivity|]. now destruct l.
        -- injection Hs as ->. exists s'. split; [reflexivity|]. now destruct l.
      * split; [discriminate|]. intros (s' & [= -> _] & _).
        rewrite eqc_refl in E. discriminate.
Qed.

Lemma matchHere_lits l r b s k :
  matchHere (lits l ++ r) b s = Some k <->
  exists s', s = l ++ s' /\
             matchHere r (match l with [] => b | _ => false end) s' = Some k.
Proof. apply matchK_lits. Qed.

Lemma matchHere_digits_end b s k :
  matchHere [IStar ADigit; IEnd] b s = Some k <-> allDigits s /\ k = [].
Proof.
  unfold matchHere. revert b k. induction s as [|c s IH]; intros b k.
  - simpl. split; [intros [= <-]; split; [constructor|reflexivity]|].
    now intros [_ ->].
  - cbn [matchK atomMatches] in *. destruct (isDigit c) eqn:E.
    + destruct ((fix star (b0 : bool) (s0 : str) {struct s0} : option str := _) false s)
        as [k'|] eqn:Es.
      * destruct (proj1 (IH false k') Es) as [Hd ->].
        split.
        -- intros [= <-]. split; [constructor; assumption|reflexivity].
        -- now intros [_ ->].
      * split; [discriminate|]. intros [Hd ->]. inversion Hd; subst.
        assert (None = Some (@nil ascii)) as Hn; [|discriminate Hn].
        rewrite <- Es. apply IH. split; [assumption|reflexivity].
    + split; [discriminate|]. intros [Hd _]. inversion Hd; subst. congruence.
Qed.

Lemma test_anchored r s :
  test (IStart :: r) s = match matchHere r true s with Some _ => true | None => false end.
Proof.
  assert (forall b t, matchHere (IStart :: r) b t = if b then matchHere r b t else None)
    as Hs by (intros [] t; reflexivity).
  unfold test. destruct s as [|c s]; cbn [execFrom]; rewrite Hs.
  - now destruct (matchHere r true []).
  - destruct (matchHere r true (c :: s)); [reflexivity|].
    assert (forall t, execFrom (IStart :: r) false t = None) as ->; [|reflexivity].
    induction t as [|x t IHt]; cbn [execFrom]; rewrite Hs; [reflexivity|now rewrite IHt].
Qed.

(** The language of the numbered-hub pattern. *)
Lemma numberedPattern_test folderName suffix r s :
  getNumberedHubPattern folderName suffix = Some r ->
  test r s = true <->
  exists ds, ds <> [] /\ allDigits ds /\
             s = folderName ++ orElse suffix (js "_") ++ ds.
Proof.
  rewrite getNumberedHubPattern_eq. intros [= <-].
  rewrite test_anchored.
  set (l := folderName ++ orElse suffix (js "_")).
  split.
  - destruct (matchHere _ true s) as [k|] eqn:E; [intros _|discriminate].
    apply matchHere_lits in E as (s' & -> & E).
    unfold matchHere in E. cbn [matchK] in E. destruct s' as [|c s']; [discriminate|].
    cbn [atomMatches] in E. destruct (isDigit c) eqn:Ec; [|discriminate].
    change (matchHere [IStar ADigit; IEnd] false s' = Some k) in E.
    apply matchHere_digits_end in E as [Hd _].
    exists (c :: s'). split; [discriminate|]. split; [now constructor|].
    unfold l. now rewrite <- app_assoc.
  - intros (ds & Hne & Hd & ->).
    destruct ds as [|c ds]; [contradiction|]. inversion Hd; subst.
    match goal with
    | |- match ?m with _ => _ end = true => assert (m = Some []) as ->; [|reflexivity]
    end.
    apply matchHere_lits. exists (c :: ds). split; [unfold l; now rewrite <- app_assoc|].
    unfold matchHere. cbn [matchK atomMatches]. rewrite H1.
    change (matchHere [IStar ADigit; IEnd] false ds = Some []).
    apply matchHere_digits_end. split; [assumption|reflexivity].
Qed.

End PatternFacts.

(** ** Facts about the stable sort *)

Section SortFacts.
Context {A : Type} (key : A -> Z).

Lemma insertSorted_perm x l : Permutation (insertSorted (byKey key) x l) (x :: l).
Proof.
  induction l as [|y l IH]; simpl; [reflexivity|].
  destruct ((byKey key) x y <=? 0)%Z; [reflexivity|].
  rewrite IH. apply perm_swap.
Qed.

Lemma sortWith_perm l : Permutation (sortWith (byKey key) l) l.
Proof.
  induction l as [|x l IH]; simpl; [reflexivity|].
  rewrite insertSorted_perm. now constructor.
Qed.

Lemma insertSorted_sorted x l :
  StronglySorted (keyLe key) l -> StronglySorted (keyLe key) (insertSorted (byKey key) x l).
Proof.
  induction 1 as [|y l Hs IH Hy]; simpl.
  - repeat constructor.
  - unfold byKey at 1. destruct (Z.leb_spec (key x - key y) 0).
    + constructor; [now constructor|].
      constructor; [unfold keyLe; lia|].
      eapply List.Forall_impl; [|exact Hy]. unfold keyLe. intros; lia.
    + constructor; [assumption|].
      eapply Permutation_Forall; [symmetry; apply insertSorted_perm|].
      constructor; [unfold keyLe; lia|assumption].
Qed.

Lemma sortWith_sorted l : StronglySorted (keyLe key) (sortWith (byKey key) l).
Proof.
  induction l; simpl; [constructor|now apply insertSorted_sorted].
Qed.

(** Stability: elements with one key keep their relative order. *)
Lemma insertSorted_stable t x l :
  List.filter (fun a => (key a =? t)%Z) (insertSorted (byKey key) x l) =
  List.filter (fun a => (key a =? t)%Z) (x :: l).
Proof.
  induction l as [|y l IH]; [reflexivity|].
  cbn [insertSorted]. unfold byKey at 1.
  destruct (Z.leb_spec (key x - key y) 0); [reflexivity|].
  cbn [List.filter] in *. rewrite IH.
  destruct (Z.eqb_spec (key x) t), (Z.eqb_spec (key y) t); try reflexivity; lia.
Qed.

Lemma sortWith_stable t l :
  List.filter (fun a => (key a =? t)%Z) (sortWith (byKey key) l) =
  List.filter (fun a => (key a =? t)%Z) l.
Proof.
  induction l as [|x l IH]; [reflexivity|].
  cbn [sortWith]. rewrite insertSorted_stable. cbn [List.filter].
  now rewrite IH.
Qed.

(** A list sorted on pairwise distinct keys is the only sorted
    arrangement of its elements. *)
Lemma sorted_unique l1 l2 :
  StronglySorted (keyLe key) l1 -> StronglySorted (keyLt key) l2 ->
  Permutation l1 l2 -> l1 = l2.
Proof.
  intros H1; revert l2. induction H1 as [|x l1 Hs IH Hx]; intros l2 H2 Hp.
  - apply Permutation_nil in Hp. now subst.
  - destruct l2 as [|y l2]; [symmetry in Hp; now apply Permutation_nil in Hp|].
    apply StronglySorted_inv in H2 as [H2 Hy].
    assert (x = y) as <-.
    { assert (In x (y :: l2)) as [->|Hin] by (eapply Permutation_in; [exact Hp|now left]);
        [reflexivity|].
      assert (In y (x :: l1)) as [->|Hin'] by (eapply Permutation_in; [symmetry; exact Hp|now left]);
        [reflexivity|].
      rewrite List.Forall_forall in Hx, Hy.
      specialize (Hx _ Hin'). specialize (Hy _ Hin). unfold keyLe, keyLt in *. lia. }
    f_equal. apply IH; [assumption|]. eapply Permutation_cons_inv; exact Hp.
Qed.

Lemma sortWith_unique l l' :
  StronglySorted (keyLt key) l' -> Permutation l l' -> sortWith (byKey key) l = l'.
Proof.
  intros Hs Hp. apply sorted_unique; [apply sortWith_sorted|assumption|].
  now rewrite sortWith_perm.
Qed.

(** Sorting the pairs [(x, key x)] on their second component is sorting
    on the key. *)
Lemma sortWith_paired_aux l :
  sortWith (fun a b : A * Z => (snd a - snd b)%Z) (map (fun y => (y, key y)) l) =
  map (fun y => (y, key y)) (sortWith (byKey key) l).
Proof.
  induction l as [|x l IH]; [reflexivity|].
  cbn [map sortWith]. rewrite IH. clear IH.
  induction (sortWith (byKey key) l) as [|y m IHm]; [reflexivity|].
  cbn [map insertSorted snd]. unfold byKey in *.
  destruct (key x - key y <=? 0)%Z; [reflexivity|].
  cbn [map]. now rewrite IHm.
Qed.

Lemma sortWith_paired l :
  map fst (sortWith (fun a b : A * Z => (snd a - snd b)%Z) (map (fun y => (y, key y)) l)) =
  sortWith (byKey key) l.
Proof.
  rewrite sortWith_paired_aux, map_map. apply map_id.
Qed.
End SortFacts.

(** ** hubForFolder.ts: name groups and expected names *)

Section HubForFolderFacts.

Lemma getFoldersWithSameName_sorted_group v folderName options :
  getFoldersWithSameName v folderName options =
  sortWith (byKey (ctimeOf v)) (nameGroup v folderName options).
Proof.
  unfold getFoldersWithSameName, nameGroup. apply sortWith_paired.
Qed.

Lemma findIndex_Some {A} (p : A -> bool) l i :
  findIndex p l = Some i ->
  exists x, nth_error l i = Some x /\ p x = true /\
            forall j y, j < i -> nth_error l j = Some y -> p y = false.
Proof.
  revert i. induction l as [|a l IH]; intros i; simpl; [discriminate|].
  destruct (p a) eqn:E.
  - intros [= <-]. exists a. repeat split; [assumption|]. intros j y Hj. lia.
  - destruct (findIndex p l) as [k|]; [|discriminate]. simpl. intros [= <-].
    destruct (IH k eq_refl) as (x & Hx & Hp & Hbefore).
    exists x. repeat split; [assumption..|].
    intros [|j] y Hj; simpl; [now intros [= <-]|].
    intros Hy. apply (Hbefore j); [lia|assumption].
Qed.

Lemma findIndex_In {A} (p : A -> bool) l x :
  In x l -> p x = true -> exists i, findIndex p l = Some i /\ i < length l.
Proof.
  induction l as [|a l IH]; simpl; [contradiction|].
  intros Hin Hp. destruct (p a) eqn:E; [exists 0; split; [reflexivity|lia]|].
  destruct Hin as [->|Hin]; [congruence|].
  destruct (IH Hin Hp) as (i & -> & Hi). exists (S i). split; [reflexivity|lia].
Qed.

Lemma in_getFoldersWithSameName v folderName options f :
  In f (getFoldersWithSameName v folderName options) <->
  In f (allFolders v) /\ inNameGroup options folderName f = true.
Proof.
  rewrite getFoldersWithSameName_sorted_group.
  rewrite <- (filter_In (inNameGroup options folderName)).
  split; apply Permutation_in; [|symmetry]; apply sortWith_perm.
Qed.

Lemma getHubNameForFolder_orElse folderName suffix :
  getHubNameForFolder folderName (orElse suffix (js "_")) =
  getHubNameForFolder folderName suffix.
Proof. unfold getHubNameForFolder. now rewrite orElse_idem. Qed.

Lemma getNumberedHubName_orElse folderName index suffix :
  getNumberedHubName folderName index (orElse suffix (js "_")) =
  getNumberedHubName folderName index suffix.
Proof. unfold getNumberedHubName. now rewrite orElse_idem. Qed.

(** The general rule of [getExpectedHubNameForFolder]. *)
Lemma expected_name_rule v folder settings :
  In folder (allFolders v) ->
  shouldSkipPath (folder_path folder) (pathSkipFromSettings settings) = false ->
  let group :=
    getFoldersWithSameName v (folder_name folder) (pathSkipFromSettings settings) in
  (length group <= 1 ->
   getExpectedHubNameForFolder v folder settings =
   getHubNameForFolder (folder_name folder) (hubSuffix settings)) /\
  (1 < length group ->
   exists position f,
     findIndex (samePath folder) group = Some position /\
     nth_error group position = Some f /\
     folder_path f = folder_path folder /\
     getExpectedHubNameForFolder v folder settings =
     getNumberedHubName (folder_name folder) (position + 1) (hubSuffix settings)).
Proof.
  intros Hin Hskip group. unfold getExpectedHubNameForFolder. fold group.
  rewrite getHubNameForFolder_orElse.
  split; intros Hlen.
  - apply Nat.leb_le in Hlen. now rewrite Hlen.
  - assert (Nat.leb (length group) 1 = false) as -> by (apply Nat.leb_gt; lia).
    assert (In folder group) as Hg.
    { apply in_getFoldersWithSameName. split; [assumption|].
      unfold inNameGroup. now rewrite eqs_refl, Hskip. }
    destruct (findIndex_In (samePath folder) group folder Hg) as (i & Hi & _);
      [apply eqs_refl|].
    change (fun f => eqs (folder_path f) (folder_path folder)) with (samePath folder).
    rewrite Hi. destruct (findIndex_Some _ _ _ Hi) as (f & Hf & Hp & _).
    exists i, f. repeat split; try assumption.
    + now apply eqs_eq in Hp.
    + apply getNumberedHubName_orElse.
Qed.

(** A name group whose members have increasing creation times is
    returned in that order, whatever the enumeration order. *)
Lemma getFoldersWithSameName_increasing v folderName options l :
  Permutation (nameGroup v folderName options) l ->
  StronglySorted (keyLt (ctimeOf v)) l ->
  getFoldersWithSameName v folderName options = l.
Proof.
  intros Hp Hs. rewrite getFoldersWithSameName_sorted_group.
  now apply sortWith_unique.
Qed.

Lemma nameGroup_name v folderName options l f :
  Permutation (nameGroup v folderName options) l -> In f l ->
  folder_name f = folderName.
Proof.
  intros Hp Hin. eapply Permutation_in in Hin; [|symmetry; exact Hp].
  apply filter_In in Hin as [_ H]. unfold inNameGroup in H.
  apply andb_true_iff in H as [H _]. now apply eqs_eq.
Qed.

End HubForFolderFacts.

(** C1. The expected hub name of a non-excluded folder of the vault is
    the base name when its name group has at most one member, and
    otherwise the numbered name at position + 1, the position being the
    index found by path in the group sorted by creation time.  For a
    configured (non-empty) suffix the base name is the folder name
    followed by the suffix, and the numbered name adds the decimal
    ordinal.  Three folders named X created at increasing times get
    X_1, X_2 and X_3 in every enumeration order, and once the middle
    one is gone the third gets X_2. *)
Theorem expected_hub_name_by_creation_order :
  (forall v folder settings,
     In folder (allFolders v) ->
     shouldSkipPath (folder_path folder) (pathSkipFromSettings settings) = false ->
     let group :=
       getFoldersWithSameName v (folder_name folder) (pathSkipFromSettings settings) in
     let expected := getExpectedHubNameForFolder v folder settings in
     StronglySorted (keyLe (ctimeOf v)) group /\
     Permutation group
       (nameGroup v (folder_name folder) (pathSkipFromSettings settings)) /\
     (length group <= 1 ->
      expected = getHubNameForFolder (folder_name folder) (hubSuffix settings) /\
      (hubSuffix settings <> [] ->
       expected = folder_name folder ++ hubSuffix settings)) /\
     (1 < length group ->
      exists position f,
        findIndex (samePath folder) group = Some position /\
        nth_error group position = Some f /\
        folder_path f = folder_path folder /\
        expected =
        getNumberedHubName (folder_name folder) (position + 1) (hubSuffix settings) /\
        (hubSuffix settings <> [] ->
         expected =
         folder_name folder ++ hubSuffix settings ++ stringOfNat (position + 1))))
  /\
  (forall v settings f1 f2 f3,
     hubSuffix settings = js "_" ->
     Permutation (nameGroup v (js "X") (pathSkipFromSettings settings)) [f1; f2; f3] ->
     (ctimeOf v f1 < ctimeOf v f2 < ctimeOf v f3)%Z ->
     folder_path f1 <> folder_path f2 ->
     folder_path f1 <> folder_path f3 ->
     folder_path f2 <> folder_path f3 ->
     getExpectedHubNameForFolder v f1 settings = js "X_1" /\
     getExpectedHubNameForFolder v f2 settings = js "X_2" /\
     getExpectedHubNameForFolder v f3 settings = js "X_3")
  /\
  (forall v settings f1 f3,
     hubSuffix settings = js "_" ->
     Permutation (nameGroup v (js "X") (pathSkipFromSettings settings)) [f1; f3] ->
     (ctimeOf v f1 < ctimeOf v f3)%Z ->
     folder_path f1 <> folder_path f3 ->
     getExpectedHubNameForFolder v f3 settings = js "X_2").
Proof.
  split; [|split].
  - intros v folder settings Hin Hskip group expected.
    assert (forall x : str, x <> [] -> orElse x (js "_") = x) as Hor
      by (intros [|c x] Hx; [contradiction|reflexivity]).
    destruct (expected_name_rule v folder settings Hin Hskip) as [Hbase Hnum].
    split; [|split; [|split]].
    + unfold group. rewrite getFoldersWithSameName_sorted_group. apply sortWith_sorted.
    + unfold group. rewrite getFoldersWithSameName_sorted_group. apply sortWith_perm.
    + intros Hlen. specialize (Hbase Hlen). split; [exact Hbase|].
      intros Hne. unfold expected. rewrite Hbase. unfold getHubNameForFolder.
      now rewrite Hor.
    + intros Hlen. destruct (Hnum Hlen) as (position & f & Hi & Hf & Hp & He).
      exists position, f. split; [exact Hi|]. split; [exact Hf|].
      split; [exact Hp|]. split; [exact He|].
      intros Hne. unfold expected. rewrite He. unfold getNumberedHubName.
      now rewrite Hor.
  - intros v settings f1 f2 f3 Hsuf Hp Ht H12 H13 H23.
    assert (getFoldersWithSameName v (js "X") (pathSkipFromSettings settings) = [f1; f2; f3]) as Hg.
    { apply getFoldersWithSameName_increasing; [assumption|].
      repeat constructor; unfold keyLt; lia. }
    assert (folder_name f1 = js "X" /\ folder_name f2 = js "X" /\ folder_name f3 = js "X")
      as (N1 & N2 & N3).
    { repeat split; eapply nameGroup_name; try exact Hp; simpl; tauto. }
    apply eqs_neq in H12, H13, H23.
    unfold getExpectedHubNameForFolder. rewrite N1, N2, N3, Hg, Hsuf.
    cbn [length Nat.leb findIndex]. rewrite !eqs_refl, H12, H13, H23.
    repeat split; reflexivity.
  - intros v settings f1 f3 Hsuf Hp Ht H13.
    assert (getFoldersWithSameName v (js "X") (pathSkipFromSettings settings) = [f1; f3]) as Hg.
    { apply getFoldersWithSameName_increasing; [assumption|].
      repeat constructor; unfold keyLt; lia. }
    assert (folder_name f3 = js "X") as N3
      by (eapply nameGroup_name; try exact Hp; simpl; tauto).
    apply eqs_neq in H13.
    unfold getExpectedHubNameForFolder. rewrite N3, Hg, Hsuf.
    cbn [length Nat.leb findIndex]. rewrite eqs_refl, H13. reflexivity.
Qed.

(** Witness for C1: the sample vault with three folders named X. *)
Lemma expected_hub_name_witness :
  (getExpectedHubNameForFolder Samples.threeX Samples.aX DEFAULT_SETTINGS = js "X_1" /\
   getExpectedHubNameForFolder Samples.threeX Samples.bX DEFAULT_SETTINGS = js "X_2" /\
   getExpectedHubNameForFolder Samples.threeX Samples.cX DEFAULT_SETTINGS = js "X_3") /\
  getExpectedHubNameForFolder Samples.threeX_without_middle Samples.cX DEFAULT_SETTINGS
    = js "X_2" /\
  getExpectedHubNameForFolder Samples.threeX Samples.dirA DEFAULT_SETTINGS
    = js "a" ++ js "_".
Proof.
  destruct expected_hub_name_by_creation_order as (Hrule & Hthree & Htwo).
  split; [|split].
  - apply (Hthree Samples.threeX DEFAULT_SETTINGS Samples.aX Samples.bX Samples.cX).
    + reflexivity.
    + change (nameGroup Samples.threeX (js "X") (pathSkipFromSettings DEFAULT_SETTINGS))
        with [Samples.cX; Samples.aX; Samples.bX].
      apply (Permutation_cons_app [Samples.aX; Samples.bX] []). reflexivity.
    + vm_compute. split; reflexivity.
    + vm_compute. discriminate.
    + vm_compute. discriminate.
    + vm_compute. discriminate.
  - apply (Htwo Samples.threeX_without_middle DEFAULT_SETTINGS Samples.aX Samples.cX).
    + reflexivity.
    + change (nameGroup Samples.threeX_without_middle (js "X")
                (pathSkipFromSettings DEFAULT_SETTINGS))
        with [Samples.cX; Samples.aX].
      apply perm_swap.
    + vm_compute. reflexivity.
    + vm_compute. discriminate.
  - destruct (Hrule Samples.threeX Samples.dirA DEFAULT_SETTINGS) as (_ & _ & Hbase & _).
    + simpl. tauto.
    + reflexivity.
    + apply Hbase; [vm_compute; lia|discriminate].
Defined.

(** ** The order of a name group *)

Section GroupOrderFacts.

Lemma filter_permutation {A} (p : A -> bool) l l' :
  Permutation l l' -> Permutation (List.filter p l) (List.filter p l').
Proof.
  induction 1 as [|x l l' _ IH|x y l|l l' l'' _ IH1 _ IH2]; simpl.
  - constructor.
  - destruct (p x); [now constructor|assumption].
  - destruct (p x), (p y); try reflexivity. apply perm_swap.
  - now transitivity (List.filter p l').
Qed.

Lemma sorted_distinct_keys {A} (key : A -> Z) l :
  StronglySorted (keyLe key) l -> List.NoDup (map key l) -> StronglySorted (keyLt key) l.
Proof.
  induction 1 as [|x l Hs IH Hx]; intros Hnd; [constructor|].
  simpl in Hnd. apply List.NoDup_cons_iff in Hnd as [Hnotin Hnd].
  constructor; [now apply IH|].
  rewrite List.Forall_forall in *. intros y Hy. specialize (Hx y Hy).
  unfold keyLe, keyLt in *.
  assert (key x <> key y); [|lia].
  intros E. apply Hnotin. rewrite E. now apply in_map.
Qed.

Lemma insertSorted_ext {A} (k k' : A -> Z) x l :
  (forall a, k a = k' a) -> insertSorted (byKey k) x l = insertSorted (byKey k') x l.
Proof.
  intros E. induction l as [|y l IH]; [reflexivity|].
  simpl. unfold byKey at 1 3. rewrite !E. now rewrite IH.
Qed.

Lemma sortWith_ext {A} (k k' : A -> Z) l :
  (forall a, k a = k' a) -> sortWith (byKey k) l = sortWith (byKey k') l.
Proof.
  intros E. induction l as [|x l IH]; [reflexivity|].
  simpl. rewrite IH. now apply insertSorted_ext.
Qed.

Lemma inNameGroup_spec options folderName f :
  inNameGroup options folderName f = true <->
  folder_name f = folderName /\ shouldSkipPath (folder_path f) options = false.
Proof.
  unfold inNameGroup. rewrite andb_true_iff, negb_true_iff, eqs_eq. tauto.
Qed.

End GroupOrderFacts.

(** C6 as the code has it.  [getFoldersWithSameName] returns exactly the
    non-excluded folders with the given name, sorted ascending by
    creation time (zero when unavailable).  The sort is stable and there
    is no tie-break by path: folders with equal creation times keep the
    order in which the vault enumerates them.  When the creation times
    within the group are pairwise distinct, the result is the same for
    every enumeration order of the same folders. *)
Theorem same_name_group_sorted_stable v folderName options :
  let group := getFoldersWithSameName v folderName options in
  (forall f, In f group <->
             In f (allFolders v) /\ folder_name f = folderName /\
             shouldSkipPath (folder_path f) options = false) /\
  Permutation group (nameGroup v folderName options) /\
  StronglySorted (keyLe (ctimeOf v)) group /\
  (forall t, List.filter (fun f => (ctimeOf v f =? t)%Z) group =
             List.filter (fun f => (ctimeOf v f =? t)%Z) (nameGroup v folderName options)) /\
  (forall v',
     Permutation (allFolders v) (allFolders v') ->
     (forall p, statCtime v' p = statCtime v p) ->
     List.NoDup (map (ctimeOf v) (nameGroup v folderName options)) ->
     getFoldersWithSameName v' folderName options = group).
Proof.
  intros group. unfold group. rewrite getFoldersWithSameName_sorted_group.
  split; [|split; [|split; [|split]]].
  - intros f. split.
    + intros Hin. eapply Permutation_in in Hin; [|apply sortWith_perm].
      apply filter_In in Hin as [Hin H]. apply inNameGroup_spec in H. tauto.
    + intros (Hin & Hn & Hs). eapply Permutation_in; [symmetry; apply sortWith_perm|].
      apply filter_In. split; [assumption|]. now apply inNameGroup_spec.
  - apply sortWith_perm.
  - apply sortWith_sorted.
  - intros t. apply sortWith_stable.
  - intros v' Hp Hstat Hnd.
    rewrite getFoldersWithSameName_sorted_group.
    assert (forall f, ctimeOf v' f = ctimeOf v f) as Hk
      by (intros f; unfold ctimeOf; now rewrite Hstat).
    rewrite (sortWith_ext _ _ _ Hk).
    apply sortWith_unique.
    + apply sorted_distinct_keys; [apply sortWith_sorted|].
      eapply Permutation_NoDup; [|exact Hnd].
      apply Permutation_map. symmetry. apply sortWith_perm.
    + rewrite sortWith_perm. unfold nameGroup. apply filter_permutation.
      now symmetry.
Qed.

(** Witness for C6: two enumeration orders of the three sample folders. *)
Lemma same_name_group_witness :
  getFoldersWithSameName
    {| allFolders := [Samples.aX; Samples.bX; Samples.cX];
       allFiles := [];
       statCtime := statCtime Samples.threeX;
       configDir := js ".obsidian" |}
    (js "X") (pathSkipFromSettings DEFAULT_SETTINGS)
  = getFoldersWithSameName
      {| allFolders := [Samples.cX; Samples.aX; Samples.bX];
         allFiles := [];
         statCtime := statCtime Samples.threeX;
       configDir := js ".obsidian" |}
      (js "X") (pathSkipFromSettings DEFAULT_SETTINGS).
Proof.
  match goal with
  | |- _ = getFoldersWithSameName ?v ?n ?o =>
      destruct (same_name_group_sorted_stable v n o) as (_ & _ & _ & _ & Hindep)
  end.
  apply Hindep.
  - simpl. apply (Permutation_cons_app [Samples.aX; Samples.bX] []). reflexivity.
  - reflexivity.
  - vm_compute. repeat constructor; simpl; intuition discriminate.
Defined.

(** Counterexample to C6 as stated: two folders named X without a
    creation time come back in the order of enumeration, so the result
    differs between two enumerations of the same folders, and in the
    second the tie is not resolved by path. *)
Lemma same_name_tie_follows_enumeration :
  Permutation (allFolders Samples.tieAB) (allFolders Samples.tieBA) /\
  (forall p, statCtime Samples.tieAB p = statCtime Samples.tieBA p) /\
  getFoldersWithSameName Samples.tieAB (js "X") (pathSkipFromSettings DEFAULT_SETTINGS)
    = [Samples.aX; Samples.bX] /\
  getFoldersWithSameName Samples.tieBA (js "X") (pathSkipFromSettings DEFAULT_SETTINGS)
    = [Samples.bX; Samples.aX] /\
  folder_path Samples.aX = js "a/X" /\ folder_path Samples.bX = js "b/X".
Proof.
  split; [apply perm_swap|]. split; [reflexivity|].
  repeat split; reflexivity.
Qed.

(** ** waitForNumberedHub *)

Section WaitFacts.

Lemma not_stable_here v folder settings :
  match findHubInFolder v folder settings with
  | Some hub => eqs (file_basename hub) (getExpectedHubNameForFolder v folder settings) = false
  | None => True
  end ->
  forall h, ~ hubStable v folder settings h.
Proof.
  intros H h [Hf Hb]. rewrite Hf in H. rewrite Hb, eqs_refl in H. discriminate.
Qed.

Lemma pollNumberedHub_spec obs folder settings remaining i :
  let result := pollNumberedHub obs folder settings i remaining in
  snd result <= i + remaining /\
  match fst result with
  | Some hub =>
      exists k, i <= k < i + remaining /\ snd result = S k /\
                hubStable (obs k) folder settings hub /\
                forall j h, i <= j < k -> ~ hubStable (obs j) folder settings h
  | None =>
      snd result = i + remaining /\
      forall j h, i <= j < i + remaining -> ~ hubStable (obs j) folder settings h
  end.
Proof.
  revert i. induction remaining as [|n IH]; intros i; cbn [pollNumberedHub].
  - simpl. split; [lia|]. split; [lia|]. intros j h Hj. lia.
  - assert (forall r,
              (forall h, ~ hubStable (obs i) folder settings h) ->
              r = pollNumberedHub obs folder settings (S i) n ->
              snd r <= i + S n /\
              match fst r with
              | Some hub =>
                  exists k, i <= k < i + S n /\ snd r = S k /\
                            hubStable (obs k) folder settings hub /\
                            forall j h, i <= j < k -> ~ hubStable (obs j) folder settings h
              | None =>
                  snd r = i + S n /\
                  forall j h, i <= j < i + S n -> ~ hubStable (obs j) folder settings h
              end) as Hnext.
    { intros r Hnot ->. destruct (IH (S i)) as [Hle Hres]. split; [lia|].
      destruct (fst (pollNumberedHub obs folder settings (S i) n)) as [hub|].
      - destruct Hres as (k & Hk & Hs & Hst & Hbefore).
        exists k. split; [lia|]. split; [lia|]. split; [assumption|].
        intros j h Hj. destruct (Nat.eq_dec j i) as [->|Hne]; [apply Hnot|].
        apply Hbefore. lia.
      - destruct Hres as [Hs Hbefore]. split; [lia|].
        intros j h Hj. destruct (Nat.eq_dec j i) as [->|Hne]; [apply Hnot|].
        apply Hbefore. lia. }
    destruct (findHubInFolder (obs i) folder settings) as [hub|] eqn:Ef.
    + destruct (eqs (file_basename hub) _) eqn:Eb.
      * simpl. split; [lia|]. exists i. split; [lia|]. split; [reflexivity|].
        split; [split; [assumption|now apply eqs_eq]|].
        intros j h Hj. lia.
      * apply Hnext; [|reflexivity]. apply not_stable_here. now rewrite Ef.
    + apply Hnext; [|reflexivity]. apply not_stable_here. now rewrite Ef.
Qed.

End WaitFacts.


(** ** pathRules.ts: hub names and the numbered pattern *)

Section NameFacts.

Lemma app_nonempty_neq (l x : str) : x <> [] -> l ++ x <> l.
Proof.
  intros Hx E. apply Hx. apply (app_inv_head l). now rewrite app_nil_r.
Qed.

Lemma underscore_nonempty : js "_" <> [].
Proof. discriminate. Qed.

Lemma getHubNameForFolder_not_bare folderName suffix :
  getHubNameForFolder folderName suffix <> folderName.
Proof.
  apply app_nonempty_neq, orElse_nonempty, underscore_nonempty.
Qed.

Lemma getNumberedHubName_not_bare folderName index suffix :
  getNumberedHubName folderName index suffix <> folderName.
Proof.
  unfold getNumberedHubName. apply app_nonempty_neq.
  intros E. apply app_eq_nil in E as [E _].
  now apply (orElse_nonempty suffix (js "_") underscore_nonempty).
Qed.

End NameFacts.

(** C9 as the code has it.  The pattern of [getNumberedHubPattern]
    always compiles, and it matches a string exactly when the string is
    the folder name, then the effective suffix (the suffix itself, or
    ["_"] when the suffix is empty), then one or more digits, every unit
    of the name and the suffix standing for itself.  It never matches
    the base hub name of the same folder name and suffix. *)
Theorem numbered_pattern_language folderName suffix :
  exists r,
    getNumberedHubPattern folderName suffix = Some r /\
    (forall s,
       RegExp.test r s = true <->
       exists ds, ds <> [] /\ allDigits ds /\
                  s = folderName ++ orElse suffix (js "_") ++ ds) /\
    RegExp.test r (getHubNameForFolder folderName suffix) = false.
Proof.
  eexists. split; [apply getNumberedHubPattern_eq|].
  pose proof (getNumberedHubPattern_eq folderName suffix) as Hr.
  split.
  - intros s. now apply numberedPattern_test.
  - match goal with |- ?t = false => destruct t eqn:E; [|reflexivity] end.
    apply (numberedPattern_test _ _ _ _ Hr) in E as (ds & Hne & _ & E).
    unfold getHubNameForFolder in E. apply app_inv_head in E.
    rewrite <- (app_nil_r (orElse suffix (js "_"))) in E at 1.
    apply app_inv_head in E. now subst.
Qed.

(** Counterexample to C9 as stated: with the empty suffix the pattern
    for folder A rejects ["A1"], which is the name, the suffix and a
    digit, and accepts ["A_1"]. *)
Lemma numbered_pattern_empty_suffix :
  js "A1" = js "A" ++ [] ++ js "1" /\ allDigits (js "1") /\
  option_map (fun r => RegExp.test r (js "A1")) (getNumberedHubPattern (js "A") [])
    = Some false /\
  option_map (fun r => RegExp.test r (js "A_1")) (getNumberedHubPattern (js "A") [])
    = Some true.
Proof.
  repeat split; try reflexivity. repeat constructor.
Qed.

(** C10.  The empty suffix reads as ["_"]: the three naming functions
    give the same result for both, and no hub name the engine computes
    equals the bare folder name. *)
Theorem empty_suffix_is_underscore folderName index :
  getHubNameForFolder folderName [] = getHubNameForFolder folderName (js "_") /\
  getNumberedHubName folderName index [] = getNumberedHubName folderName index (js "_") /\
  getNumberedHubPattern folderName [] = getNumberedHubPattern folderName (js "_") /\
  (forall suffix,
     getHubNameForFolder folderName suffix <> folderName /\
     getNumberedHubName folderName index suffix <> folderName) /\
  (forall v folder settings,
     getExpectedHubNameForFolder v folder settings <> folder_name folder).
Proof.
  split; [reflexivity|]. split; [reflexivity|]. split; [reflexivity|].
  split.
  - intros suffix. split;
      [apply getHubNameForFolder_not_bare|apply getNumberedHubName_not_bare].
  - intros v folder settings. unfold getExpectedHubNameForFolder.
    destruct (Nat.leb _ 1); [apply getHubNameForFolder_not_bare|].
    destruct (findIndex _ _);
      [apply getNumberedHubName_not_bare|apply getHubNameForFolder_not_bare].
Qed.

(** ** Evaluations of the engine *)

(** C2 at its failing input.  The suffix was changed from [-] to [-1]
    and the hubs are rebuilt twice in a row: the first pass trashes the
    old hub [A-] and creates [A-1]; the second pass, with nothing
    changed in between, trashes [A-1] (it matches the numbered pattern
    of the previous suffix) and creates it again. *)
Theorem second_rebuild_trashes_and_recreates_hub :
  let first := buildRefreshHubNotes 0 Scenarios.dashWorld in
  let second := buildRefreshHubNotes 0 (setWrites [] (worldOf first)) in
  Scenarios.isDone first = true /\
  w_writes (worldOf first)
    = [WTrash (js "A/A-.md"); WCreate (js "A/A-1.md") Scenarios.topHubText] /\
  Scenarios.isDone second = true /\
  w_writes (worldOf second)
    = [WTrash (js "A/A-1.md"); WCreate (js "A/A-1.md") Scenarios.topHubText] /\
  map (fun e => file_path (fst e)) (allFiles (w_vault (worldOf first)))
    = [js "A/A-1.md"].
Proof. vm_compute. repeat split; reflexivity. Qed.

(** C3 at its failing input.  A note of folder Z that carries the link
    block the engine writes, followed by an indented line: the upsert
    rewrites the note and the line loses its indentation.  A note that
    starts with a front-matter fence loses the fence to the separator.
    An upsert is not idempotent on a note that starts with an indented
    line. *)
Theorem upsert_changes_text_after_link_block :
  let after text := w_writes (worldOf (upsertHubLinkInNote Scenarios.noteN 0
                                         (Scenarios.noteWorld text))) in
  after (Scenarios.linkBlock ++ js "  indented")
    = [WModify (js "Z/n.md") (Scenarios.linkBlock ++ js "indented")] /\
  after (js "---" ++ LF ++ js "title: x" ++ LF ++ js "---" ++ LF ++ js "body")
    = [WModify (js "Z/n.md")
         (Scenarios.linkBlock ++ js "title: x" ++ LF ++ js "---" ++ LF ++ js "body")] /\
  after (js "  x") = [WModify (js "Z/n.md") (Scenarios.linkBlock ++ js "  x")] /\
  after (Scenarios.linkBlock ++ js "  x")
    = [WModify (js "Z/n.md") (Scenarios.linkBlock ++ js "x")] /\
  after (Scenarios.linkBlock ++ js "body") = [].
Proof. vm_compute. repeat split; reflexivity. Qed.

(** C5 at its failing inputs.  After "Restore to default" the plugin
    holds a new settings object while the vault event handlers keep the
    one they captured at load: the Remove command sets the flag on the
    new object, and a folder created afterwards still gets its hub.
    And a Remove command given before the startup timer fires does not
    stop the startup pass, which creates the removed hub again. *)
Theorem hubs_created_after_remove :
  let removed :=
    Plugin.run [Plugin.Onload; Plugin.RestoreToDefault; Plugin.RemoveAllHubNotes]
      Scenarios.sessionStart in
  let later :=
    Plugin.run [Plugin.TimePasses 5000; Plugin.VaultCreate (AFolder Scenarios.dirN)]
      (Scenarios.withFolder Scenarios.dirN removed) in
  let early :=
    Plugin.run [Plugin.Onload; Plugin.RemoveAllHubNotes; Plugin.TimePasses 2000;
                Plugin.StartupTimerFires]
      Scenarios.sessionStart in
  (w_writes removed = [WTrash (js "Z/Z_.md")] /\
   option_map autoCreateSuppressedUntilBuildRefresh
     (nth_error (w_heap removed) (w_plugin removed)) = Some true /\
   w_handlers removed = Some 0 /\ w_plugin removed = 1 /\
   w_writes later
     = [WTrash (js "Z/Z_.md"); WCreate (js "N/N_.md") Scenarios.topHubText] /\
   option_map autoCreateSuppressedUntilBuildRefresh
     (nth_error (w_heap later) (w_plugin later)) = Some true) /\
  (w_writes early
     = [WTrash (js "Z/Z_.md"); WCreate (js "Z/Z_.md") Scenarios.topHubText] /\
   option_map autoCreateSuppressedUntilBuildRefresh
     (nth_error (w_heap early) (w_plugin early)) = Some true).
Proof. vm_compute. repeat split; reflexivity. Qed.

(** ** writeLock.ts and the event callbacks *)

Section WriteLockFacts.

Lemma isWriteLocked_fresh path w t :
  w_locks w !! path = Some t -> (w_now w - t < WRITE_LOCK_MS)%Z ->
  isWriteLocked path w = Done true w.
Proof.
  intros Hl Ht. unfold isWriteLocked. rewrite Hl.
  destruct (Z.geb_spec (w_now w - t) WRITE_LOCK_MS); [lia|reflexivity].
Qed.

Lemma isWriteLocked_expired path w t :
  w_locks w !! path = Some t -> (w_now w - t >= WRITE_LOCK_MS)%Z ->
  isWriteLocked path w = Done false (setLocks (delete path (w_locks w)) w).
Proof.
  intros Hl Ht. unfold isWriteLocked. rewrite Hl.
  destruct (Z.geb_spec (w_now w - t) WRITE_LOCK_MS); [reflexivity|lia].
Qed.

Lemma isWriteLocked_absent path w :
  w_locks w !! path = None -> isWriteLocked path w = Done false w.
Proof. intros Hl. unfold isWriteLocked. now rewrite Hl. Qed.

(** What [setWriteLock] records. *)
Lemma setWriteLock_records path w :
  exists w', setWriteLock path w = Done tt w' /\
             w_locks w' !! path = Some (w_now w) /\ w_now w' = w_now w.
Proof.
  eexists. split; [reflexivity|]. simpl. split; [apply lookup_insert_eq|reflexivity].
Qed.

End WriteLockFacts.

(** C4 as the code has it.  For a path with a write-lock entry:
    while the entry is younger than the TTL, the create callback and the
    folder branch of the rename callback (new path or old path) return
    at once and leave the state as it is; once the TTL has elapsed the
    entry is dropped and the notification goes to the incremental
    handler.  The file branch of the rename callback and the delete
    callback call their handler without consulting the write lock (the
    file handler checks the new path only, after its own guards). *)
Theorem write_lock_guards_create_and_folder_rename settings w path t :
  w_locks w !! path = Some t ->
  ((w_now w - t < WRITE_LOCK_MS)%Z ->
   (forall file, abstract_path file = path ->
                 onVaultCreate settings file w = Done tt w) /\
   (forall d oldPath, folder_path d = path ->
                      onVaultRename settings (AFolder d) oldPath w = Done tt w) /\
   (forall d, w_locks w !! folder_path d = None ->
              onVaultRename settings (AFolder d) path w = Done tt w)) /\
  ((w_now w - t >= WRITE_LOCK_MS)%Z ->
   let w' := setLocks (delete path (w_locks w)) w in
   (forall d, folder_path d = path ->
              onVaultCreate settings (AFolder d) w
              = catchAll (onFolderCreate d settings) w') /\
   (forall f, file_path f = path ->
              onVaultCreate settings (AFile f) w
              = catchAll (onFileCreate f settings) w') /\
   (forall d oldPath, folder_path d = path -> w_locks w !! oldPath = None ->
                      oldPath <> path ->
                      onVaultRename settings (AFolder d) oldPath w
                      = catchAll (onFolderRename d oldPath settings) w')) /\
  (forall f oldPath,
     onVaultRename settings (AFile f) oldPath w = catchAll (onFileRename f settings) w) /\
  (forall d,
     onVaultDelete settings (AFolder d) w
     = catchAll (onFolderDelete (folder_name d) settings) w) /\
  (forall f, onVaultDelete settings (AFile f) w = Done tt w).
Proof.
  intros Hl. split; [|split; [|split; [|split]]].
  - intros Ht. split; [|split].
    + intros file <-. unfold onVaultCreate, bind.
      now rewrite (isWriteLocked_fresh _ _ _ Hl Ht).
    + intros d oldPath <-. unfold onVaultRename, bind.
      now rewrite (isWriteLocked_fresh _ _ _ Hl Ht).
    + intros d Hnew. unfold onVaultRename, bind.
      rewrite (isWriteLocked_absent _ _ Hnew).
      now rewrite (isWriteLocked_fresh _ _ _ Hl Ht).
  - intros Ht w'. split; [|split].
    + intros d <-. unfold onVaultCreate, bind. simpl abstract_path.
      now rewrite (isWriteLocked_expired _ _ _ Hl Ht).
    + intros f <-. unfold onVaultCreate, bind. simpl abstract_path.
      now rewrite (isWriteLocked_expired _ _ _ Hl Ht).
    + intros d oldPath <- Hold Hne. unfold onVaultRename, bind.
      rewrite (isWriteLocked_expired _ _ _ Hl Ht).
      rewrite isWriteLocked_absent; [reflexivity|].
      simpl. now rewrite lookup_delete_ne.
  - reflexivity.
  - reflexivity.
  - reflexivity.
Qed.

(** Witness for C4: a hub the engine wrote at time 0, and the create
    notification for it 100 ms and 1200 ms later. *)
Lemma write_lock_witness :
  let w := setLocks {[ js "Z/Z_.md" := 0%Z ]} (Scenarios.noteWorld (js "text")) in
  let hub := AFile (Scenarios.noteIn Scenarios.dirZ "Z_") in
  onVaultCreate 0 hub w = Done tt w /\
  onVaultCreate 0 hub (setNow 1200 w)
  = catchAll (onFileCreate (Scenarios.noteIn Scenarios.dirZ "Z_") 0)
      (setLocks (delete (js "Z/Z_.md") (w_locks w)) (setNow 1200 w)).
Proof.
  intros w hub. split.
  - destruct (write_lock_guards_create_and_folder_rename 0 w (js "Z/Z_.md") 0)
      as [Hfresh _]; [reflexivity|].
    destruct Hfresh as (Hcreate & _); [vm_compute; reflexivity|].
    apply Hcreate. reflexivity.
  - destruct (write_lock_guards_create_and_folder_rename 0 (setNow 1200 w) (js "Z/Z_.md") 0)
      as (_ & Hexpired & _); [reflexivity|].
    destruct Hexpired as (_ & Hfile & _); [vm_compute; discriminate|].
    apply Hfile. reflexivity.
Defined.

(** Counterexample to C4 as stated.  A note the engine wrote at
    [Y/a.md] is moved to [Z/a.md] 100 ms later: the old path is still
    write-locked, yet the rename notification rewrites the note.  And
    the delete notification of a folder whose path carries a fresh
    write-lock entry renames the hub of the remaining folder of that
    name. *)
Lemma locked_rename_and_delete_are_processed :
  (w_locks Scenarios.movedWorld !! js "Y/a.md" = Some 0%Z /\
   (w_now Scenarios.movedWorld - 0 < WRITE_LOCK_MS)%Z /\
   w_writes (worldOf (onVaultRename 0 (AFile Scenarios.movedNote) (js "Y/a.md")
                        Scenarios.movedWorld))
   = [WModify (js "Z/a.md") (Scenarios.linkBlock ++ js "hello")]) /\
  (w_locks Scenarios.survivorWorld !! js "a/X" = Some 0%Z /\
   (w_now Scenarios.survivorWorld - 0 < WRITE_LOCK_MS)%Z /\
   w_writes (worldOf (onVaultDelete 0 (AFolder Samples.aX) Scenarios.survivorWorld))
   = [WRename (js "b/X/X_2.md") (js "b/X/X_.md")]).
Proof.
  split; (split; [reflexivity|]); (split; [reflexivity|]); vm_compute; reflexivity.
Qed.

(** ** The settings store under the engine *)

Section HeapFrame.

Lemma keepsHeap_ret {A} (a : A) : keepsHeap (ret a).
Proof. now intros w. Qed.

Lemma keepsHeap_throw {A} : keepsHeap (@throw A).
Proof. now intros w. Qed.

Lemma keepsHeap_bind {A B} (m : M A) (f : A -> M B) :
  keepsHeap m -> (forall a, keepsHeap (f a)) -> keepsHeap (bind m f).
Proof.
  intros Hm Hf w. unfold bind. specialize (Hm w).
  destruct (m w) as [a w'|w']; simpl in *; [|exact Hm].
  now rewrite Hf.
Qed.

Lemma keepsHeap_catchAll m : keepsHeap m -> keepsHeap (catchAll m).
Proof.
  intros Hm w. unfold catchAll. specialize (Hm w). now destruct (m w).
Qed.

Lemma keepsHeap_forEach {A} (xs : list A) body :
  (forall x, keepsHeap (body x)) -> keepsHeap (forEach xs body).
Proof.
  intros Hb. induction xs as [|x xs IH]; simpl.
  - apply keepsHeap_ret.
  - apply keepsHeap_bind; [apply Hb|intros _; exact IH].
Qed.

Lemma keepsHeap_modifyWorld f :
  (forall w, w_heap (f w) = w_heap w) -> keepsHeap (modifyWorld f).
Proof. intros Hf w. apply Hf. Qed.

Lemma keepsHeap_getWorld : keepsHeap getWorld.
Proof. now intros w. Qed.

Lemma keepsHeap_getVault : keepsHeap getVault.
Proof. now intros w. Qed.

Lemma keepsHeap_readSettings settings : keepsHeap (readSettings settings).
Proof. intros w. unfold readSettings. now destruct (nth_error _ _). Qed.

Lemma keepsHeap_setWriteLock path : keepsHeap (setWriteLock path).
Proof. now intros w. Qed.

Lemma keepsHeap_isWriteLocked path : keepsHeap (isWriteLocked path).
Proof.
  intros w. unfold isWriteLocked. destruct (_ !! _); [|reflexivity].
  now destruct (_ >=? _)%Z.
Qed.

Lemma keepsHeap_logWrite x : keepsHeap (logWrite x).
Proof. now intros w. Qed.

Lemma keepsHeap_vaultRead file : keepsHeap (vaultRead file).
Proof. intros w. unfold vaultRead. now destruct (readFile _ _). Qed.

End HeapFrame.

Create HintDb keeps.

#[local] Hint Resolve keepsHeap_ret keepsHeap_throw keepsHeap_getWorld keepsHeap_getVault
  keepsHeap_readSettings keepsHeap_setWriteLock keepsHeap_isWriteLocked
  keepsHeap_logWrite keepsHeap_vaultRead : keeps.

(** One step of a frame proof: split a bind, a loop or a case
    distinction, or close the goal from the lemmas proved so far. *)
Ltac keeps_step :=
  lazymatch goal with
  | |- keepsHeap (bind _ _) => apply keepsHeap_bind; [|intros ?]
  | |- keepsHeap (forEach _ _) => apply keepsHeap_forEach; intros ?
  | |- keepsHeap (catchAll _) => apply keepsHeap_catchAll
  | |- keepsHeap (modifyWorld _) => apply keepsHeap_modifyWorld; intros ?; reflexivity
  | |- keepsHeap (if ?b then _ else _) => destruct b
  | |- keepsHeap (match ?x with _ => _ end) => destruct x
  | |- keepsHeap _ => solve [eauto with keeps]
  end.

Ltac keeps := repeat keeps_step.

Section EngineFrame.

Lemma keepsHeap_vaultModify file data : keepsHeap (vaultModify file data).
Proof. unfold vaultModify. keeps. Qed.

Lemma keepsHeap_vaultCreate path data : keepsHeap (vaultCreate path data).
Proof. unfold vaultCreate. keeps. Qed.

Lemma keepsHeap_vaultRename file newPath : keepsHeap (vaultRename file newPath).
Proof. unfold vaultRename. keeps. Qed.

Lemma keepsHeap_trashFile file : keepsHeap (trashFile file).
Proof. unfold trashFile. keeps. Qed.

Lemma keepsHeap_saveSettings : keepsHeap saveSettings.
Proof. unfold saveSettings. keeps. Qed.

Hint Resolve keepsHeap_vaultModify keepsHeap_vaultCreate keepsHeap_vaultRename
  keepsHeap_trashFile keepsHeap_saveSettings : keeps.

Lemma keepsHeap_buildHubContent folder settings :
  keepsHeap (buildHubContent folder settings).
Proof. unfold buildHubContent. keeps. Qed.
Hint Resolve keepsHeap_buildHubContent : keeps.

Lemma keepsHeap_ensureHubContentUpToDate hub folder settings :
  keepsHeap (ensureHubContentUpToDate hub folder settings).
Proof. unfold ensureHubContentUpToDate. keeps. Qed.
Hint Resolve keepsHeap_ensureHubContentUpToDate : keeps.

Lemma keepsHeap_ensureHubForFolder folder settings :
  keepsHeap (ensureHubForFolder folder settings).
Proof. unfold ensureHubForFolder. keeps. Qed.
Hint Resolve keepsHeap_ensureHubForFolder : keeps.

Lemma keepsHeap_renameHubAndRefresh hub folder expectedName settings :
  keepsHeap (renameHubAndRefresh hub folder expectedName settings).
Proof. unfold renameHubAndRefresh. keeps. Qed.
Hint Resolve keepsHeap_renameHubAndRefresh : keeps.

Lemma keepsHeap_assignNumberedHubsForName folderName settings :
  keepsHeap (assignNumberedHubsForName folderName settings).
Proof. unfold assignNumberedHubsForName. keeps. Qed.
Hint Resolve keepsHeap_assignNumberedHubsForName : keeps.

Lemma keepsHeap_handleDuplicateFolderNames folderName settings :
  keepsHeap (handleDuplicateFolderNames folderName settings).
Proof. apply keepsHeap_assignNumberedHubsForName. Qed.
Hint Resolve keepsHeap_handleDuplicateFolderNames : keeps.

Lemma keepsHeap_trashHubChildren folder baseName pattern fuel index :
  keepsHeap (trashHubChildren folder baseName pattern fuel index).
Proof.
  revert index. induction fuel as [|fuel IH]; intros index; simpl; keeps.
Qed.
Hint Resolve keepsHeap_trashHubChildren : keeps.

Lemma keepsHeap_deleteAllHubFilesWithSuffix settings suffix :
  keepsHeap (deleteAllHubFilesWithSuffix settings suffix).
Proof. unfold deleteAllHubFilesWithSuffix. keeps. Qed.
Hint Resolve keepsHeap_deleteAllHubFilesWithSuffix : keeps.

Lemma keepsHeap_removeAllHubNotes settings : keepsHeap (removeAllHubNotes settings).
Proof. unfold removeAllHubNotes. keeps. Qed.

Lemma keepsHeap_buildRefreshHubNotes settings :
  keepsHeap (buildRefreshHubNotes settings).
Proof. unfold buildRefreshHubNotes, migrateHubSuffix. keeps. Qed.
Hint Resolve keepsHeap_buildRefreshHubNotes : keeps.

Lemma keepsHeap_getCorrectHubLinkForNote note settings :
  keepsHeap (getCorrectHubLinkForNote note settings).
Proof. unfold getCorrectHubLinkForNote. keeps. Qed.

Lemma keepsHeap_isHubNote note settings : keepsHeap (isHubNote note settings).
Proof. unfold isHubNote. keeps. Qed.

Lemma keepsHeap_getCorrectParentLinkForHubNote note settings :
  keepsHeap (getCorrectParentLinkForHubNote note settings).
Proof. unfold getCorrectParentLinkForHubNote. keeps. Qed.

Hint Resolve keepsHeap_getCorrectHubLinkForNote keepsHeap_isHubNote
  keepsHeap_getCorrectParentLinkForHubNote : keeps.

Lemma keepsHeap_upsertHubLinkInNote note settings :
  keepsHeap (upsertHubLinkInNote note settings).
Proof. unfold upsertHubLinkInNote. keeps. Qed.
Hint Resolve keepsHeap_upsertHubLinkInNote : keeps.

Lemma keepsHeap_removeAllHubLinksFromNotes settings :
  keepsHeap (removeAllHubLinksFromNotes settings).
Proof. unfold removeAllHubLinksFromNotes. keeps. Qed.

Lemma keepsHeap_refreshLinksInNotesForFolderName folderName settings :
  keepsHeap (refreshLinksInNotesForFolderName folderName settings).
Proof. unfold refreshLinksInNotesForFolderName. keeps. Qed.
Hint Resolve keepsHeap_refreshLinksInNotesForFolderName : keeps.

(** The link pass before its last statement. *)
Lemma buildRefreshHubLinks_heap settings w :
  match buildRefreshHubLinks settings w with
  | Done _ w' =>
      exists s, nth_error (w_heap w) settings = Some s /\
                w_heap w' = markMigrated settings (w_heap w) s
  | Thrown w' => w_heap w' = w_heap w
  end.
Proof.
  unfold buildRefreshHubLinks.
  match goal with
  | |- match bind ?m ?f w with _ => _ end =>
      assert (keepsHeap m) as Hm by keeps; set (first := m) in *
  end.
  unfold bind at 1. specialize (Hm w). destruct (first w) as [s w1|w1]; simpl in Hm;
    [|exact Hm].
  match goal with
  | |- match bind ?m ?f w1 with _ => _ end =>
      assert (keepsHeap m) as Hm1 by keeps; set (second := m) in *
  end.
  unfold bind at 1. specialize (Hm1 w1). destruct (second w1) as [v w2|w2]; simpl in Hm1;
    [|congruence].
  match goal with
  | |- match bind ?m ?f w2 with _ => _ end =>
      assert (keepsHeap m) as Hm2 by keeps; set (third := m) in *
  end.
  unfold bind at 1. specialize (Hm2 w2). destruct (third w2) as [u w3|w3]; simpl in Hm2;
    [|congruence].
  unfold updateSettings.
  destruct (nth_error (w_heap w3) settings) as [s3|] eqn:E; simpl; [|congruence].
  exists s3. rewrite <- Hm, <- Hm1, <- Hm2. split; [assumption|reflexivity].
Qed.

Lemma atMostMarksMigrated_keeps {A} settings (m : M A) :
  keepsHeap m -> atMostMarksMigrated settings m.
Proof. intros Hm w. left. apply Hm. Qed.

Lemma atMostMarksMigrated_bind_keeps {A B} settings (m : M A) (f : A -> M B) :
  atMostMarksMigrated settings m -> (forall a, keepsHeap (f a)) ->
  atMostMarksMigrated settings (bind m f).
Proof.
  intros Hm Hf w. unfold bind. specialize (Hm w).
  destruct (m w) as [a w'|w']; simpl in *; [|exact Hm].
  rewrite (Hf a w'). exact Hm.
Qed.

Lemma atMostMarksMigrated_keeps_bind {A B} settings (m : M A) (f : A -> M B) :
  keepsHeap m -> (forall a, atMostMarksMigrated settings (f a)) ->
  atMostMarksMigrated settings (bind m f).
Proof.
  intros Hm Hf w. unfold bind. specialize (Hm w).
  destruct (m w) as [a w'|w']; simpl in *; [|now left].
  specialize (Hf a w'). rewrite Hm in Hf. exact Hf.
Qed.

Lemma atMostMarksMigrated_buildRefreshHubLinks settings :
  atMostMarksMigrated settings (buildRefreshHubLinks settings).
Proof.
  intros w. pose proof (buildRefreshHubLinks_heap settings w) as H.
  destruct (buildRefreshHubLinks settings w); simpl; [now right|now left].
Qed.

Lemma atMostMarksMigrated_runSuffixMigrationIfNeeded settings :
  atMostMarksMigrated settings (runSuffixMigrationIfNeeded settings).
Proof.
  unfold runSuffixMigrationIfNeeded.
  apply atMostMarksMigrated_keeps_bind; [keeps|intros s].
  destruct (eqs _ _); [apply atMostMarksMigrated_keeps; keeps|].
  apply atMostMarksMigrated_keeps_bind; [keeps|intros _].
  apply atMostMarksMigrated_bind_keeps;
    [apply atMostMarksMigrated_buildRefreshHubLinks|intros _; keeps].
Qed.

Lemma atMostMarksMigrated_handlerStops settings :
  atMostMarksMigrated settings (handlerStops settings).
Proof.
  unfold handlerStops.
  apply atMostMarksMigrated_keeps_bind; [keeps|intros s].
  destruct (negb _); [apply atMostMarksMigrated_keeps; keeps|].
  destruct (autoCreateSuppressedUntilBuildRefresh s);
    [apply atMostMarksMigrated_keeps; keeps|].
  apply atMostMarksMigrated_runSuffixMigrationIfNeeded.
Qed.

Lemma atMostMarksMigrated_onFolderCreate folder settings :
  atMostMarksMigrated settings (onFolderCreate folder settings).
Proof.
  unfold onFolderCreate.
  apply atMostMarksMigrated_bind_keeps; [apply atMostMarksMigrated_handlerStops|].
  intros stop. keeps.
Qed.

Lemma atMostMarksMigrated_onFolderRename folder oldPath settings :
  atMostMarksMigrated settings (onFolderRename folder oldPath settings).
Proof.
  unfold onFolderRename.
  apply atMostMarksMigrated_bind_keeps; [apply atMostMarksMigrated_handlerStops|].
  intros stop. keeps.
Qed.

Lemma atMostMarksMigrated_onFolderDelete folderName settings :
  atMostMarksMigrated settings (onFolderDelete folderName settings).
Proof.
  unfold onFolderDelete.
  apply atMostMarksMigrated_bind_keeps; [apply atMostMarksMigrated_handlerStops|].
  intros stop. keeps.
Qed.

Lemma atMostMarksMigrated_onFileCreate file settings :
  atMostMarksMigrated settings (onFileCreate file settings).
Proof.
  unfold onFileCreate.
  apply atMostMarksMigrated_bind_keeps; [apply atMostMarksMigrated_handlerStops|].
  intros stop. keeps.
Qed.

Lemma atMostMarksMigrated_onFileRename file settings :
  atMostMarksMigrated settings (onFileRename file settings).
Proof.
  unfold onFileRename.
  apply atMostMarksMigrated_bind_keeps; [apply atMostMarksMigrated_handlerStops|].
  intros stop. keeps.
Qed.

End EngineFrame.



(** ** Further properties of the engine *)

(** The self-write suppressor of writeLock.ts: [isWriteLocked] answers
    true exactly when the path has a record younger than
    [WRITE_LOCK_MS]; a true answer changes nothing, a false one leaves
    the table without a record for the path (an expired record is
    dropped) and changes nothing else; [setWriteLock] records the
    current time. *)
Theorem write_lock_ttl path w :
  (exists answer w',
     isWriteLocked path w = Done answer w' /\
     answer = match w_locks w !! path with
              | Some t => (w_now w - t <? WRITE_LOCK_MS)%Z
              | None => false
              end /\
     w' = (if answer then w else setLocks (delete path (w_locks w)) w)) /\
  (exists w', setWriteLock path w = Done tt w' /\
              w' = setLocks (<[path := w_now w]> (w_locks w)) w).
Proof.
  split; [|eexists; split; reflexivity].
  unfold isWriteLocked. destruct (w_locks w !! path) as [t|] eqn:E.
  - destruct (Z.geb_spec (w_now w - t) WRITE_LOCK_MS) as [H|H];
      eexists _, _; (split; [reflexivity|]);
      destruct (Z.ltb_spec (w_now w - t) WRITE_LOCK_MS); try lia; split; reflexivity.
  - exists false, w. split; [reflexivity|]. split; [reflexivity|].
    rewrite delete_id by assumption. now destruct w.
Qed.

Section NumberedNameFacts.

Lemma digitsOfUint_digits d : allDigits (digitsOfUint d).
Proof.
  induction d; simpl; constructor; try assumption; reflexivity.
Qed.

Lemma stringOfNat_digits n : allDigits (stringOfNat n) /\ stringOfNat n <> [].
Proof.
  split; [apply digitsOfUint_digits|].
  unfold stringOfNat. intros E.
  assert (Nat.to_uint n = Decimal.Nil) as Hn
    by (destruct (Nat.to_uint n); simpl in E; try discriminate; reflexivity).
  apply (f_equal Nat.of_uint) in Hn. rewrite DecimalNat.Unsigned.of_to in Hn.
  simpl in Hn. subst n. discriminate E.
Qed.

End NumberedNameFacts.

(** Every numbered hub name is matched by the numbered pattern of the
    same folder name and suffix, and is none of the base names: the
    search [findHubInFolder] makes finds a hub under either form. *)
Theorem numbered_name_matches_pattern folderName index suffix :
  patternTest (getNumberedHubPattern folderName suffix)
    (getNumberedHubName folderName index suffix) = true /\
  getNumberedHubName folderName index suffix <> getHubNameForFolder folderName suffix /\
  isHubBasename folderName suffix (getNumberedHubName folderName index suffix) = true /\
  isHubBasename folderName suffix (getHubNameForFolder folderName suffix) = true.
Proof.
  destruct (stringOfNat_digits index) as [Hd Hne].
  assert (patternTest (getNumberedHubPattern folderName suffix)
            (getNumberedHubName folderName index suffix) = true) as Hm.
  { rewrite getNumberedHubPattern_eq. cbn [patternTest].
    apply (numberedPattern_test folderName suffix _ _ (getNumberedHubPattern_eq _ _)).
    exists (stringOfNat index). auto. }
  split; [exact Hm|]. split; [|split].
  - unfold getNumberedHubName, getHubNameForFolder. intros E.
    apply app_inv_head in E.
    rewrite <- (app_nil_r (orElse suffix (js "_"))) in E at 2.
    apply app_inv_head in E. contradiction.
  - unfold isHubBasename. rewrite Hm. apply orb_true_r.
  - unfold isHubBasename. now rewrite eqs_refl.
Qed.

(** The two guards of the incremental handlers: with live sync off, or
    with the suppression flag set, on the settings object a handler
    holds, the handler returns at once and leaves the state as it is. *)
Theorem handlers_stop_when_paused settings w s :
  nth_error (w_heap w) settings = Some s ->
  realTimeUpdating s = false \/ autoCreateSuppressedUntilBuildRefresh s = true ->
  (forall folder, onFolderCreate folder settings w = Done tt w) /\
  (forall folder oldPath, onFolderRename folder oldPath settings w = Done tt w) /\
  (forall folderName, onFolderDelete folderName settings w = Done tt w) /\
  (forall file, onFileCreate file settings w = Done tt w) /\
  (forall file, onFileRename file settings w = Done tt w).
Proof.
  intros Hs Hpaused.
  assert (handlerStops settings w = Done true w) as Hstop.
  { unfold handlerStops, bind, readSettings. rewrite Hs.
    destruct Hpaused as [-> | ->]; [reflexivity|].
    now destruct (realTimeUpdating s). }
  repeat split; intros;
    unfold onFolderCreate, onFolderRename, onFolderDelete, onFileCreate, onFileRename;
    unfold bind at 1; now rewrite Hstop.
Qed.

(** The handlers of a freshly loaded plugin whose flag is set. *)
Lemma handlers_stop_witness :
  let w := Scenarios.loaded (Scenarios.vaultOf [Scenarios.dirZ] []) DEFAULT_SETTINGS 0 in
  onFolderCreate Scenarios.dirZ 0 w = Done tt w /\
  onFolderDelete (js "Z") 0 w = Done tt w.
Proof.
  intros w.
  destruct (handlers_stop_when_paused 0 w DEFAULT_SETTINGS) as (Hc & _ & Hd & _);
    [reflexivity|right; reflexivity|].
  split; [apply Hc|apply Hd].
Defined.

(** ** linksInNotes.ts: what an upsert leaves in a note *)

Section UpsertFacts.
Import RegExp.

Lemma split_nonempty sep s : split sep s <> [].
Proof.
  destruct s as [|c s]; simpl; [discriminate|].
  destruct (eqc c sep); [discriminate|]. now destruct (split sep s).
Qed.

Lemma join_split s : join LF (split newline s) = s.
Proof.
  induction s as [|c s IH]; [reflexivity|].
  cbn [split]. pose proof (split_nonempty newline s) as Hne.
  destruct (eqc c newline) eqn:E.
  - apply eqc_eq in E. subst c.
    destruct (split newline s) as [|l ls]; [contradiction|].
    change (join LF ([] :: l :: ls)) with ([] ++ LF ++ join LF (l :: ls)).
    rewrite IH. reflexivity.
  - destruct (split newline s) as [|l ls]; [contradiction|].
    rewrite <- IH. destruct ls; reflexivity.
Qed.

Lemma join_cons sep l ls : ls <> [] -> join sep (l :: ls) = l ++ sep ++ join sep ls.
Proof. destruct ls; [contradiction|reflexivity]. Qed.

Lemma join_app sep l1 l2 :
  l1 <> [] -> l2 <> [] -> join sep (l1 ++ l2) = join sep l1 ++ sep ++ join sep l2.
Proof.
  intros H1 H2. induction l1 as [|l l1 IH]; [contradiction|].
  destruct l1 as [|l' l1].
  - simpl app. now rewrite join_cons.
  - change ((l :: l' :: l1) ++ l2) with (l :: ((l' :: l1) ++ l2)).
    rewrite join_cons by discriminate. rewrite IH by discriminate.
    rewrite (join_cons sep l (l' :: l1)) by discriminate.
    now rewrite <- !app_assoc.
Qed.

(** The text of a note is the lines before an index, then the lines
    from it on. *)
Lemma join_firstn_skipn sep (lines : list str) k :
  exists before, join sep lines = before ++ join sep (skipn k lines).
Proof.
  destruct (firstn k lines) as [|a l1] eqn:E1.
  - exists []. rewrite <- (firstn_skipn k lines) at 1. now rewrite E1.
  - destruct (skipn k lines) as [|b l2] eqn:E2.
    + exists (join sep lines). now rewrite app_nil_r.
    + exists (join sep (a :: l1) ++ sep).
      rewrite <- (firstn_skipn k lines) at 1. rewrite E1, E2.
      rewrite join_app by discriminate. now rewrite <- app_assoc.
Qed.

(** A match consumes a prefix of the input. *)
Lemma matchHere_suffix r b s x :
  matchHere r b s = Some x -> exists p, s = p ++ x.
Proof.
  unfold matchHere. revert b s.
  induction r as [|i r IH]; intros b s; cbn [matchK].
  - intros [= <-]. now exists [].
  - destruct i as [| |a|a|a].
    + destruct b; [apply IH|discriminate].
    + destruct s; [apply IH|discriminate].
    + destruct s as [|c s]; [discriminate|].
      destruct (atomMatches a c); [|discriminate].
      intros H. destruct (IH _ _ H) as [p ->]. now exists (c :: p).
    + revert b. induction s as [|c s IHs]; intros b; [apply IH|].
      destruct (atomMatches a c); [|apply IH].
      destruct ((fix star (b0 : bool) (s0 : str) {struct s0} : option str := _) false s)
        as [y|] eqn:Es.
      * intros [= <-]. destruct (IHs false Es) as [p ->]. now exists (c :: p).
      * apply IH.
    + destruct s as [|c s]; [apply IH|].
      destruct (atomMatches a c); [|apply IH].
      destruct (matchK r (fun _ rest => Some rest) false s) as [y|] eqn:Es.
      * intros [= <-]. destruct (IH _ _ Es) as [p ->]. now exists (c :: p).
      * apply IH.
Qed.

Lemma execFrom_anchored r s pre x :
  execFrom (IStart :: r) true s = Some (pre, x) -> pre = [] /\ exists p, s = p ++ x.
Proof.
  assert (forall t, execFrom (IStart :: r) false t = None) as Hno.
  { induction t as [|c t IHt]; cbn [execFrom]; unfold matchHere; cbn [matchK];
      [reflexivity|now rewrite IHt]. }
  destruct s as [|c s]; cbn [execFrom].
  - destruct (matchHere (IStart :: r) true []) as [y|] eqn:E; [|discriminate].
    intros [= <- <-]. split; [reflexivity|]. eapply matchHere_suffix; exact E.
  - destruct (matchHere (IStart :: r) true (c :: s)) as [y|] eqn:E.
    + intros [= <- <-]. split; [reflexivity|]. eapply matchHere_suffix; exact E.
    + now rewrite Hno.
Qed.

(** Stripping the separator removes a prefix. *)
Lemma stripSeparator_suffix rest : exists p, rest = p ++ stripSeparator rest.
Proof.
  unfold stripSeparator, replaceFirstWithEmpty.
  destruct (execFrom separatorPattern true rest) as [[pre x]|] eqn:E.
  - apply execFrom_anchored in E as [-> Hp]. exact Hp.
  - now exists [].
Qed.

Lemma stripLeadingHubLinkLines_spec lines s :
  Forall (fun l => isBlankLine l = true \/ isHubLinkLine l None s = true)
    (firstn (stripLeadingHubLinkLines lines None s) lines) /\
  match nth_error lines (stripLeadingHubLinkLines lines None s) with
  | Some l => isBlankLine l = false /\ isHubLinkLine l None s = false
  | None => True
  end.
Proof.
  induction lines as [|l lines [IH1 IH2]]; [split; [constructor|exact I]|].
  cbn [stripLeadingHubLinkLines]. unfold isBlankLine in *.
  destruct (eqs (trim l) []) eqn:Eb.
  - split; [constructor; [now left|exact IH1]|exact IH2].
  - destruct (isHubLinkLine l None s) eqn:Eh.
    + split; [constructor; [now right|exact IH1]|exact IH2].
    + split; [constructor|]. simpl. now split.
Qed.

Lemma readFile_pathIsFile v path text :
  readFile v path = Some text -> pathIsFile v path = true.
Proof.
  unfold readFile, pathIsFile. destruct (List.find _ _) as [e|] eqn:E; [|discriminate].
  intros _. apply find_some in E as [Hin He].
  apply existsb_exists. eauto.
Qed.

Lemma readFile_after_modify (fs : list (TFile * str)) path data text v :
  readFile (setFiles fs v) path = Some text ->
  readFile
    (setFiles (map (fun e => if eqs (file_path (fst e)) path then (fst e, data) else e) fs) v)
    path = Some data.
Proof.
  unfold readFile. cbn [allFiles setFiles].
  induction fs as [|e fs IH]; [discriminate|].
  cbn [List.find map]. destruct (eqs (file_path (fst e)) path) eqn:E.
  - intros _. cbn [fst]. now rewrite E.
  - rewrite E. exact IH.
Qed.

Lemma setFiles_same v : setFiles (allFiles v) v = v.
Proof. now destruct v. Qed.

Lemma vaultModify_read file data text w :
  readFile (w_vault w) (file_path file) = Some text ->
  exists w', vaultModify file data w = Done tt w' /\
             readFile (w_vault w') (file_path file) = Some data.
Proof.
  intros Hr. unfold vaultModify, bind, getVault.
  rewrite (readFile_pathIsFile _ _ _ Hr). cbn.
  eexists. split; [reflexivity|]. cbn.
  apply readFile_after_modify with (text := text).
  now rewrite setFiles_same.
Qed.

End UpsertFacts.

(** The true half of the link round trip.  For a note that is not the
    hub of its folder, in a folder that is neither the root nor
    excluded and whose hub carries its expected name, the upsert
    returns, and the note then reads: the link block (one link line to
    the expected hub name, wrapped and preceded by a blank line as the
    hide settings say, a blank line, and the separator with its blank
    line when that setting is on), followed by a suffix of the old
    text.  The lines dropped from the top are blank lines and hub
    links; with the separator setting off nothing else is dropped. *)
Theorem upsert_writes_link_block w note settings s folder hub content :
  nth_error (w_heap w) settings = Some s ->
  file_parent note = Some folder ->
  isRoot folder = false ->
  shouldSkipPath (folder_path folder) (pathSkipFromSettings s) = false ->
  waitForNumberedHubNow (w_vault w) folder s = Some hub ->
  file_basename note <> getExpectedHubNameForFolder (w_vault w) folder s ->
  readFile (w_vault w) (file_path note) = Some content ->
  let lines := split newline content in
  let dropped := stripLeadingHubLinkLines lines None s in
  let rest := join LF (skipn dropped lines) in
  let separator := insertSeparatorAfterHubLink s in
  let tail := if separator then stripSeparator rest else rest in
  let link := wikiLink (getExpectedHubNameForFolder (w_vault w) folder s) in
  exists w',
    upsertHubLinkInNote note settings w = Done tt w' /\
    readFile (w_vault w') (file_path note)
      = Some (newTopFor (Some link) separator s ++ tail) /\
    (exists removed, content = removed ++ tail) /\
    Forall (fun l => isBlankLine l = true \/ isHubLinkLine l None s = true)
      (firstn dropped lines).
Proof.
  intros Hs Hparent Hroot Hskip Hhub Hnothub Hread lines dropped rest separator tail link.
  assert (exists removed, content = removed ++ tail) as Hsuffix.
  { destruct (join_firstn_skipn LF lines dropped) as [before Hb].
    unfold lines in Hb at 1. rewrite join_split in Hb. fold rest in Hb.
    unfold tail. destruct separator.
    - destruct (stripSeparator_suffix rest) as [p Hp].
      exists (before ++ p). rewrite <- app_assoc, <- Hp. exact Hb.
    - now exists before. }
  assert (getCorrectHubLinkForNote note settings w = Done (Some link) w) as Hlink.
  { unfold getCorrectHubLinkForNote. rewrite Hparent, Hroot.
    unfold bind, readSettings, getVault. rewrite Hs, Hskip, Hhub. reflexivity. }
  assert (isHubNote note settings w = Done false w) as Hnote.
  { unfold isHubNote. rewrite Hparent, Hroot.
    unfold bind, readSettings, getVault. rewrite Hs. unfold ret. f_equal.
    now apply eqs_neq. }
  assert (exists w',
            upsertHubLinkInNote note settings w = Done tt w' /\
            readFile (w_vault w') (file_path note)
            = Some (newTopFor (Some link) separator s ++ tail)) as (w' & Hrun & Hafter).
  { unfold upsertHubLinkInNote. unfold bind at 1. rewrite Hlink.
    unfold bind at 1. unfold vaultRead at 1. rewrite Hread.
    unfold bind at 1. unfold readSettings at 1. rewrite Hs.
    unfold bind at 1. rewrite Hnote. cbv iota.
    unfold bind at 1. unfold readSettings at 1. rewrite Hs.
    cbn [isSome negb]. rewrite andb_true_r.
    fold lines. fold dropped. fold rest. fold separator.
    replace (if true && separator then stripSeparator rest else rest) with tail
      by (unfold tail; now destruct separator).
    destruct (eqs (newTopFor (Some link) separator s ++ tail) content) eqn:E.
    - exists w. split; [reflexivity|]. apply eqs_eq in E. now rewrite E.
    - destruct (vaultModify_read note (newTopFor (Some link) separator s ++ tail)
                  content (worldOf (setWriteLock (file_path note) w)))
        as (w' & Hm & Hr); [exact Hread|].
      exists w'. split; [|exact Hr].
      unfold bind. cbn [setWriteLock modifyWorld]. exact Hm. }
  exists w'. split; [exact Hrun|]. split; [exact Hafter|]. split; [exact Hsuffix|].
  apply stripLeadingHubLinkLines_spec.
Qed.

(** The note of folder Z of the scenarios, with plain text after its
    link block and with text that has never had one. *)
Lemma upsert_link_block_witness :
  (exists w',
     upsertHubLinkInNote Scenarios.noteN 0 (Scenarios.noteWorld (js "body")) = Done tt w' /\
     readFile (w_vault w') (js "Z/n.md") = Some (Scenarios.linkBlock ++ js "body")) /\
  (exists w',
     upsertHubLinkInNote Scenarios.noteN 0
       (Scenarios.noteWorld (js "[[Z_1]]" ++ LF ++ js "body")) = Done tt w' /\
     readFile (w_vault w') (js "Z/n.md") = Some (Scenarios.linkBlock ++ js "body")).
Proof.
  split.
  - destruct (upsert_writes_link_block (Scenarios.noteWorld (js "body")) Scenarios.noteN 0
                Scenarios.liveSettings Scenarios.dirZ
                (Scenarios.noteIn Scenarios.dirZ "Z_") (js "body"))
      as (w' & Hrun & Hread & _); try reflexivity; [vm_compute; discriminate|].
    exists w'. split; [exact Hrun|exact Hread].
  - destruct (upsert_writes_link_block
                (Scenarios.noteWorld (js "[[Z_1]]" ++ LF ++ js "body")) Scenarios.noteN 0
                Scenarios.liveSettings Scenarios.dirZ
                (Scenarios.noteIn Scenarios.dirZ "Z_") (js "[[Z_1]]" ++ LF ++ js "body"))
      as (w' & Hrun & Hread & _); try reflexivity; [vm_compute; discriminate|].
    exists w'. split; [exact Hrun|exact Hread].
Defined.

(** ** hubContent.ts: a rebuild of a settled vault *)

Section SettledFacts.

Lemma forEach_fixed {A} (xs : list A) body w :
  (forall x, In x xs -> body x w = Done tt w) -> forEach xs body w = Done tt w.
Proof.
  induction xs as [|x xs IH]; intros Hb; [reflexivity|].
  cbn [forEach]. unfold bind. rewrite Hb by now left.
  apply IH. intros y Hy. apply Hb. now right.
Qed.

Lemma ensureHubContentUpToDate_fixed hub folder settings s w :
  nth_error (w_heap w) settings = Some s ->
  readFile (w_vault w) (file_path hub) = Some (hubContentOf (w_vault w) folder s) ->
  ensureHubContentUpToDate hub folder settings w = Done tt w.
Proof.
  intros Hs Hr.
  unfold ensureHubContentUpToDate, buildHubContent, bind, readSettings, getVault, ret,
    vaultRead.
  rewrite Hs, Hr. now rewrite eqs_refl.
Qed.

Lemma ensureHubForFolder_fixed folder settings s w :
  nth_error (w_heap w) settings = Some s ->
  hubSettled (w_vault w) s folder ->
  ensureHubForFolder folder settings w = Done tt w.
Proof.
  intros Hs (hub & Hf & Hr & _).
  unfold ensureHubForFolder, bind at 1, readSettings at 1. rewrite Hs.
  unfold bind at 1, getVault at 1. rewrite Hf.
  now apply ensureHubContentUpToDate_fixed with (s := s).
Qed.

Lemma findIndex_nth_distinct (g : list TFolder) i f :
  List.NoDup (map folder_path g) -> nth_error g i = Some f ->
  findIndex (samePath f) g = Some i.
Proof.
  revert i. induction g as [|x g IH]; intros i Hnd Hn; [now destruct i|].
  simpl in Hnd. apply List.NoDup_cons_iff in Hnd as [Hnotin Hnd].
  destruct i as [|i]; simpl in Hn.
  - injection Hn as ->. simpl. unfold samePath. now rewrite eqs_refl.
  - cbn [findIndex]. unfold samePath at 1.
    destruct (eqs (folder_path x) (folder_path f)) eqn:E.
    + apply eqs_eq in E. exfalso. apply Hnotin. rewrite E.
      apply in_map. eapply nth_error_In; exact Hn.
    + now rewrite (IH i Hnd Hn).
Qed.

Lemma in_combine_seq {A} (l : list A) a i x :
  In (i, x) (combine (seq a (length l)) l) -> a <= i /\ nth_error l (i - a) = Some x.
Proof.
  revert a. induction l as [|y l IH]; intros a; simpl; [contradiction|].
  intros [[= <- <-]|Hin].
  - split; [lia|]. now rewrite Nat.sub_diag.
  - destruct (IH _ Hin) as [Hle Hn]. split; [lia|].
    replace (i - a) with (S (i - S a)) by lia. exact Hn.
Qed.

Lemma group_paths_distinct v folderName options :
  List.NoDup (map folder_path (allFolders v)) ->
  List.NoDup (map folder_path (getFoldersWithSameName v folderName options)).
Proof.
  intros Hnd. rewrite getFoldersWithSameName_sorted_group.
  eapply Permutation_NoDup; [apply Permutation_map; symmetry; apply sortWith_perm|].
  unfold nameGroup. induction (allFolders v) as [|x l IH]; [constructor|].
  simpl in Hnd. apply List.NoDup_cons_iff in Hnd as [Hnotin Hnd].
  cbn [List.filter]. destruct (inNameGroup options folderName x); [|now apply IH].
  simpl. constructor; [|now apply IH].
  intros Hin. apply Hnotin. apply in_map_iff in Hin as (y & Hy & Hin).
  apply filter_In in Hin as [Hin _]. rewrite <- Hy. now apply in_map.
Qed.

(** A count of the counting loop never exceeds the size of the name
    group. *)
Lemma countFolder_bound options (all done : list TFolder) (m : list (str * nat)) :
  (forall name c, In (name, c) m ->
                  c <= length (List.filter (inNameGroup options name) done)) ->
  forall name c,
    In (name, c) (fold_left (countFolder options) all m) ->
    c <= length (List.filter (inNameGroup options name) (done ++ all)).
Proof.
  revert done m. induction all as [|f all IH]; intros done m Hinv name c Hin.
  - rewrite app_nil_r. now apply Hinv.
  - cbn [fold_left] in Hin.
    replace (done ++ f :: all) with ((done ++ [f]) ++ all) by now rewrite <- app_assoc.
    apply (IH (done ++ [f]) (countFolder options m f)); [|exact Hin].
    clear Hin name c IH. intros name c Hin.
    rewrite List.filter_app, length_app.
    unfold countFolder in Hin.
    destruct (shouldSkipPath (folder_path f) options) eqn:Es;
      [specialize (Hinv _ _ Hin); lia|].
    destruct (isRootFolder (folder_path f)); [specialize (Hinv _ _ Hin); lia|].
    assert (forall k, In (name, k) m ->
                      k <= length (List.filter (inNameGroup options name) done)) as Hm
      by (intros; now apply Hinv).
    clear Hinv. revert Hm Hin.
    generalize (length (List.filter (inNameGroup options name) done)).
    intros bound Hm Hin. induction m as [|[k0 c0] m IHm]; simpl in Hin.
    + destruct Hin as [[= <- <-]|[]]. cbn [List.filter]. unfold inNameGroup.
      rewrite eqs_refl, Es. simpl. lia.
    + destruct (eqs k0 (folder_name f)) eqn:Ek.
      * destruct Hin as [[= -> <-]|Hin].
        -- apply eqs_eq in Ek. subst name. cbn [List.filter]. unfold inNameGroup.
           rewrite eqs_refl, Es. simpl.
           assert (c0 <= bound) by (apply Hm; now left). lia.
        -- assert (c <= bound) by (apply Hm; now right). lia.
      * destruct Hin as [[= -> ->]|Hin].
        -- assert (c <= bound) by (apply Hm; now left). lia.
        -- apply IHm; [|exact Hin]. intros k Hk. apply Hm. now right.
Qed.

Lemma assignNumberedHubsForName_fixed folderName settings s w :
  nth_error (w_heap w) settings = Some s ->
  List.NoDup (map folder_path (allFolders (w_vault w))) ->
  vaultSettled (w_vault w) s ->
  1 < length (getFoldersWithSameName (w_vault w) folderName (pathSkipFromSettings s)) ->
  assignNumberedHubsForName folderName settings w = Done tt w.
Proof.
  intros Hs Hnd Hsettled Hlen.
  unfold assignNumberedHubsForName, bind at 1, readSettings at 1. rewrite Hs.
  unfold bind at 1, getVault at 1.
  set (group := getFoldersWithSameName (w_vault w) folderName (pathSkipFromSettings s)) in *.
  assert (Nat.leb (length group) 1 = false) as -> by (apply Nat.leb_gt; lia).
  apply forEach_fixed. intros [i folder] Hin.
  apply in_combine_seq in Hin as [_ Hn]. rewrite Nat.sub_0_r in Hn.
  assert (In folder group) as Hg by (eapply nth_error_In; exact Hn).
  apply in_getFoldersWithSameName in Hg as [Hall Hgrp].
  apply inNameGroup_spec in Hgrp as [Hname Hskip].
  destruct (Hsettled folder Hall Hskip) as (hub & Hf & Hr & Hexp).
  unfold bind at 1, getVault at 1. rewrite Hf.
  assert (file_basename hub
          = getNumberedHubName folderName (i + 1) (orElse (hubSuffix s) (js "_"))) as Hb.
  { rewrite Hexp by (rewrite Hname; exact Hlen).
    unfold getExpectedHubNameForFolder. rewrite Hname. fold group.
    assert (Nat.leb (length group) 1 = false) as -> by (apply Nat.leb_gt; lia).
    change (fun f => eqs (folder_path f) (folder_path folder)) with (samePath folder).
    rewrite (findIndex_nth_distinct group i folder);
      [reflexivity|now apply group_paths_distinct|exact Hn]. }
  rewrite Hb, eqs_refl. cbn [negb].
  now apply ensureHubContentUpToDate_fixed with (s := s).
Qed.

End SettledFacts.

(** The fixed point of the rebuild pass.  When no suffix migration is
    pending, no two folders share a path, and every non-excluded folder
    has its hub with the content [buildHubContent] computes and, if it
    shares its name, the expected numbered name, [buildRefreshHubNotes]
    returns without a write and leaves the state as it is. *)
Theorem rebuild_of_settled_vault_writes_nothing w settings s :
  nth_error (w_heap w) settings = Some s ->
  previousSuffixOf s = hubSuffix s ->
  List.NoDup (map folder_path (allFolders (w_vault w))) ->
  vaultSettled (w_vault w) s ->
  buildRefreshHubNotes settings w = Done tt w.
Proof.
  intros Hs Hprev Hnd Hsettled.
  unfold buildRefreshHubNotes, bind at 1, readSettings at 1. rewrite Hs.
  rewrite Hprev, eqs_refl. cbn [negb].
  unfold bind at 1, ret at 1.
  unfold bind at 1, readSettings at 1. rewrite Hs.
  unfold bind at 1, getVault at 1.
  unfold bind at 1. rewrite forEach_fixed.
  - apply forEach_fixed. intros [name count] Hin.
    destruct (Nat.ltb_spec 1 count) as [Hc|Hc]; [|reflexivity].
    apply assignNumberedHubsForName_fixed with (s := s); try assumption.
    change (fold_left _ (allFolders (w_vault w)) [])
      with (fold_left (countFolder (pathSkipFromSettings s)) (allFolders (w_vault w)) [])
      in Hin.
    apply (countFolder_bound _ _ [] []) in Hin; [|intros ? ? []].
    simpl app in Hin. rewrite getFoldersWithSameName_sorted_group.
    rewrite (Permutation_length (sortWith_perm _ _)). unfold nameGroup. lia.
  - intros folder Hin.
    destruct (shouldSkipPath _ _) eqn:Es; [reflexivity|].
    destruct (isRootFolder _); [reflexivity|].
    apply ensureHubForFolder_fixed with (s := s); [assumption|].
    now apply Hsettled.
Qed.

(** The vault of the note scenario is settled: its folder Z has its hub
    with the current content. *)
Lemma rebuild_settled_witness :
  buildRefreshHubNotes 0 (Scenarios.noteWorld (js "body"))
  = Done tt (Scenarios.noteWorld (js "body")).
Proof.
  apply rebuild_of_settled_vault_writes_nothing with (s := Scenarios.liveSettings).
  - reflexivity.
  - reflexivity.
  - repeat constructor. simpl. tauto.
  - intros folder [<-|[]] _.
    exists (Scenarios.noteIn Scenarios.dirZ "Z_").
    split; [reflexivity|]. split; [reflexivity|].
    vm_compute. lia.
Defined.

(** ** pathRules.ts: segments and exclusion *)

Section SegmentFacts.

Lemma split_app sep a b : split sep (a ++ sep :: b) = split sep a ++ split sep b.
Proof.
  induction a as [|c a IH]; simpl.
  - now rewrite eqc_refl.
  - destruct (eqc c sep); rewrite IH; [reflexivity|].
    pose proof (split_nonempty sep a) as Hne.
    destruct (split sep a); [contradiction|reflexivity].
Qed.

Lemma split_no_sep sep s : memc sep s = false -> split sep s = [s].
Proof.
  induction s as [|c s IH]; [reflexivity|].
  unfold memc. cbn [List.existsb split]. intros H.
  apply orb_false_elim in H as [Hc Hs].
  assert (eqc c sep = false) as ->.
  { apply eqc_neq. apply eqc_neq in Hc. congruence. }
  unfold memc in IH. now rewrite (IH Hs).
Qed.

Lemma segmentsOf_app a b :
  segmentsOf (a ++ js "/" ++ b) = segmentsOf a ++ segmentsOf b.
Proof.
  unfold segmentsOf. change (js "/" ++ b) with ("/"%char :: b).
  now rewrite split_app, List.filter_app.
Qed.

Lemma segmentsOf_stripLeadingSlash s : segmentsOf (stripLeadingSlash s) = segmentsOf s.
Proof.
  destruct s as [|c s]; [reflexivity|].
  unfold stripLeadingSlash, segmentsOf.
  destruct (eqc c "/"%char) eqn:E; [|reflexivity].
  cbn [split]. now rewrite E.
Qed.

Lemma segmentsOf_stripTrailingSlash s : segmentsOf (stripTrailingSlash s) = segmentsOf s.
Proof.
  unfold stripTrailingSlash.
  destruct (rev s) as [|c t] eqn:E.
  - apply (f_equal (@rev ascii)) in E. rewrite rev_involutive in E. now subst s.
  - apply (f_equal (@rev ascii)) in E. rewrite rev_involutive in E. subst s.
    cbn [stripLeadingSlash]. destruct (eqc c "/"%char) eqn:Ec; [|reflexivity].
    apply eqc_eq in Ec. subst c. cbn [rev].
    change (rev t ++ ["/"%char]) with (rev t ++ js "/" ++ []).
    rewrite segmentsOf_app. cbn. now rewrite app_nil_r.
Qed.

(** Dropping the outer slashes does not change the segments. *)
Lemma segmentsOf_normalizeSlashes path :
  segmentsOf (normalizeSlashes path) = segmentsOf path.
Proof.
  unfold normalizeSlashes.
  now rewrite segmentsOf_stripTrailingSlash, segmentsOf_stripLeadingSlash.
Qed.

Lemma shouldSkipPath_segments path options :
  shouldSkipPath path options =
  eqs (normalizeSlashes path) [] || List.existsb (segmentSkipped options) (segmentsOf path).
Proof.
  unfold shouldSkipPath. destruct (eqs (normalizeSlashes path) []); [reflexivity|].
  cbn [orb]. rewrite <- (segmentsOf_normalizeSlashes path). reflexivity.
Qed.

Lemma segmentsOf_name name :
  name <> [] -> memc "/"%char name = false -> segmentsOf name = [name].
Proof.
  intros Hne Hs. unfold segmentsOf. rewrite split_no_sep by assumption.
  destruct name; [contradiction|reflexivity].
Qed.

End SegmentFacts.

(** Exclusion is inherited: when a folder that is not the vault root is
    excluded, so is every path below it. *)
Theorem skipped_folder_skips_descendants path child options :
  normalizeSlashes path <> [] ->
  shouldSkipPath path options = true ->
  shouldSkipPath (path ++ js "/" ++ child) options = true.
Proof.
  intros Hroot Hskip. rewrite shouldSkipPath_segments in *.
  apply eqs_neq in Hroot. rewrite Hroot in Hskip. cbn [orb] in Hskip.
  rewrite segmentsOf_app, existsb_app, Hskip. apply orb_true_r.
Qed.

(** A note inside a dot-folder, under the default settings. *)
Lemma skipped_folder_witness :
  shouldSkipPath (js "work/.git/hooks/readme.md") (pathSkipFromSettings DEFAULT_SETTINGS)
  = true.
Proof.
  apply (skipped_folder_skips_descendants (js "work/.git") (js "hooks/readme.md")).
  - discriminate.
  - reflexivity.
Defined.

(** [getFolderNameFromPath] undoes the way a folder path is built: the
    name of a folder, alone or after the path of its parent, is read
    back from the path. *)
Theorem folder_name_read_back_from_path parent name :
  name <> [] ->
  memc "/"%char name = false ->
  getFolderNameFromPath name = name /\
  getFolderNameFromPath (parent ++ js "/" ++ name) = name /\
  getFolderNameFromPath (parent ++ js "/" ++ name ++ js "/") = name.
Proof.
  intros Hne Hs. unfold getFolderNameFromPath.
  change (List.filter nonEmpty (split "/"%char ?p)) with (segmentsOf p).
  rewrite !segmentsOf_normalizeSlashes.
  split; [|split].
  - now rewrite segmentsOf_name.
  - rewrite segmentsOf_app, (segmentsOf_name name) by assumption.
    now rewrite rev_app_distr.
  - replace (parent ++ js "/" ++ name ++ js "/") with ((parent ++ js "/" ++ name) ++ js "/" ++ [])
      by (now rewrite <- !app_assoc).
    rewrite segmentsOf_app. change (segmentsOf []) with (@nil str). rewrite app_nil_r.
    rewrite segmentsOf_app, (segmentsOf_name name) by assumption.
    now rewrite rev_app_distr.
Qed.

Lemma folder_name_witness :
  getFolderNameFromPath (js "projects/2024/notes") = js "notes".
Proof.
  apply (folder_name_read_back_from_path (js "projects/2024") (js "notes")).
  - discriminate.
  - reflexivity.
Defined.

(** ** Patterns: the greedy star, and the patterns of linksInNotes.ts *)

Section StarFacts.
Import RegExp.

Lemma matchK_star_nil {T} a r (k : bool -> str -> option T) b :
  matchK (IStar a :: r) k b [] = matchK r k b [].
Proof. reflexivity. Qed.

Lemma matchK_star_cons {T} a r (k : bool -> str -> option T) b c s :
  matchK (IStar a :: r) k b (c :: s) =
  if atomMatches a c then
    match matchK (IStar a :: r) k false s with
    | Some x => Some x
    | None => matchK r k b (c :: s)
    end
  else matchK r k b (c :: s).
Proof. reflexivity. Qed.

(** A match of [a*r] is a run of [a] followed by a match of [r]. *)
Lemma matchK_star_sound {T} a r (k : bool -> str -> option T) b s x :
  matchK (IStar a :: r) k b s = Some x ->
  exists p q, s = p ++ q /\ Forall (fun c => atomMatches a c = true) p /\
              matchK r k (startFlag b p) q = Some x.
Proof.
  revert b. induction s as [|c s IH]; intros b.
  - rewrite matchK_star_nil. intros H. exists [], []. auto.
  - rewrite matchK_star_cons. destruct (atomMatches a c) eqn:Ec.
    + destruct (matchK (IStar a :: r) k false s) as [y|] eqn:E.
      * intros [= <-]. destruct (IH false E) as (p & q & -> & Hp & Hq).
        exists (c :: p), q. split; [reflexivity|]. split; [now constructor|].
        now destruct p.
      * intros H. exists [], (c :: s). auto.
    + intros H. exists [], (c :: s). auto.
Qed.

(** Backtracking finds a match whenever some run of [a] is followed by a
    match of [r]. *)
Lemma matchK_star_complete {T} a r (k : bool -> str -> option T) b p q x :
  Forall (fun c => atomMatches a c = true) p ->
  matchK r k (startFlag b p) q = Some x ->
  exists y, matchK (IStar a :: r) k b (p ++ q) = Some y.
Proof.
  intros Hp. revert b. induction Hp as [|c p Hc Hp IH]; intros b Hq.
  - cbn [app startFlag] in *. destruct q as [|c q].
    + rewrite matchK_star_nil. eauto.
    + rewrite matchK_star_cons. destruct (atomMatches a c); [|eauto].
      destruct (matchK (IStar a :: r) k false q); eauto.
  - cbn [app]. rewrite matchK_star_cons, Hc.
    destruct (IH false) as [y ->]; [now destruct p|]. eauto.
Qed.

(** The star is greedy: when the run cannot go on, the longest run is the
    one tried first. *)
Lemma matchK_star_greedy {T} a r (k : bool -> str -> option T) b p q x :
  Forall (fun c => atomMatches a c = true) p ->
  match q with [] => True | c :: _ => atomMatches a c = false end ->
  matchK r k (startFlag b p) q = Some x ->
  matchK (IStar a :: r) k b (p ++ q) = Some x.
Proof.
  intros Hp Hstop. revert b. induction Hp as [|c p Hc Hp IH]; intros b Hq.
  - cbn [app startFlag] in *. destruct q as [|c q]; [exact Hq|].
    rewrite matchK_star_cons. now rewrite Hstop.
  - cbn [app]. rewrite matchK_star_cons, Hc.
    rewrite (IH false); [reflexivity|now destruct p].
Qed.

Lemma matchHere_end b s k : matchHere [IEnd] b s = Some k <-> s = [] /\ k = [].
Proof.
  unfold matchHere. destruct s; simpl; split; try easy.
  - intros [= <-]. auto.
  - now intros [_ ->].
Qed.

Lemma hubSuffixPattern_eq s :
  parse (js "^.*" ++ escapeRegex s ++ js "\d*$") =
  Some (IStart :: IStar ADot :: lits s ++ [IStar ADigit; IEnd]).
Proof.
  change (js "^.*" ++ ?x) with ("^"%char :: "."%char :: "*"%char :: x).
  cbn [parse].
  change (eqc "^"%char "^"%char) with true. cbv iota. cbn [option_map].
  change (eqc "."%char "^"%char) with false.
  change (eqc "."%char "$"%char) with false.
  change (eqc "."%char "\"%char) with false.
  change (eqc "."%char "."%char) with true. cbv iota.
  change (quantified ADot "*"%char) with (Some [IStar ADot]). cbv iota.
  rewrite parse_escapeRegex by reflexivity.
  change (parse (js "\d*$")) with (Some [IStar ADigit; IEnd]).
  reflexivity.
Qed.

Lemma literalPattern_eq s :
  parse (js "^" ++ escapeRegex s ++ js "$") = Some (IStart :: lits s ++ [IEnd]).
Proof.
  change (js "^" ++ ?x) with ("^"%char :: x).
  cbn [parse]. change (eqc "^"%char "^"%char) with true. cbv iota.
  rewrite parse_escapeRegex by reflexivity.
  reflexivity.
Qed.

Lemma targetMatches_intro pre ds suffix :
  noLineTerminator pre -> allDigits ds ->
  targetMatchesHubSuffixPattern (pre ++ orElse suffix (js "_") ++ ds) suffix = true.
Proof.
  intros Hpre Hd. unfold targetMatchesHubSuffixPattern. rewrite hubSuffixPattern_eq.
  cbn [patternTest]. rewrite test_anchored.
  set (sfx := orElse suffix (js "_")).
  destruct (matchK_star_complete ADot (lits sfx ++ [IStar ADigit; IEnd])
              (fun _ rest => Some rest) true pre (sfx ++ ds) []) as [y Hy].
  - eapply List.Forall_impl; [|exact Hpre]. intros c Hc. cbn. now rewrite Hc.
  - apply matchK_lits. exists ds. split; [reflexivity|].
    apply matchHere_digits_end. auto.
  - unfold matchHere. now rewrite Hy.
Qed.

End StarFacts.

(** [escapeRegex] makes a string stand for itself: the pattern built
    from the escaped string between the two anchors is well formed and
    matches that string and no other. *)
Theorem escaped_pattern_matches_literally s t :
  exists r,
    RegExp.parse (js "^" ++ escapeRegex s ++ js "$") = Some r /\
    (RegExp.test r t = true <-> t = s).
Proof.
  eexists. split; [apply literalPattern_eq|].
  rewrite test_anchored. split.
  - destruct (RegExp.matchHere _ true t) as [k|] eqn:E; [intros _|discriminate].
    apply matchHere_lits in E as (s' & -> & E).
    apply matchHere_end in E as [-> _]. now rewrite app_nil_r.
  - intros ->.
    assert (RegExp.matchHere (RegExp.lits s ++ [RegExp.IEnd]) true s = Some []) as ->;
      [|reflexivity].
    apply matchHere_lits. exists []. split; [now rewrite app_nil_r|].
    now apply matchHere_end.
Qed.

(** The targets [targetMatchesHubSuffixPattern] accepts: any text without
    a line break, then the suffix, then digits or nothing.  The folder
    the link points to plays no role. *)
Theorem hub_suffix_pattern_language target suffix :
  targetMatchesHubSuffixPattern target suffix = true <->
  exists pre ds,
    target = pre ++ orElse suffix (js "_") ++ ds /\ noLineTerminator pre /\ allDigits ds.
Proof.
  unfold targetMatchesHubSuffixPattern. rewrite hubSuffixPattern_eq.
  cbn [patternTest]. rewrite test_anchored.
  set (sfx := orElse suffix (js "_")).
  split.
  - destruct (RegExp.matchHere _ true target) as [k|] eqn:E; [intros _|discriminate].
    unfold RegExp.matchHere in E.
    apply matchK_star_sound in E as (p & q & -> & Hp & E).
    apply matchK_lits in E as (s' & -> & E).
    apply matchHere_digits_end in E as [Hd _].
    exists p, s'. split; [reflexivity|]. split; [|exact Hd].
    eapply List.Forall_impl; [|exact Hp]. intros c Hc. cbn in Hc.
    now apply negb_true_iff in Hc.
  - intros (pre & ds & -> & Hpre & Hd).
    pose proof (targetMatches_intro pre ds suffix Hpre Hd) as H.
    unfold targetMatchesHubSuffixPattern in H. rewrite hubSuffixPattern_eq in H.
    cbn [patternTest] in H. now rewrite test_anchored in H.
Qed.

(** ** linksInNotes.ts: reading back a written link *)

Section LinkLineFacts.
Import RegExp.

Lemma takeWhile_run (p : ascii -> bool) xs c rest :
  Forall (fun x => p x = true) xs -> p c = false ->
  takeWhile p (xs ++ c :: rest) = xs.
Proof.
  intros Hxs Hc. induction Hxs as [|x xs Hx _ IH]; simpl.
  - now rewrite Hc.
  - now rewrite Hx, IH.
Qed.

Lemma linkSafe_spec name :
  linkSafe name = true ->
  Forall (fun c => atomMatches linkTargetUnit c = true) name /\ noLineTerminator name.
Proof.
  unfold linkSafe, noLineTerminator. rewrite forallb_forall, <- List.Forall_forall.
  intros H. split; (eapply List.Forall_impl; [|exact H]); intros c Hc;
    apply andb_true_iff in Hc as [H1 H2]; [exact H1|now apply negb_true_iff in H2].
Qed.

Lemma linkSafe_app a b : linkSafe (a ++ b) = linkSafe a && linkSafe b.
Proof. apply forallb_app. Qed.

Lemma captureRun_link name rest b :
  name <> [] -> linkSafe name = true ->
  captureRun linkTargetUnit b (name ++ js "]]" ++ rest) = Some name.
Proof.
  intros Hne Hsafe. unfold captureRun.
  change (js "]]" ++ rest) with ("]"%char :: "]"%char :: rest).
  rewrite takeWhile_run; [now destruct name|apply linkSafe_spec, Hsafe|reflexivity].
Qed.

Lemma trim_id s :
  match s with c :: _ => isSpace c = false | [] => True end ->
  match rev s with d :: _ => isSpace d = false | [] => True end ->
  trim s = s.
Proof.
  intros Hhead Hlast. unfold trim.
  destruct s as [|c s]; [reflexivity|].
  cbn [dropWhile]. rewrite Hhead.
  destruct (rev (c :: s)) as [|d t] eqn:E.
  - apply (f_equal (@rev ascii)) in E. rewrite rev_involutive in E. discriminate E.
  - cbn [dropWhile]. rewrite Hlast, <- E. apply rev_involutive.
Qed.

Lemma trim_wikiLink name : trim (wikiLink name) = wikiLink name.
Proof.
  apply trim_id; [reflexivity|].
  unfold wikiLink. now rewrite !rev_app_distr.
Qed.

Lemma trim_hiddenSpan link : trim (hiddenSpan link) = hiddenSpan link.
Proof.
  apply trim_id; [reflexivity|].
  unfold hiddenSpan. now rewrite !rev_app_distr.
Qed.

Lemma matchGroupFrom_first pre a b s t :
  matchK pre (captureRun a) b s = Some t -> matchGroupFrom pre a b s = Some t.
Proof. intros H. destruct s; simpl; now rewrite H. Qed.

Lemma matchGroupFrom_anchored_later r a s : matchGroupFrom (IStart :: r) a false s = None.
Proof. induction s as [|c s IH]; simpl; [reflexivity|exact IH]. Qed.

Lemma matchGroupFrom_anchored r a s :
  matchK r (captureRun a) true s = None -> matchGroup (IStart :: r) a s = None.
Proof.
  intros H. unfold matchGroup.
  destruct s as [|c s]; cbn [matchGroupFrom matchK]; rewrite H; [reflexivity|].
  apply matchGroupFrom_anchored_later.
Qed.

Lemma extract_bare name :
  name <> [] -> linkSafe name = true -> extractWikiLinkTarget (wikiLink name) = Some name.
Proof.
  intros Hne Hsafe. unfold extractWikiLinkTarget. rewrite trim_wikiLink.
  assert (matchGroup bareLinkPrefix linkTargetUnit (wikiLink name) = Some name) as ->;
    [|reflexivity].
  apply matchGroupFrom_first. unfold bareLinkPrefix. cbn [matchK].
  rewrite <- (app_nil_r (lits (js "[["))).
  apply matchK_lits. exists (name ++ js "]]"). split; [reflexivity|].
  cbn [matchK]. rewrite <- (app_nil_r (js "]]")). now apply captureRun_link.
Qed.

Lemma extract_hidden name :
  name <> [] -> linkSafe name = true ->
  extractWikiLinkTarget (hiddenSpan (wikiLink name)) = Some name.
Proof.
  intros Hne Hsafe. unfold extractWikiLinkTarget. rewrite trim_hiddenSpan.
  assert (matchGroup bareLinkPrefix linkTargetUnit (hiddenSpan (wikiLink name)) = None) as ->.
  { apply matchGroupFrom_anchored. reflexivity. }
  apply matchGroupFrom_first. unfold spanLinkPrefix.
  apply matchK_lits.
  exists (js " class=" ++ [dquote] ++ CSS_CLASS_OB_HIDE ++ [dquote]
          ++ js ">[[" ++ name ++ js "]]" ++ js "</span>").
  split; [unfold hiddenSpan, wikiLink; now rewrite <- !app_assoc|].
  change (IStar (ANotIn (js ">")) :: lits (js ">[["))
    with (IStar (ANotIn (js ">")) :: lits (js ">[[") ++ []).
  match goal with
  | |- matchK _ _ _ ?s = _ =>
      change s with ((js " class=" ++ [dquote] ++ CSS_CLASS_OB_HIDE ++ [dquote])
                     ++ (js ">[[" ++ name ++ js "]]" ++ js "</span>"))
  end.
  apply matchK_star_greedy.
  - vm_compute. repeat constructor.
  - reflexivity.
  - rewrite <- (app_nil_r (lits (js ">[["))).
    apply matchK_lits. exists (name ++ js "]]" ++ js "</span>").
    split; [reflexivity|]. cbn [matchK]. now apply captureRun_link.
Qed.

Lemma isHubBasename_base folderName suffix :
  isHubBasename folderName suffix (getHubNameForFolder folderName suffix) = true.
Proof. unfold isHubBasename. now rewrite eqs_refl. Qed.

Lemma isHubBasename_numbered folderName suffix index :
  isHubBasename folderName suffix (getNumberedHubName folderName index suffix) = true.
Proof.
  unfold isHubBasename. rewrite getNumberedHubPattern_eq. cbn [patternTest].
  assert (test (IStart :: lits (folderName ++ orElse suffix (js "_"))
                  ++ [IOne ADigit; IStar ADigit; IEnd])
            (getNumberedHubName folderName index suffix) = true) as ->;
    [|apply orb_true_r].
  apply (numberedPattern_test folderName suffix _ _ (getNumberedHubPattern_eq _ _)).
  exists (stringOfNat index). destruct (stringOfNat_digits index). auto.
Qed.

Lemma isHubBasename_orElse folderName suffix basename :
  isHubBasename folderName (orElse suffix (js "_")) basename =
  isHubBasename folderName suffix basename.
Proof.
  unfold isHubBasename. rewrite getHubNameForFolder_orElse.
  now rewrite !getNumberedHubPattern_eq, orElse_idem.
Qed.

End LinkLineFacts.

Section RecognitionFacts.

Lemma hubNameFor_shape folderName suffix numbered :
  exists ds, allDigits ds /\
             hubNameFor folderName suffix numbered = folderName ++ orElse suffix (js "_") ++ ds.
Proof.
  destruct numbered as [index|]; cbn [hubNameFor].
  - exists (stringOfNat index). split; [apply stringOfNat_digits|reflexivity].
  - exists []. split; [constructor|].
    unfold getHubNameForFolder. now rewrite app_nil_r.
Qed.

Lemma hubNameFor_isHubBasename folderName suffix numbered :
  isHubBasename folderName suffix (hubNameFor folderName suffix numbered) = true.
Proof.
  destruct numbered; [apply isHubBasename_numbered|apply isHubBasename_base].
Qed.

Lemma hubNameFor_nonempty folderName suffix numbered :
  hubNameFor folderName suffix numbered <> [].
Proof.
  destruct (hubNameFor_shape folderName suffix numbered) as (ds & _ & ->).
  intros E. apply app_eq_nil in E as [_ E]. apply app_eq_nil in E as [E _].
  revert E. apply orElse_nonempty. discriminate.
Qed.

Lemma hubNameFor_matches folderName suffix numbered suffix' :
  linkSafe (hubNameFor folderName suffix numbered) = true ->
  orElse suffix' (js "_") = orElse suffix (js "_") ->
  targetMatchesHubSuffixPattern (hubNameFor folderName suffix numbered) suffix' = true.
Proof.
  intros Hsafe Hsfx.
  destruct (hubNameFor_shape folderName suffix numbered) as (ds & Hd & E).
  rewrite E in *. rewrite <- Hsfx.
  apply targetMatches_intro; [|exact Hd].
  rewrite linkSafe_app in Hsafe. apply andb_true_iff in Hsafe as [Hsafe _].
  now apply linkSafe_spec.
Qed.

End RecognitionFacts.

(** The link line the plugin writes is the link line it reads.  For a
    hub name that can stand in a wiki link, the line [upsertHubLinkInNote]
    writes, bare or wrapped in the hidden span, yields that name as its
    target and counts as a hub link: for any folder, for the folder the
    hub belongs to, and, after the suffix was changed, for as long as the
    settings still hold the suffix it was written with as the previous
    one. *)
Theorem written_hub_link_is_recognised s folder numbered line :
  let name := hubNameFor (folder_name folder) (hubSuffix s) numbered in
  linkSafe name = true ->
  line = wikiLink name \/ line = hiddenSpan (wikiLink name) ->
  extractWikiLinkTarget line = Some name /\
  isHubLinkLine line None s = true /\
  isHubLinkLine line (Some folder) s = true /\
  (forall s', previousHubSuffix s' = Some (hubSuffix s) ->
              isHubLinkLine line None s' = true).
Proof.
  intros name Hsafe Hline.
  assert (extractWikiLinkTarget line = Some name) as Hext.
  { destruct Hline as [-> | ->];
      [apply extract_bare|apply extract_hidden]; try assumption;
      apply hubNameFor_nonempty. }
  assert (forall suffix', orElse suffix' (js "_") = orElse (hubSuffix s) (js "_") ->
                          targetMatchesHubSuffixPattern name suffix' = true) as Hmatch
    by (intros; now apply hubNameFor_matches).
  split; [exact Hext|]. split; [|split].
  - unfold isHubLinkLine. rewrite Hext.
    now rewrite (Hmatch _ (orElse_idem _ _)).
  - unfold isHubLinkLine. rewrite Hext.
    fold (isHubBasename (folder_name folder) (orElse (hubSuffix s) (js "_")) name).
    rewrite isHubBasename_orElse. apply hubNameFor_isHubBasename.
  - intros s' Hprev. unfold isHubLinkLine. rewrite Hext, Hprev.
    destruct (targetMatchesHubSuffixPattern name (orElse (hubSuffix s') (js "_"))) eqn:Enew;
      [reflexivity|].
    rewrite (Hmatch _ eq_refl), andb_true_r.
    destruct (eqs (hubSuffix s) (orElse (hubSuffix s') (js "_"))) eqn:Esame; [|reflexivity].
    apply eqs_eq in Esame. rewrite <- Esame in Enew.
    rewrite (Hmatch _ eq_refl) in Enew. discriminate Enew.
Qed.

(** The link to the hub of folder Z, hidden, read under the default
    suffix and after the suffix has gone from the underscore to [--]. *)
Lemma written_hub_link_witness :
  isHubLinkLine (hiddenSpan (js "[[Z_]]")) None Scenarios.liveSettings = true /\
  isHubLinkLine (hiddenSpan (js "[[Z_]]")) None
    (withHubSuffix (js "--") Scenarios.liveSettings) = true.
Proof.
  destruct (written_hub_link_is_recognised Scenarios.liveSettings Scenarios.dirZ None
              (hiddenSpan (js "[[Z_]]"))) as (_ & Hnow & _ & Hlater);
    [reflexivity|right; reflexivity|].
  split; [exact Hnow|]. apply Hlater. reflexivity.
Defined.

(** ** hubForFolder.ts: the search for the hub of a folder *)

Section FindHubFacts.

Lemma isHubBasename_shaped folderName suffix basename :
  isHubBasename folderName suffix basename = true <-> hubShaped folderName suffix basename.
Proof.
  unfold isHubBasename, hubShaped. rewrite getNumberedHubPattern_eq. cbn [patternTest].
  rewrite orb_true_iff, eqs_eq.
  rewrite (numberedPattern_test folderName suffix _ _ (getNumberedHubPattern_eq _ _)).
  unfold getHubNameForFolder. split.
  - intros [->|(ds & _ & Hd & ->)].
    + exists []. split; [constructor|now rewrite app_nil_r].
    + eauto.
  - intros (ds & Hd & ->). destruct ds as [|c ds].
    + left. now rewrite app_nil_r.
    + right. exists (c :: ds). split; [discriminate|auto].
Qed.

Lemma firstHubFile_find folderName suffix (files : list TFile) (folders : list TFolder) :
  firstHubFile folderName suffix (map AFile files ++ map AFolder folders) =
  List.find (fun f => isHubBasename folderName suffix (file_basename f)) files.
Proof.
  induction files as [|f files IH]; cbn [map app firstHubFile List.find].
  - induction folders as [|d folders IHd]; [reflexivity|exact IHd].
  - destruct (isHubBasename folderName suffix (file_basename f)); [reflexivity|exact IH].
Qed.

Lemma find_first {A} (p : A -> bool) l x :
  List.find p l = Some x ->
  exists before after, l = before ++ x :: after /\ p x = true /\
                       Forall (fun y => p y = false) before.
Proof.
  induction l as [|a l IH]; cbn [List.find]; [discriminate|].
  destruct (p a) eqn:E.
  - intros [= <-]. exists [], l. auto.
  - intros H. destruct (IH H) as (before & after & -> & Hx & Hb).
    exists (a :: before), after. auto.
Qed.

End FindHubFacts.

(** What [findHubInFolderWithName] finds.  The hub of a folder is the
    first of its child files, in the order of [folder.children], whose
    basename is the folder name, the suffix, and digits or nothing; the
    extension of the file and the number are not looked at.  It is null
    exactly when no child file has such a basename. *)
Theorem hub_is_first_child_of_hub_shape v folder folderName s :
  let suffix := hubSuffix s in
  match findHubInFolderWithName v folder folderName s with
  | Some hub =>
      exists before after,
        childFiles v folder = before ++ hub :: after /\
        hubShaped folderName suffix (file_basename hub) /\
        Forall (fun f => ~ hubShaped folderName suffix (file_basename f)) before
  | None =>
      Forall (fun f => ~ hubShaped folderName suffix (file_basename f)) (childFiles v folder)
  end.
Proof.
  intros suffix. unfold findHubInFolderWithName, children.
  rewrite firstHubFile_find. fold (childFiles v folder).
  assert (forall f, isHubBasename folderName (orElse (hubSuffix s) (js "_"))
                      (file_basename f) = false ->
                    ~ hubShaped folderName suffix (file_basename f)) as Hno.
  { intros f Hf Hshape. apply isHubBasename_shaped in Hshape.
    rewrite isHubBasename_orElse in Hf. unfold suffix in Hshape. congruence. }
  destruct (List.find _ (childFiles v folder)) as [hub|] eqn:E.
  - apply find_first in E as (before & after & Hl & Hhub & Hb).
    exists before, after. split; [exact Hl|]. split.
    + rewrite isHubBasename_orElse in Hhub. now apply isHubBasename_shaped.
    + eapply List.Forall_impl; [|exact Hb]. exact Hno.
  - apply List.Forall_forall. intros f Hin. apply Hno.
    destruct (isHubBasename _ _ (file_basename f)) eqn:Ef; [|reflexivity].
    pose proof (find_none _ _ E f Hin) as Hn. cbv beta in Hn. congruence.
Qed.

(** ** hubForFolder.ts: expected names within a name group *)

Section DistinctNameFacts.

Lemma digitsOfUint_inj d d' : digitsOfUint d = digitsOfUint d' -> d = d'.
Proof.
  revert d'. induction d; intros d'; destruct d'; simpl; intros E;
    try discriminate E; try reflexivity;
    injection E as E; f_equal; now apply IHd.
Qed.

Lemma stringOfNat_inj n m : stringOfNat n = stringOfNat m -> n = m.
Proof.
  unfold stringOfNat. intros E. apply digitsOfUint_inj in E.
  apply (f_equal Nat.of_uint) in E. now rewrite !DecimalNat.Unsigned.of_to in E.
Qed.

Lemma two_members_length {A} (l : list A) a b :
  In a l -> In b l -> a <> b -> 1 < length l.
Proof.
  destruct l as [|x [|y l]]; simpl; intros Ha Hb Hab; try lia; try contradiction.
  destruct Ha as [<-|[]], Hb as [<-|[]]. contradiction.
Qed.

End DistinctNameFacts.

(** Two folders that share a name and are both in the vault and not
    excluded never share an expected hub name: the numbers tell them
    apart. *)
Theorem expected_hub_names_distinct v s f g :
  In f (allFolders v) -> In g (allFolders v) ->
  shouldSkipPath (folder_path f) (pathSkipFromSettings s) = false ->
  shouldSkipPath (folder_path g) (pathSkipFromSettings s) = false ->
  folder_name f = folder_name g ->
  folder_path f <> folder_path g ->
  getExpectedHubNameForFolder v f s <> getExpectedHubNameForFolder v g s.
Proof.
  intros Hf Hg Hsf Hsg Hname Hpath.
  destruct (expected_name_rule v f s Hf Hsf) as [_ Hnf].
  destruct (expected_name_rule v g s Hg Hsg) as [_ Hng].
  rewrite <- Hname in Hng.
  set (group := getFoldersWithSameName v (folder_name f) (pathSkipFromSettings s)) in *.
  assert (1 < length group) as Hlen.
  { apply (two_members_length group f g).
    - apply in_getFoldersWithSameName. split; [assumption|].
      unfold inNameGroup. now rewrite eqs_refl, Hsf.
    - apply in_getFoldersWithSameName. split; [assumption|].
      unfold inNameGroup. now rewrite Hname, eqs_refl, Hsg.
    - congruence. }
  destruct (Hnf Hlen) as (i & f' & _ & Hi & Hpf & ->).
  destruct (Hng Hlen) as (j & g' & _ & Hj & Hpg & ->).
  unfold getNumberedHubName. intros E.
  apply app_inv_head in E. apply app_inv_head in E. apply stringOfNat_inj in E.
  assert (i = j) as -> by lia. congruence.
Qed.

(** The three sample folders named X: a/X and b/X. *)
Lemma expected_hub_names_witness :
  folder_name Samples.aX = folder_name Samples.bX /\
  getExpectedHubNameForFolder Samples.threeX Samples.aX DEFAULT_SETTINGS
  <> getExpectedHubNameForFolder Samples.threeX Samples.bX DEFAULT_SETTINGS.
Proof.
  split; [reflexivity|].
  apply expected_hub_names_distinct; try reflexivity;
    try (simpl; tauto); discriminate.
Defined.

(** ** linksInNotes.ts: the link block on top of a note *)

Section BlockFacts.

Lemma split_line l rest :
  memc newline l = false -> split newline (l ++ newline :: rest) = l :: split newline rest.
Proof. intros H. now rewrite split_app, split_no_sep. Qed.

Lemma noLineTerminator_app a b :
  noLineTerminator (a ++ b) <-> noLineTerminator a /\ noLineTerminator b.
Proof. apply List.Forall_app. Qed.

Lemma noLineTerminator_newline l : noLineTerminator l -> memc newline l = false.
Proof.
  intros H. unfold memc. destruct (List.existsb (eqc newline) l) eqn:E; [|reflexivity].
  apply existsb_exists in E as (c & Hin & Hc). apply eqc_eq in Hc. subst c.
  unfold noLineTerminator in H. rewrite List.Forall_forall in H.
  specialize (H _ Hin). discriminate H.
Qed.

Lemma linkLineFor_noLineTerminator s name :
  linkSafe name = true -> noLineTerminator (linkLineFor s (wikiLink name)).
Proof.
  intros Hsafe. apply linkSafe_spec in Hsafe as [_ Hn].
  assert (noLineTerminator (wikiLink name)) as Hw.
  { unfold wikiLink. rewrite !noLineTerminator_app.
    split; [repeat constructor|]. split; [exact Hn|repeat constructor]. }
  unfold linkLineFor. destruct (autoHideHubLinks s); [|exact Hw].
  unfold hiddenSpan. rewrite !noLineTerminator_app.
  repeat split; try exact Hw; vm_compute; repeat constructor.
Qed.

Lemma newTopFor_linkLine s link separator :
  newTopFor (Some link) separator s =
  (if removeHiddenBlink s then LF else []) ++ linkLineFor s link ++ LF ++ LF
  ++ (if separator then js "---" ++ LF ++ LF else []).
Proof. reflexivity. Qed.

(** The lines of a note that starts with the block. *)
Lemma lines_of_block s name separator body :
  linkSafe name = true ->
  split newline (newTopFor (Some (wikiLink name)) separator s ++ body) =
  blockLines s (wikiLink name) separator ++ split newline body.
Proof.
  intros Hsafe.
  pose proof (noLineTerminator_newline _ (linkLineFor_noLineTerminator s name Hsafe)) as Hl.
  rewrite newTopFor_linkLine. unfold blockLines, LF.
  assert (forall t, split newline (newline :: t) = [] :: split newline t) as Hnl
    by reflexivity.
  assert (forall t, split newline (linkLineFor s (wikiLink name) ++ newline :: newline :: t)
                    = linkLineFor s (wikiLink name) :: [] :: split newline t) as Hlink.
  { intros t. rewrite split_line by exact Hl. now rewrite Hnl. }
  assert (forall t, split newline (js "---" ++ newline :: newline :: t)
                    = js "---" :: [] :: split newline t) as Hsep.
  { intros t. rewrite split_line by reflexivity. now rewrite Hnl. }
  destruct (removeHiddenBlink s), separator; rewrite <- ?app_assoc; cbn [app];
    rewrite ?Hnl, Hlink, ?Hsep; reflexivity.
Qed.

Lemma trim_nonblank c l : isSpace c = false -> trim (c :: l) <> [].
Proof.
  intros Hc. unfold trim. cbn [dropWhile]. rewrite Hc.
  intros E. apply (f_equal (@rev ascii)) in E. rewrite rev_involutive in E.
  cbn [rev] in E.
  assert (forall xs, dropWhile isSpace (xs ++ [c]) <> []) as Hd.
  { induction xs as [|x xs IH]; cbn [app dropWhile].
    - now rewrite Hc.
    - destruct (isSpace x); [exact IH|discriminate]. }
  now apply (Hd (rev l)).
Qed.

Lemma linkLine_nonblank s name : isBlankLine (linkLineFor s (wikiLink name)) = false.
Proof.
  unfold isBlankLine, linkLineFor.
  destruct (autoHideHubLinks s); apply eqs_neq; now apply trim_nonblank.
Qed.

Lemma expected_is_hubNameFor v folder s :
  exists numbered,
    getExpectedHubNameForFolder v folder s
    = hubNameFor (folder_name folder) (hubSuffix s) numbered.
Proof.
  unfold getExpectedHubNameForFolder.
  rewrite getHubNameForFolder_orElse.
  destruct (Nat.leb _ 1); [now exists None|].
  destruct (findIndex _ _) as [index|]; [|now exists None].
  exists (Some (index + 1)). apply getNumberedHubName_orElse.
Qed.

(** The written link line counts as a hub link for the settings it was
    written under. *)
Lemma linkLine_isHubLinkLine s0 s folderName numbered :
  let name := hubNameFor folderName (hubSuffix s) numbered in
  linkSafe name = true ->
  isHubLinkLine (linkLineFor s0 (wikiLink name)) None s = true.
Proof.
  intros name Hsafe. unfold isHubLinkLine.
  assert (extractWikiLinkTarget (linkLineFor s0 (wikiLink name)) = Some name) as ->.
  { unfold linkLineFor. destruct (autoHideHubLinks s0);
      [apply extract_hidden|apply extract_bare]; try assumption;
      apply hubNameFor_nonempty. }
  unfold name in *. now rewrite (hubNameFor_matches _ _ _ _ Hsafe (orElse_idem _ _)).
Qed.

Lemma nth_error_blockLines_link s link separator tail :
  nth_error (blockLines s link separator ++ tail) (if removeHiddenBlink s then 1 else 0)
  = Some (linkLineFor s link).
Proof. unfold blockLines. now destruct (removeHiddenBlink s). Qed.

End BlockFacts.

(** ** linksInNotes.ts and commands.ts: Ctrl+A *)

Section SelectAllFacts.
Import Commands.

Lemma lineTrimmedIs_lt lines i text :
  lineTrimmedIs lines i text = true -> i < length lines.
Proof.
  unfold lineTrimmedIs. destruct (nth_error lines i) eqn:E; [|discriminate].
  intros _. apply nth_error_Some. congruence.
Qed.

Lemma nth_error_last {A} (l : list A) d :
  l <> [] -> nth_error l (length l - 1) = Some (List.last l d).
Proof.
  induction l as [|x l IH]; [contradiction|]. intros _.
  destruct l as [|y l]; [reflexivity|].
  replace (length (x :: y :: l) - 1) with (S (length (y :: l) - 1)) by (simpl; lia).
  cbn [nth_error]. rewrite IH by discriminate. reflexivity.
Qed.

End SelectAllFacts.

(** The count [getSelectAllExcludeLineCount] returns is at most five and
    at most the number of lines, and it is zero unless the first line, or
    the second after a blank first line, is a hub link. *)
Theorem select_all_count_bounds lines folder s :
  let count := getSelectAllExcludeLineCount lines folder s in
  count <= 5 /\ count <= length lines /\
  (count = 0 \/
   exists i hubLine,
     nth_error lines i = Some hubLine /\ isHubLinkLine hubLine None s = true /\
     (i = 0 \/ i = 1 /\ lineTrimmedIs lines 0 [] = true)).
Proof.
  unfold getSelectAllExcludeLineCount.
  destruct (lineTrimmedIs lines 0 []) eqn:E0; cbn [Nat.add].
  - destruct (nth_error lines 1) as [hubLine|] eqn:E1; [|lia].
    destruct (isHubLinkLine hubLine None s) eqn:Eh; cbn [negb]; [|lia].
    assert (count_ok :
      forall n, n <= 5 /\ n <= length lines ->
                n <= 5 /\ n <= length lines /\
                (n = 0 \/ exists i l, nth_error lines i = Some l /\
                                      isHubLinkLine l None s = true /\
                                      (i = 0 \/ i = 1 /\ true = true))).
    { intros n [H5 Hn]. split; [exact H5|]. split; [exact Hn|].
      right. exists 1, hubLine. auto. }
    assert (1 < length lines) as H1 by (apply nth_error_Some; congruence).
    destruct (lineTrimmedIs lines 2 []) eqn:E2; cbn [Nat.add].
    + apply lineTrimmedIs_lt in E2.
      destruct (lineTrimmedIs lines 3 (js "---")) eqn:E3; cbn [Nat.add].
      * apply lineTrimmedIs_lt in E3.
        destruct (lineTrimmedIs lines 4 []) eqn:E4;
          [apply lineTrimmedIs_lt in E4|]; apply count_ok; lia.
      * apply count_ok; lia.
    + destruct (lineTrimmedIs lines 2 (js "---")) eqn:E3; cbn [Nat.add].
      * apply lineTrimmedIs_lt in E3.
        destruct (lineTrimmedIs lines 3 []) eqn:E4;
          [apply lineTrimmedIs_lt in E4|]; apply count_ok; lia.
      * apply count_ok; lia.
  - destruct (nth_error lines 0) as [hubLine|] eqn:E1; [|lia].
    destruct (isHubLinkLine hubLine None s) eqn:Eh; cbn [negb]; [|lia].
    assert (count_ok :
      forall n, n <= 5 /\ n <= length lines ->
                n <= 5 /\ n <= length lines /\
                (n = 0 \/ exists i l, nth_error lines i = Some l /\
                                      isHubLinkLine l None s = true /\
                                      (i = 0 \/ i = 1 /\ false = true))).
    { intros n [H5 Hn]. split; [exact H5|]. split; [exact Hn|].
      right. exists 0, hubLine. auto. }
    assert (0 < length lines) as H1 by (apply nth_error_Some; congruence).
    destruct (lineTrimmedIs lines 1 []) eqn:E2; cbn [Nat.add].
    + apply lineTrimmedIs_lt in E2.
      destruct (lineTrimmedIs lines 2 (js "---")) eqn:E3; cbn [Nat.add].
      * apply lineTrimmedIs_lt in E3.
        destruct (lineTrimmedIs lines 3 []) eqn:E4;
          [apply lineTrimmedIs_lt in E4|]; apply count_ok; lia.
      * apply count_ok; lia.
    + destruct (lineTrimmedIs lines 1 (js "---")) eqn:E3; cbn [Nat.add].
      * apply lineTrimmedIs_lt in E3.
        destruct (lineTrimmedIs lines 2 []) eqn:E4;
          [apply lineTrimmedIs_lt in E4|]; apply count_ok; lia.
      * apply count_ok; lia.
Qed.

(** Ctrl+A and the written block agree.  For a note that starts with the
    block [upsertHubLinkInNote] writes, under any of the hide, blink and
    separator settings, followed by any text (whose first line is not a
    separator of its own when the block has none), the count is the
    number of lines of the block, the lines from there on are that text,
    and with the setting on the handler selects from the first line
    after the block to the end of the note. *)
Theorem select_all_skips_written_block s0 s folderName numbered separator folder body :
  let name := hubNameFor folderName (hubSuffix s) numbered in
  let text := newTopFor (Some (wikiLink name)) separator s0 ++ body in
  let lines := split newline text in
  let count := getSelectAllExcludeLineCount lines folder s in
  linkSafe name = true ->
  (separator = false -> trim (firstLine body) <> js "---") ->
  count = length (blockLines s0 (wikiLink name) separator) /\
  join LF (skipn count lines) = body /\
  (excludeHubLinksFromSelectAll s = true ->
   Commands.onSelectAllKey s folder text =
   Commands.SetSelection
     {| Commands.line := count; Commands.ch := 0 |}
     {| Commands.line := length lines - 1;
        Commands.ch := length (List.last lines []) |}).
Proof.
  intros name text lines count Hsafe Hsep.
  assert (lines = blockLines s0 (wikiLink name) separator ++ split newline body) as Hlines
    by (apply lines_of_block; exact Hsafe).
  pose proof (linkLine_isHubLinkLine s0 s folderName numbered Hsafe) as Hhub.
  fold name in Hhub.
  pose proof (linkLine_nonblank s0 name) as Hnb. unfold isBlankLine in Hnb.
  pose proof (split_nonempty newline body) as Hne.
  assert (count = length (blockLines s0 (wikiLink name) separator)) as Hcount.
  { unfold count, getSelectAllExcludeLineCount, lineTrimmedIs. rewrite Hlines.
    unfold blockLines, firstLine in *.
    destruct (split newline body) as [|l0 ls]; [contradiction|]. cbn [hd] in Hsep.
    assert (separator = false -> eqs (trim l0) (js "---") = false) as Hl0
      by (intros E; apply eqs_neq; now apply Hsep).
    destruct (removeHiddenBlink s0), separator;
      repeat first
        [ progress cbn [nth_error Nat.add negb app length]
        | rewrite Hnb | rewrite Hhub | rewrite (Hl0 eq_refl)
        | progress change (eqs (trim []) []) with true
        | progress change (eqs (trim []) (js "---")) with false
        | progress change (eqs (trim (js "---")) (js "---")) with true
        | progress change (eqs (trim (js "---")) []) with false
        | progress cbv iota ];
      reflexivity. }
  split; [exact Hcount|]. split.
  - rewrite Hcount, Hlines, skipn_app, Nat.sub_diag, skipn_all. cbn [app skipn].
    apply join_split.
  - intros Hon. unfold Commands.onSelectAllKey. rewrite Hon. cbn [negb].
    fold lines. fold count.
    assert (0 < count) as Hpos.
    { rewrite Hcount. unfold blockLines.
      destruct (removeHiddenBlink s0); rewrite !length_app; simpl; lia. }
    assert (count < length lines) as Hlt.
    { rewrite Hcount, Hlines, length_app.
      destruct (split newline body); [contradiction|simpl; lia]. }
    assert (Nat.leb count 0 = false) as -> by (apply Nat.leb_gt; lia).
    assert (Nat.leb (length lines) count = false) as -> by (apply Nat.leb_gt; lia).
    rewrite (nth_error_last lines []); [reflexivity|].
    intros E. rewrite E in Hlt. simpl in Hlt. lia.
Qed.

(** The note of folder Z with its visible link, the separator and two
    lines of text. *)
Lemma select_all_witness :
  Commands.onSelectAllKey Scenarios.liveSettings (Some Scenarios.dirZ)
    (Scenarios.linkBlock ++ js "first" ++ LF ++ js "second")
  = Commands.SetSelection {| Commands.line := 4; Commands.ch := 0 |}
                          {| Commands.line := 5; Commands.ch := 6 |}.
Proof.
  destruct (select_all_skips_written_block Scenarios.liveSettings Scenarios.liveSettings
              (js "Z") None true (Some Scenarios.dirZ) (js "first" ++ LF ++ js "second"))
    as (_ & _ & Hsel); [reflexivity|discriminate|].
  exact (Hsel eq_refl).
Defined.

(** ** commands.ts: hiding and unhiding text *)

Section UnwrapFacts.
Import Commands.

Lemma startsWith_spec p s : startsWith p s = true <-> exists r, s = p ++ r.
Proof.
  revert s. induction p as [|x p IH]; intros s; simpl.
  - split; [intros _; now exists s|reflexivity].
  - destruct s as [|y s].
    + split; [discriminate|]. intros [r [=]].
    + rewrite andb_true_iff, eqc_eq, IH. split.
      * intros [-> [r ->]]. now exists r.
      * intros [r [= -> ->]]. split; [reflexivity|now exists r].
Qed.

Lemma findFirst_spec pat s before after :
  findFirst pat s = Some (before, after) -> s = before ++ pat ++ after.
Proof.
  revert before. induction s as [|c s IH]; intros before; cbn [findFirst].
  - destruct (startsWith pat []) eqn:E; [|discriminate].
    apply startsWith_spec in E as [r E]. intros [= <- <-].
    symmetry in E. apply app_eq_nil in E as [-> ->]. reflexivity.
  - destruct (startsWith pat (c :: s)) eqn:E.
    + apply startsWith_spec in E as [r E]. intros [= <- <-].
      rewrite E, skipn_app, Nat.sub_diag, skipn_all. reflexivity.
    + destruct (findFirst pat s) as [[b a]|]; [|discriminate].
      intros [= <- <-]. cbn [app]. f_equal. now apply IH.
Qed.

(** A pattern whose first unit does not occur again in it cannot overlap
    a copy of itself. *)
Lemma startsWith_before_copy h t x rest :
  ~ In h t -> x <> [] ->
  startsWith (h :: t) (x ++ (h :: t) ++ rest) = true ->
  startsWith (h :: t) x = true.
Proof.
  intros Hh Hx H. apply startsWith_spec in H as [r H].
  apply app_eq_app in H as [l [[-> _]|[Hpat Hrest]]].
  - apply startsWith_spec. now exists l.
  - destruct x as [|x0 x]; [contradiction|].
    injection Hpat as <- ->.
    destruct l as [|y l].
    + apply startsWith_spec. exists []. now rewrite !app_nil_r.
    + cbn [app] in Hrest. injection Hrest as <- _.
      exfalso. apply Hh. apply in_or_app. right. now left.
Qed.

Lemma findFirst_copy h t pre rest :
  ~ In h t ->
  findFirst (h :: t) pre = None ->
  findFirst (h :: t) (pre ++ (h :: t) ++ rest) = Some (pre, rest).
Proof.
  intros Hh. induction pre as [|c pre IH]; intros Hnone.
  - cbn [app]. unfold findFirst.
    assert (startsWith (h :: t) (h :: t ++ rest) = true) as Hs
      by (apply startsWith_spec; now exists rest).
    destruct (t ++ rest) eqn:E; rewrite Hs;
      change (skipn (length (h :: t)) (h :: ?x)) with (skipn (length t) x);
      rewrite <- E, skipn_app, Nat.sub_diag, skipn_all; reflexivity.
  - cbn [findFirst] in Hnone.
    destruct (startsWith (h :: t) (c :: pre)) eqn:Es; [discriminate|].
    destruct (findFirst (h :: t) pre) as [[b a]|] eqn:Ef; [discriminate|].
    change ((c :: pre) ++ (h :: t) ++ rest) with (c :: (pre ++ (h :: t) ++ rest)).
    cbn [findFirst].
    destruct (startsWith (h :: t) (c :: pre ++ (h :: t) ++ rest)) eqn:Es'.
    + apply (startsWith_before_copy h t (c :: pre) rest Hh) in Es'; [|discriminate].
      congruence.
    + now rewrite IH.
Qed.

Lemma findFirst_open before rest :
  findFirst obHideOpen before = None ->
  findFirst obHideOpen (before ++ obHideOpen ++ rest) = Some (before, rest).
Proof.
  apply (findFirst_copy "<"%char (List.tl obHideOpen)).
  vm_compute. intuition discriminate.
Qed.

Lemma findFirst_close inner rest :
  findFirst obHideClose inner = None ->
  findFirst obHideClose (inner ++ obHideClose ++ rest) = Some (inner, rest).
Proof.
  apply (findFirst_copy "<"%char (List.tl obHideClose)).
  vm_compute. intuition discriminate.
Qed.

(** The fuel of [unwrapFrom] never runs out: any amount from the length
    of the text on gives the same result. *)
Lemma unwrapFrom_fuel fuel1 fuel2 text :
  length text <= fuel1 -> length text <= fuel2 ->
  unwrapFrom fuel1 text = unwrapFrom fuel2 text.
Proof.
  revert fuel2 text. induction fuel1 as [|fuel1 IH]; intros fuel2 text H1 H2.
  - destruct text; [|simpl in H1; lia]. now destruct fuel2.
  - destruct fuel2 as [|fuel2].
    + destruct text; [reflexivity|simpl in H2; lia].
    + cbn [unwrapFrom].
      destruct (findFirst obHideOpen text) as [[before afterOpen]|] eqn:Eo; [|reflexivity].
      destruct (findFirst obHideClose afterOpen) as [[inner rest]|] eqn:Ec; [|reflexivity].
      apply findFirst_spec in Eo, Ec. subst text afterOpen.
      rewrite !length_app in H1, H2.
      assert (0 < length obHideOpen) by (vm_compute; lia).
      rewrite (IH fuel2 rest); [reflexivity|lia|lia].
Qed.

Lemma hiddenSpan_tags text : hiddenSpan text = obHideOpen ++ text ++ obHideClose.
Proof. unfold hiddenSpan, obHideOpen, obHideClose. now rewrite <- !app_assoc. Qed.

Lemma unwrap_no_open text :
  findFirst obHideOpen text = None -> unwrapObHideInText text = text.
Proof.
  intros H. unfold unwrapObHideInText. destruct (length text); [reflexivity|].
  cbn [unwrapFrom]. now rewrite H.
Qed.

Lemma unwrap_hidden before inner after :
  findFirst obHideOpen before = None ->
  findFirst obHideClose inner = None ->
  unwrapObHideInText (before ++ hiddenSpan inner ++ after)
  = before ++ inner ++ unwrapObHideInText after.
Proof.
  intros Hb Hi. unfold unwrapObHideInText.
  rewrite hiddenSpan_tags, <- !app_assoc.
  set (text := before ++ obHideOpen ++ inner ++ obHideClose ++ after).
  assert (0 < length obHideOpen) as Hpos by (vm_compute; lia).
  assert (length text = length before + length obHideOpen + length inner
                        + length obHideClose + length after) as Hlen
    by (unfold text; rewrite !length_app; lia).
  destruct (length text) as [|n] eqn:En; [lia|].
  cbn [unwrapFrom]. unfold text.
  rewrite (findFirst_open before _ Hb), (findFirst_close inner _ Hi).
  do 2 f_equal. apply unwrapFrom_fuel; lia.
Qed.

End UnwrapFacts.

(** Hiding and unhiding are inverse.  When the selected text holds no
    closing tag and the text before it no opening tag of a hidden span,
    "Hide selected text" followed by the unwrapping of "Unhide in note"
    gives back the text before the selection, the selection, and the
    unwrapped rest; when the rest holds no hidden span either, "Unhide
    in note" puts the old text of the note back. *)
Theorem hide_then_unhide_round_trip (e : Commands.Editor) :
  Commands.selection e <> [] ->
  Commands.findFirst Commands.obHideOpen (Commands.beforeSelection e) = None ->
  Commands.findFirst Commands.obHideClose (Commands.selection e) = None ->
  exists hidden,
    Commands.hideSelectedText e = Some hidden /\
    Commands.unwrapObHideInText (Commands.getValue hidden)
    = Commands.beforeSelection e ++ Commands.selection e
      ++ Commands.unwrapObHideInText (Commands.afterSelection e) /\
    (Commands.findFirst Commands.obHideOpen (Commands.afterSelection e) = None ->
     Commands.unhideInNote hidden = Some (Commands.setValue (Commands.getValue e))).
Proof.
  intros Hsel Hbefore Hinner.
  destruct e as [before sel after]. cbn [Commands.selection Commands.beforeSelection
    Commands.afterSelection] in *.
  exists (Commands.replaceSelection (hiddenSpan sel)
            {| Commands.beforeSelection := before; Commands.selection := sel;
               Commands.afterSelection := after |}).
  assert (Commands.unwrapObHideInText (before ++ hiddenSpan sel ++ after)
          = before ++ sel ++ Commands.unwrapObHideInText after) as Hunwrap
    by now apply unwrap_hidden.
  split; [|split].
  - unfold Commands.hideSelectedText. cbn [Commands.selection].
    now destruct sel.
  - unfold Commands.getValue, Commands.replaceSelection. cbn.
    rewrite <- app_assoc. exact Hunwrap.
  - intros Hafter. unfold Commands.unhideInNote, Commands.getValue, Commands.replaceSelection.
    cbn [Commands.selection Commands.beforeSelection Commands.afterSelection app].
    rewrite <- app_assoc, Hunwrap, (unwrap_no_open after Hafter).
    destruct (eqs (before ++ sel ++ after) (before ++ hiddenSpan sel ++ after)) eqn:E;
      [|reflexivity].
    apply eqs_eq in E. apply (f_equal (@length ascii)) in E.
    rewrite hiddenSpan_tags, !length_app in E.
    assert (0 < length Commands.obHideOpen) by (vm_compute; lia). lia.
Qed.

(** A word selected in the middle of a line. *)
Lemma hide_then_unhide_witness :
  exists hidden,
    Commands.hideSelectedText
      {| Commands.beforeSelection := js "a ";
         Commands.selection := js "secret";
         Commands.afterSelection := js " b" |} = Some hidden /\
    Commands.unhideInNote hidden = Some (Commands.setValue (js "a secret b")).
Proof.
  destruct (hide_then_unhide_round_trip
              {| Commands.beforeSelection := js "a ";
                 Commands.selection := js "secret";
                 Commands.afterSelection := js " b" |})
    as (hidden & Hhide & _ & Hunhide); [discriminate|reflexivity|reflexivity|].
  exists hidden. split; [exact Hhide|]. apply Hunhide. reflexivity.
Defined.

(** ** linksInNotes.ts: a second upsert *)

Section UpsertAgainFacts.
Import RegExp.

Lemma matchK_nil {T} (k : bool -> str -> option T) b s : matchK [] k b s = k b s.
Proof. reflexivity. Qed.

Lemma matchK_start {T} r (k : bool -> str -> option T) s :
  matchK (IStart :: r) k true s = matchK r k true s.
Proof. reflexivity. Qed.

Lemma matchK_one_cons {T} a r (k : bool -> str -> option T) b c s :
  matchK (IOne a :: r) k b (c :: s) = if atomMatches a c then matchK r k false s else None.
Proof. reflexivity. Qed.

Lemma matchK_one_nil {T} a r (k : bool -> str -> option T) b :
  matchK (IOne a :: r) k b [] = None.
Proof. reflexivity. Qed.

Lemma matchK_opt_skip {T} a r (k : bool -> str -> option T) b s :
  match s with [] => True | c :: _ => atomMatches a c = false end ->
  matchK (IOpt a :: r) k b s = matchK r k b s.
Proof. destruct s as [|c s]; [reflexivity|]. intros H. cbn [matchK]. now rewrite H. Qed.

Lemma matchK_star_skip {T} a r (k : bool -> str -> option T) b s :
  match s with [] => True | c :: _ => atomMatches a c = false end ->
  matchK (IStar a :: r) k b s = matchK r k b s.
Proof.
  destruct s as [|c s]; [reflexivity|]. intros H.
  rewrite matchK_star_cons. now rewrite H.
Qed.

Lemma startsWithText_no_space body :
  startsWithText body ->
  match body with [] => True | c :: _ => atomMatches ASpace c = false end.
Proof. destruct body; [easy|]. intros H. exact H. Qed.

Lemma startsWithText_no_newline body :
  startsWithText body ->
  match body with [] => True | c :: _ => atomMatches (AChar newline) c = false end.
Proof.
  destruct body as [|c body]; [easy|]. cbn [startsWithText atomMatches]. intros H.
  apply eqc_neq. intros <-. discriminate H.
Qed.

(** The separator the plugin wrote is the separator it strips, and
    nothing more, when the text after it does not begin with white
    space. *)
Lemma stripSeparator_written body :
  startsWithText body -> stripSeparator (js "---" ++ LF ++ LF ++ body) = body.
Proof.
  intros Hbody. unfold stripSeparator, replaceFirstWithEmpty.
  assert (matchHere separatorPattern true (js "---" ++ LF ++ LF ++ body) = Some body) as Hm.
  { unfold matchHere, separatorPattern.
    change (js "---" ++ LF ++ LF ++ body)
      with ("-"%char :: "-"%char :: "-"%char :: newline :: newline :: body).
    cbn [app lits map].
    rewrite matchK_start.
    rewrite matchK_star_skip by reflexivity.
    rewrite matchK_opt_skip by reflexivity.
    apply matchK_lits. exists (newline :: newline :: body). split; [reflexivity|].
    cbv iota.
    rewrite matchK_star_cons. change (atomMatches ASpace newline) with true. cbv iota.
    rewrite matchK_star_cons. change (atomMatches ASpace newline) with true. cbv iota.
    rewrite (matchK_star_skip _ _ _ _ body) by now apply startsWithText_no_space.
    assert (matchK [IOne (AChar newline); IStar ASpace] (fun _ rest => Some rest) false body
            = None) as ->.
    { destruct body as [|c body]; [reflexivity|].
      rewrite matchK_one_cons.
      now rewrite (startsWithText_no_newline (c :: body) Hbody). }
    rewrite matchK_one_cons. change (atomMatches (AChar newline) newline) with true.
    cbv iota.
    rewrite matchK_star_skip by now apply startsWithText_no_space.
    reflexivity. }
  change (js "---" ++ LF ++ LF ++ body)
    with ("-"%char :: (js "--" ++ LF ++ LF ++ body)) in *.
  cbn [execFrom]. now rewrite Hm.
Qed.

Lemma firstLine_cons c body :
  eqc c newline = false ->
  exists l ls, split newline (c :: body) = (c :: l) :: ls.
Proof.
  intros Hc. cbn [split]. rewrite Hc.
  pose proof (split_nonempty newline body) as Hne.
  destruct (split newline body) as [|l ls]; [contradiction|]. eauto.
Qed.

(** The leading lines [stripLeadingHubLinkLines] drops from a note that
    starts with the block. *)
Lemma strip_of_block s0 s folderName numbered separator body :
  let name := hubNameFor folderName (hubSuffix s) numbered in
  linkSafe name = true ->
  startsWithText body ->
  (separator = false -> body <> [] -> isHubLinkLine (firstLine body) None s = false) ->
  join LF (skipn (stripLeadingHubLinkLines
                    (blockLines s0 (wikiLink name) separator ++ split newline body) None s)
                 (blockLines s0 (wikiLink name) separator ++ split newline body))
  = (if separator then js "---" ++ LF ++ LF else []) ++ body.
Proof.
  intros name Hsafe Hbody Hfirst.
  pose proof (linkLine_isHubLinkLine s0 s folderName numbered Hsafe) as Hhub.
  fold name in Hhub.
  pose proof (linkLine_nonblank s0 name) as Hnb. unfold isBlankLine in Hnb.
  assert (forall tail,
            stripLeadingHubLinkLines
              (blockLines s0 (wikiLink name) separator ++ tail) None s
            = length (blockLines s0 (wikiLink name) false)
              + (if separator then 0 else stripLeadingHubLinkLines tail None s)) as Hstrip.
  { intros tail. unfold blockLines.
    destruct (removeHiddenBlink s0), separator;
      cbn [app stripLeadingHubLinkLines length Nat.add];
      change (eqs (trim []) []) with true; cbv iota;
      rewrite ?Hnb, ?Hhub; cbv iota;
      change (eqs (trim (js "---")) []) with false;
      change (isHubLinkLine (js "---") None s) with false; cbv iota;
      cbn [stripLeadingHubLinkLines]; change (eqs (trim []) []) with true; cbv iota;
      reflexivity. }
  assert (blockLines s0 (wikiLink name) separator
          = blockLines s0 (wikiLink name) false
            ++ (if separator then [js "---"; []] else [])) as Hblock.
  { unfold blockLines. rewrite app_nil_r. now rewrite <- !app_assoc. }
  rewrite Hstrip, Hblock. clear Hstrip Hblock.
  pose proof (split_nonempty newline body) as Hne.
  destruct separator.
  - rewrite Nat.add_0_r, <- app_assoc, skipn_app, Nat.sub_diag, skipn_all.
    cbn [skipn app].
    rewrite join_cons by discriminate. rewrite join_cons by exact Hne.
    rewrite join_split. reflexivity.
  - rewrite app_nil_r. cbn [app].
    assert (stripLeadingHubLinkLines (split newline body) None s
            = match body with [] => 1 | _ :: _ => 0 end) as ->.
    { destruct body as [|c body]; [reflexivity|].
      assert (eqc c newline = false) as Hc.
      { apply eqc_neq. intros ->. discriminate Hbody. }
      specialize (Hfirst eq_refl). unfold firstLine in Hfirst.
      destruct (firstLine_cons c body Hc) as (l & ls & E). rewrite E in *.
      cbn [hd] in Hfirst. cbn [stripLeadingHubLinkLines].
      assert (eqs (trim (c :: l)) [] = false) as ->
        by (apply eqs_neq; now apply trim_nonblank).
      now rewrite Hfirst by discriminate. }
    destruct body as [|c body].
    + rewrite skipn_all2; [reflexivity|]. rewrite length_app. simpl. lia.
    + rewrite Nat.add_0_r, skipn_app, Nat.sub_diag, skipn_all. cbn [app skipn].
      apply join_split.
Qed.

(** What [upsertHubLinkInNote] does to a note that is not a hub, in a
    folder whose hub carries its expected name. *)
Lemma upsert_regular_eval w note settings s folder hub content :
  nth_error (w_heap w) settings = Some s ->
  file_parent note = Some folder ->
  isRoot folder = false ->
  shouldSkipPath (folder_path folder) (pathSkipFromSettings s) = false ->
  waitForNumberedHubNow (w_vault w) folder s = Some hub ->
  file_basename note <> getExpectedHubNameForFolder (w_vault w) folder s ->
  readFile (w_vault w) (file_path note) = Some content ->
  let lines := split newline content in
  let rest := join LF (skipn (stripLeadingHubLinkLines lines None s) lines) in
  let separator := insertSeparatorAfterHubLink s in
  let tail := if separator then stripSeparator rest else rest in
  let link := wikiLink (getExpectedHubNameForFolder (w_vault w) folder s) in
  let newContent := newTopFor (Some link) separator s ++ tail in
  upsertHubLinkInNote note settings w =
  if eqs newContent content then Done tt w
  else (setWriteLock (file_path note) ;; vaultModify note newContent) w.
Proof.
  intros Hs Hparent Hroot Hskip Hhub Hnothub Hread lines rest separator tail link newContent.
  assert (getCorrectHubLinkForNote note settings w = Done (Some link) w) as Hlink.
  { unfold getCorrectHubLinkForNote. rewrite Hparent, Hroot.
    unfold bind, readSettings, getVault. rewrite Hs, Hskip, Hhub. reflexivity. }
  assert (isHubNote note settings w = Done false w) as Hnote.
  { unfold isHubNote. rewrite Hparent, Hroot.
    unfold bind, readSettings, getVault. rewrite Hs. unfold ret. f_equal.
    now apply eqs_neq. }
  unfold upsertHubLinkInNote. unfold bind at 1. rewrite Hlink.
  unfold bind at 1. unfold vaultRead at 1. rewrite Hread.
  unfold bind at 1. unfold readSettings at 1. rewrite Hs.
  unfold bind at 1. rewrite Hnote. cbv iota.
  unfold bind at 1. unfold readSettings at 1. rewrite Hs.
  cbn [isSome negb]. rewrite andb_true_r.
  fold lines. fold rest. fold separator.
  replace (if true && separator then stripSeparator rest else rest) with tail
    by (unfold tail; now destruct separator).
  fold newContent. destruct (eqs newContent content); reflexivity.
Qed.

End UpsertAgainFacts.

(** A second upsert writes nothing.  For a note that is not a hub, in a
    folder that is neither the root nor excluded and whose hub carries
    its expected name, when the note already reads: the block of the
    current settings, then a text that is empty or begins with a unit
    that is not white space (and, without the separator, whose first
    line is not a hub link), [upsertHubLinkInNote] returns without a
    write and leaves the state as it is. *)
Theorem upsert_again_writes_nothing w note settings s folder hub body :
  let name := getExpectedHubNameForFolder (w_vault w) folder s in
  let separator := insertSeparatorAfterHubLink s in
  nth_error (w_heap w) settings = Some s ->
  file_parent note = Some folder ->
  isRoot folder = false ->
  shouldSkipPath (folder_path folder) (pathSkipFromSettings s) = false ->
  waitForNumberedHubNow (w_vault w) folder s = Some hub ->
  file_basename note <> name ->
  linkSafe name = true ->
  readFile (w_vault w) (file_path note)
  = Some (newTopFor (Some (wikiLink name)) separator s ++ body) ->
  startsWithText body ->
  (separator = false -> body <> [] -> isHubLinkLine (firstLine body) None s = false) ->
  upsertHubLinkInNote note settings w = Done tt w.
Proof.
  intros name separator Hs Hparent Hroot Hskip Hhub Hnothub Hsafe Hread Hbody Hfirst.
  rewrite (upsert_regular_eval w note settings s folder hub _ Hs Hparent Hroot Hskip Hhub
             Hnothub Hread).
  fold name. fold separator.
  destruct (expected_is_hubNameFor (w_vault w) folder s) as [numbered Hname].
  fold name in Hname.
  assert (linkSafe (hubNameFor (folder_name folder) (hubSuffix s) numbered) = true) as Hsafe'
    by (rewrite <- Hname; exact Hsafe).
  rewrite (lines_of_block s name separator body Hsafe).
  rewrite Hname.
  rewrite (strip_of_block s s (folder_name folder) numbered separator body Hsafe' Hbody Hfirst).
  assert ((if separator
           then stripSeparator ((if separator then js "---" ++ LF ++ LF else []) ++ body)
           else (if separator then js "---" ++ LF ++ LF else []) ++ body) = body) as ->.
  { destruct separator; [|reflexivity].
    rewrite <- !app_assoc. now apply stripSeparator_written. }
  now rewrite eqs_refl.
Qed.

(** The note of folder Z after a first upsert. *)
Lemma upsert_again_witness :
  upsertHubLinkInNote Scenarios.noteN 0
    (Scenarios.noteWorld (Scenarios.linkBlock ++ js "body"))
  = Done tt (Scenarios.noteWorld (Scenarios.linkBlock ++ js "body")).
Proof.
  apply (upsert_again_writes_nothing
           (Scenarios.noteWorld (Scenarios.linkBlock ++ js "body")) Scenarios.noteN 0
           Scenarios.liveSettings Scenarios.dirZ (Scenarios.noteIn Scenarios.dirZ "Z_")
           (js "body")); try reflexivity; discriminate.
Defined.

(** ** linksInNotes.ts: the upsert of a hub note *)

Section HubNoteFacts.
Import RegExp.

Lemma split_join ls :
  Forall (fun l => memc newline l = false) ls -> ls <> [] ->
  split newline (join LF ls) = ls.
Proof.
  induction 1 as [|l ls Hl Hls IH]; [contradiction|]. intros _.
  destruct ls as [|l' ls]; [now apply split_no_sep|].
  rewrite join_cons by discriminate.
  change (l ++ LF ++ ?x) with (l ++ newline :: x).
  rewrite split_line by exact Hl. now rewrite IH.
Qed.

Lemma execFrom_anchored_none r s :
  matchHere (IStart :: r) true s = None -> execFrom (IStart :: r) true s = None.
Proof.
  intros H.
  assert (forall t, execFrom (IStart :: r) false t = None) as Hno.
  { induction t as [|c t IHt]; cbn [execFrom]; unfold matchHere; cbn [matchK];
      [reflexivity|now rewrite IHt]. }
  destruct s as [|c s]; cbn [execFrom]; rewrite H; [reflexivity|now rewrite Hno].
Qed.

(** A text that begins with the heading of a hub has no separator to
    strip. *)
Lemma stripSeparator_heading x :
  stripSeparator (js "## DIRECTORY" ++ x) = js "## DIRECTORY" ++ x.
Proof.
  unfold stripSeparator, replaceFirstWithEmpty, separatorPattern. cbn [app].
  rewrite execFrom_anchored_none; [reflexivity|].
  unfold matchHere. change (js "## DIRECTORY" ++ x) with ("#"%char :: js "# DIRECTORY" ++ x).
  rewrite matchK_start.
  rewrite matchK_star_skip by reflexivity.
  rewrite matchK_opt_skip by reflexivity.
  reflexivity.
Qed.

Lemma getCorrectHubLinkForNote_returns note settings s w :
  nth_error (w_heap w) settings = Some s ->
  exists correctLink, getCorrectHubLinkForNote note settings w = Done correctLink w.
Proof.
  intros Hs. unfold getCorrectHubLinkForNote.
  destruct (file_parent note) as [folder|]; [|now exists None].
  destruct (isRoot folder); [now exists None|].
  unfold bind, readSettings, getVault. rewrite Hs.
  destruct (shouldSkipPath _ _); [now exists None|].
  destruct (waitForNumberedHubNow _ _ _); eexists; reflexivity.
Qed.

(** The lines of the content of a hub under the default heading. *)
Lemma hubContentOf_lines v folder s :
  orElse (hubInsertTitle s) (js "## DIRECTORY") = js "## DIRECTORY" ->
  hubContentOf v folder s =
  join LF ([js "## DIRECTORY"; []]
           ++ match folder_parent folder with
              | Some parent =>
                  if negb (isRoot parent) && parentLinkForSubfolderHubs s
                  then [wikiLink (getExpectedHubNameForFolder v parent s); []]
                  else []
              | None => []
              end
           ++ [js "```display_folder_directory"; js "```"; []]).
Proof.
  intros Ht. unfold hubContentOf. rewrite Ht.
  destruct (folder_parent folder) as [parent|]; [|reflexivity].
  destruct (negb (isRoot parent) && parentLinkForSubfolderHubs s); [|reflexivity].
  now rewrite <- app_assoc.
Qed.

Lemma wikiLink_no_newline name : linkSafe name = true -> memc newline (wikiLink name) = false.
Proof.
  intros Hsafe. apply noLineTerminator_newline.
  apply linkSafe_spec in Hsafe as [_ Hn].
  unfold wikiLink. rewrite !noLineTerminator_app.
  split; [repeat constructor|]. split; [exact Hn|repeat constructor].
Qed.

(** [updateParentLinkUnderDirectory] leaves the content of a hub as
    [buildHubContent] writes it, when it is given the parent link that
    content holds. *)
Lemma updateParentLink_hub_lines (link : option str) :
  match link with
  | Some l => exists name, l = wikiLink name /\ name <> [] /\ linkSafe name = true
  | None => True
  end ->
  let lines := [js "## DIRECTORY"; []]
               ++ match link with Some l => [l; []] | None => [] end
               ++ [js "```display_folder_directory"; js "```"; []] in
  updateParentLinkUnderDirectory (join LF lines) link = join LF lines.
Proof.
  intros Hlink lines. unfold updateParentLinkUnderDirectory.
  assert (split newline (join LF lines) = lines) as ->.
  { apply split_join; [|discriminate]. unfold lines.
    destruct link as [l|]; [destruct Hlink as (name & -> & _ & Hsafe)|];
      repeat constructor. now apply wikiLink_no_newline. }
  unfold lines. destruct link as [l|].
  - destruct Hlink as (name & -> & Hne & Hsafe).
    cbn [app findIndex].
    change (test headingPattern (trim (js "## DIRECTORY"))) with true. cbv iota.
    cbn [Nat.add skipn takeWhileLines].
    change (isBlankLine []) with true. cbv iota.
    assert (isBlankLine (wikiLink name) = false) as ->.
    { unfold isBlankLine. rewrite trim_wikiLink. reflexivity. }
    cbn [length Nat.add nth_error].
    rewrite (extract_bare name Hne Hsafe). reflexivity.
  - cbn [app findIndex].
    change (test headingPattern (trim (js "## DIRECTORY"))) with true. cbv iota.
    reflexivity.
Qed.

End HubNoteFacts.

(** A link refresh leaves an up-to-date hub note alone.  For the hub
    note of a folder, with the default heading and the parent-link
    setting on, whose text is the content [buildHubContent] computes,
    and whose parent folder, if it is not the root, is not excluded and
    has a hub name that can stand in a link, [upsertHubLinkInNote]
    returns without a write and leaves the state as it is. *)
Theorem upsert_leaves_current_hub_note w note settings s folder :
  nth_error (w_heap w) settings = Some s ->
  orElse (hubInsertTitle s) (js "## DIRECTORY") = js "## DIRECTORY" ->
  parentLinkForSubfolderHubs s = true ->
  file_parent note = Some folder ->
  isRoot folder = false ->
  file_basename note = getExpectedHubNameForFolder (w_vault w) folder s ->
  readFile (w_vault w) (file_path note) = Some (hubContentOf (w_vault w) folder s) ->
  (forall parent,
     folder_parent folder = Some parent -> isRoot parent = false ->
     shouldSkipPath (folder_path parent) (pathSkipFromSettings s) = false /\
     linkSafe (getExpectedHubNameForFolder (w_vault w) parent s) = true) ->
  upsertHubLinkInNote note settings w = Done tt w.
Proof.
  intros Hs Htitle Hsetting Hparent Hroot Hbase Hread Hup.
  set (v := w_vault w) in *.
  set (content := hubContentOf v folder s) in *.
  set (parentLink :=
         match folder_parent folder with
         | Some parent =>
             if isRoot parent then None
             else Some (wikiLink (getExpectedHubNameForFolder v parent s))
         | None => None
         end).
  assert (content = join LF ([js "## DIRECTORY"; []]
                             ++ match parentLink with Some l => [l; []] | None => [] end
                             ++ [js "```display_folder_directory"; js "```"; []])) as Hcontent.
  { unfold content. rewrite hubContentOf_lines by exact Htitle. unfold parentLink.
    destruct (folder_parent folder) as [parent|]; [|reflexivity].
    rewrite Hsetting, andb_true_r. now destruct (isRoot parent). }
  assert (updateParentLinkUnderDirectory content parentLink = content) as Hupdate.
  { rewrite Hcontent. apply updateParentLink_hub_lines. unfold parentLink.
    destruct (folder_parent folder) as [parent|]; [|exact I].
    destruct (isRoot parent) eqn:Er; [exact I|].
    destruct (Hup parent eq_refl Er) as [_ Hsafe].
    exists (getExpectedHubNameForFolder v parent s). split; [reflexivity|].
    split; [|exact Hsafe].
    destruct (expected_is_hubNameFor v parent s) as [numbered ->].
    apply hubNameFor_nonempty. }
  assert (getCorrectParentLinkForHubNote note settings w = Done parentLink w) as Hpl.
  { unfold getCorrectParentLinkForHubNote. rewrite Hparent, Hroot. unfold parentLink.
    destruct (folder_parent folder) as [parent|]; [|reflexivity].
    destruct (isRoot parent) eqn:Er; [reflexivity|].
    destruct (Hup parent eq_refl Er) as [Hskip _].
    unfold bind, readSettings, getVault. rewrite Hs. fold v. now rewrite Hskip. }
  assert (isHubNote note settings w = Done true w) as Hnote.
  { unfold isHubNote. rewrite Hparent, Hroot.
    unfold bind, readSettings, getVault. rewrite Hs. unfold ret. f_equal.
    fold v. rewrite Hbase. apply eqs_refl. }
  assert (exists tailLines, split newline content = js "## DIRECTORY" :: tailLines)
    as [tailLines Hlines].
  { rewrite Hcontent. cbn [app]. rewrite join_cons by discriminate.
    unfold LF. cbn [app]. rewrite split_line by reflexivity. eauto. }
  assert (exists x, content = js "## DIRECTORY" ++ x) as [x Hx].
  { rewrite Hcontent. cbn [app]. rewrite join_cons by discriminate. eauto. }
  destruct (getCorrectHubLinkForNote_returns note settings s w Hs) as [correctLink Hlink].
  unfold upsertHubLinkInNote. unfold bind at 1. rewrite Hlink.
  unfold bind at 1. unfold vaultRead at 1. fold v. rewrite Hread.
  unfold bind at 1. unfold readSettings at 1. rewrite Hs.
  rewrite Hlines. cbn [stripLeadingHubLinkLines].
  change (eqs (trim (js "## DIRECTORY")) []) with false.
  change (isHubLinkLine (js "## DIRECTORY") None s) with false. cbv iota.
  cbn [skipn]. rewrite <- Hlines, join_split.
  assert ((if isSome correctLink then content else stripSeparator content) = content) as ->.
  { destruct correctLink; [reflexivity|]. rewrite Hx. apply stripSeparator_heading. }
  unfold bind at 1. rewrite Hnote. cbv iota.
  unfold bind at 1. rewrite Hpl.
  rewrite Hupdate, eqs_refl. reflexivity.
Qed.

(** The hub note of the top-level folder Z of the scenarios. *)
Lemma upsert_hub_note_witness :
  upsertHubLinkInNote (Scenarios.noteIn Scenarios.dirZ "Z_") 0
    (Scenarios.noteWorld (js "body"))
  = Done tt (Scenarios.noteWorld (js "body")).
Proof.
  apply (upsert_leaves_current_hub_note (Scenarios.noteWorld (js "body"))
           (Scenarios.noteIn Scenarios.dirZ "Z_") 0 Scenarios.liveSettings Scenarios.dirZ);
    try reflexivity.
  intros parent [= <-]. discriminate.
Defined.

(** ** What the engine leaves alone *)

Section FieldFrame.
Context {X : Type} (proj : World -> X).

Lemma keepsField_ret {A} (a : A) : keepsField proj (ret a).
Proof. now intros w. Qed.

Lemma keepsField_throw {A} : keepsField proj (@throw A).
Proof. now intros w. Qed.

Lemma keepsField_bind {A B} (m : M A) (f : A -> M B) :
  keepsField proj m -> (forall a, keepsField proj (f a)) -> keepsField proj (bind m f).
Proof.
  intros Hm Hf w. unfold bind. specialize (Hm w).
  destruct (m w) as [a w'|w']; simpl in *; [|exact Hm].
  now rewrite Hf.
Qed.

Lemma keepsField_catchAll m : keepsField proj m -> keepsField proj (catchAll m).
Proof. intros Hm w. unfold catchAll. specialize (Hm w). now destruct (m w). Qed.

Lemma keepsField_tryFinally body cleanup :
  keepsField proj body -> keepsField proj cleanup -> keepsField proj (tryFinally body cleanup).
Proof.
  intros Hb Hc w. unfold tryFinally. specialize (Hb w).
  destruct (body w) as [a w'|w']; simpl in Hb.
  - now rewrite Hc.
  - specialize (Hc w'). destruct (cleanup w'); simpl in *; congruence.
Qed.

Lemma keepsField_forEach {A} (xs : list A) body :
  (forall x, keepsField proj (body x)) -> keepsField proj (forEach xs body).
Proof.
  intros Hb. induction xs as [|x xs IH]; simpl.
  - apply keepsField_ret.
  - apply keepsField_bind; [apply Hb|intros _; exact IH].
Qed.

Lemma keepsField_modifyWorld f :
  (forall w, proj (f w) = proj w) -> keepsField proj (modifyWorld f).
Proof. intros Hf w. apply Hf. Qed.

Lemma keepsField_getWorld : keepsField proj getWorld.
Proof. now intros w. Qed.

Lemma keepsField_getVault : keepsField proj getVault.
Proof. now intros w. Qed.

Lemma keepsField_readSettings settings : keepsField proj (readSettings settings).
Proof. intros w. unfold readSettings. now destruct (nth_error _ _). Qed.

Lemma keepsField_vaultRead file : keepsField proj (vaultRead file).
Proof. intros w. unfold vaultRead. now destruct (readFile _ _). Qed.

End FieldFrame.

Create HintDb frame.

#[local] Hint Resolve keepsField_ret keepsField_throw keepsField_getWorld keepsField_getVault
  keepsField_readSettings keepsField_vaultRead : frame.

(** One step of a frame proof for a component. *)
Ltac frame_step :=
  lazymatch goal with
  | |- keepsField _ (bind _ _) => apply keepsField_bind; [|intros ?]
  | |- keepsField _ (forEach _ _) => apply keepsField_forEach; intros ?
  | |- keepsField _ (catchAll _) => apply keepsField_catchAll
  | |- keepsField _ (tryFinally _ _) => apply keepsField_tryFinally
  | |- keepsField _ (modifyWorld _) =>
      apply keepsField_modifyWorld; intros ?; solve [reflexivity | auto]
  | |- keepsField _ (if ?b then _ else _) => destruct b
  | |- keepsField _ (match ?x with _ => _ end) => destruct x
  | |- keepsField _ _ => solve [eauto with frame]
  end.

Ltac frame := repeat frame_step.

(** The vault operations and the passes built on them touch the vault,
    the lock table and the log of writes: a component that does not
    depend on these three is left as it is. *)
Section EngineFieldFrame.
Context {X : Type} (proj : World -> X).
Hypothesis proj_vault : forall v w, proj (setVault v w) = proj w.
Hypothesis proj_locks : forall l w, proj (setLocks l w) = proj w.
Hypothesis proj_writes : forall l w, proj (setWrites l w) = proj w.
#[local] Set Default Proof Using "All".

Lemma keepsField_setWriteLock path : keepsField proj (setWriteLock path).
Proof. intros w. apply proj_locks. Qed.

Lemma keepsField_isWriteLocked path : keepsField proj (isWriteLocked path).
Proof.
  intros w. unfold isWriteLocked. destruct (_ !! _); [|reflexivity].
  destruct (_ >=? _)%Z; [apply proj_locks|reflexivity].
Qed.

Lemma keepsField_logWrite x : keepsField proj (logWrite x).
Proof. intros w. apply proj_writes. Qed.

Hint Resolve keepsField_setWriteLock keepsField_isWriteLocked keepsField_logWrite : frame.

Lemma keepsField_vaultModify file data : keepsField proj (vaultModify file data).
Proof. unfold vaultModify. frame. Qed.

Lemma keepsField_vaultCreate path data : keepsField proj (vaultCreate path data).
Proof. unfold vaultCreate. frame. Qed.

Lemma keepsField_vaultRename file newPath : keepsField proj (vaultRename file newPath).
Proof. unfold vaultRename. frame. Qed.

Lemma keepsField_trashFile file : keepsField proj (trashFile file).
Proof. unfold trashFile. frame. Qed.

Hint Resolve keepsField_vaultModify keepsField_vaultCreate keepsField_vaultRename
  keepsField_trashFile : frame.

Lemma keepsField_buildHubContent folder settings :
  keepsField proj (buildHubContent folder settings).
Proof. unfold buildHubContent. frame. Qed.
Hint Resolve keepsField_buildHubContent : frame.

Lemma keepsField_ensureHubContentUpToDate hub folder settings :
  keepsField proj (ensureHubContentUpToDate hub folder settings).
Proof. unfold ensureHubContentUpToDate. frame. Qed.
Hint Resolve keepsField_ensureHubContentUpToDate : frame.

Lemma keepsField_ensureHubForFolder folder settings :
  keepsField proj (ensureHubForFolder folder settings).
Proof. unfold ensureHubForFolder. frame. Qed.
Hint Resolve keepsField_ensureHubForFolder : frame.

Lemma keepsField_renameHubAndRefresh hub folder expectedName settings :
  keepsField proj (renameHubAndRefresh hub folder expectedName settings).
Proof. unfold renameHubAndRefresh. frame. Qed.
Hint Resolve keepsField_renameHubAndRefresh : frame.

Lemma keepsField_assignNumberedHubsForName folderName settings :
  keepsField proj (assignNumberedHubsForName folderName settings).
Proof. unfold assignNumberedHubsForName. frame. Qed.
Hint Resolve keepsField_assignNumberedHubsForName : frame.

Lemma keepsField_trashHubChildren folder baseName pattern fuel index :
  keepsField proj (trashHubChildren folder baseName pattern fuel index).
Proof.
  revert index. induction fuel as [|fuel IH]; intros index; simpl; frame.
Qed.
Hint Resolve keepsField_trashHubChildren : frame.

Lemma keepsField_deleteAllHubFilesWithSuffix settings suffix :
  keepsField proj (deleteAllHubFilesWithSuffix settings suffix).
Proof. unfold deleteAllHubFilesWithSuffix. frame. Qed.
Hint Resolve keepsField_deleteAllHubFilesWithSuffix : frame.

Lemma keepsField_removeAllHubNotes settings : keepsField proj (removeAllHubNotes settings).
Proof. unfold removeAllHubNotes. frame. Qed.

Lemma keepsField_buildRefreshHubNotes settings :
  keepsField proj (buildRefreshHubNotes settings).
Proof. unfold buildRefreshHubNotes, migrateHubSuffix. frame. Qed.

Lemma keepsField_getCorrectHubLinkForNote note settings :
  keepsField proj (getCorrectHubLinkForNote note settings).
Proof. unfold getCorrectHubLinkForNote. frame. Qed.

Lemma keepsField_isHubNote note settings : keepsField proj (isHubNote note settings).
Proof. unfold isHubNote. frame. Qed.

Lemma keepsField_getCorrectParentLinkForHubNote note settings :
  keepsField proj (getCorrectParentLinkForHubNote note settings).
Proof. unfold getCorrectParentLinkForHubNote. frame. Qed.

Hint Resolve keepsField_getCorrectHubLinkForNote keepsField_isHubNote
  keepsField_getCorrectParentLinkForHubNote : frame.

Lemma keepsField_upsertHubLinkInNote note settings :
  keepsField proj (upsertHubLinkInNote note settings).
Proof. unfold upsertHubLinkInNote. frame. Qed.
Hint Resolve keepsField_upsertHubLinkInNote : frame.

Lemma keepsField_removeAllHubLinksFromNotes settings :
  keepsField proj (removeAllHubLinksFromNotes settings).
Proof. unfold removeAllHubLinksFromNotes. frame. Qed.

(** The link pass also writes the settings object. *)
Lemma keepsField_buildRefreshHubLinks settings :
  (forall h w, proj (setHeap h w) = proj w) ->
  keepsField proj (buildRefreshHubLinks settings).
Proof.
  intros proj_heap. unfold buildRefreshHubLinks. frame.
  intros w. unfold updateSettings. destruct (nth_error _ _); [apply proj_heap|reflexivity].
Qed.

End EngineFieldFrame.

(** ** main.ts: the startup refresh *)

Section StartupFacts.
Import Plugin.

Lemma nth_error_insert_eq {A} (l : list A) i x :
  i < length l -> nth_error (<[i := x]> l) i = Some x.
Proof.
  revert i. induction l as [|y l IH]; intros i Hi; [simpl in Hi; lia|].
  destruct i as [|i]; [reflexivity|]. simpl. apply IH. simpl in Hi. lia.
Qed.

Lemma nth_error_lt {A} (l : list A) i x : nth_error l i = Some x -> i < length l.
Proof. intros H. apply nth_error_Some. congruence. Qed.

Lemma withRealTimeUpdating_restore b s :
  withRealTimeUpdating (realTimeUpdating s) (withRealTimeUpdating b s) = s.
Proof. now destruct s. Qed.

Lemma withRealTimeUpdating_restore_migrated b p s :
  withRealTimeUpdating (realTimeUpdating s)
    (withPreviousHubSuffix p (withRealTimeUpdating b s))
  = withPreviousHubSuffix p s.
Proof. now destruct s. Qed.

Lemma keepsPlugin_buildRefreshHubNotes settings :
  keepsField w_plugin (buildRefreshHubNotes settings).
Proof. apply keepsField_buildRefreshHubNotes; intros; reflexivity. Qed.

Lemma keepsPlugin_buildRefreshHubLinks settings :
  keepsField w_plugin (buildRefreshHubLinks settings).
Proof. apply keepsField_buildRefreshHubLinks; intros; reflexivity. Qed.

Lemma saveSettings_eval w s :
  nth_error (w_heap w) (w_plugin w) = Some s ->
  saveSettings w = Done tt (setData (Some s) w).
Proof.
  intros Hs. unfold saveSettings, bind, getWorld, readSettings. now rewrite Hs.
Qed.

(** The two passes of the startup refresh: the plugin keeps its settings
    object, and the object is as before or has its migration marked. *)
Lemma startup_passes w s :
  nth_error (w_heap w) (w_plugin w) = Some s ->
  let body :=
    (let! r := pluginSettings in
     buildRefreshHubNotes r ;;
     saveSettings ;;
     let! r := pluginSettings in
     buildRefreshHubLinks r) in
  w_plugin (worldOf (body w)) = w_plugin w /\
  (w_heap (worldOf (body w)) = w_heap w \/
   w_heap (worldOf (body w)) = markMigrated (w_plugin w) (w_heap w) s).
Proof.
  intros Hs body. set (r := w_plugin w) in *.
  change (body w) with
    (match buildRefreshHubNotes r w with
     | Done _ wa =>
         match saveSettings wa with
         | Done _ wb => buildRefreshHubLinks (w_plugin wb) wb
         | Thrown wb => Thrown wb
         end
     | Thrown wa => Thrown wa
     end).
  pose proof (keepsHeap_buildRefreshHubNotes r w) as Hh.
  pose proof (keepsPlugin_buildRefreshHubNotes r w) as Hp. fold r in Hp.
  destruct (buildRefreshHubNotes r w) as [[] wa|wa]; cbn [worldOf] in *;
    [|split; [exact Hp|left; exact Hh]].
  rewrite (saveSettings_eval wa s) by (rewrite Hp, Hh; exact Hs).
  cbn [w_plugin setData]. rewrite Hp.
  pose proof (buildRefreshHubLinks_heap r (setData (Some s) wa)) as Hl.
  pose proof (keepsPlugin_buildRefreshHubLinks r (setData (Some s) wa)) as Hpl.
  destruct (buildRefreshHubLinks r (setData (Some s) wa)) as [[] wc|wc]; cbn [worldOf] in *.
  - split; [cbn in Hpl; congruence|]. right.
    destruct Hl as (s' & Hs' & Hheap). cbn [w_heap setData] in *.
    rewrite Hh in Hs', Hheap. now replace s with s' by congruence.
  - split; [cbn in Hpl; congruence|]. left. cbn [w_heap setData] in Hl. congruence.
Qed.

(** The [finally] block of the startup refresh. *)
Lemma startup_cleanup wasRealTime w s :
  nth_error (w_heap w) (w_plugin w) = Some s ->
  (let! r := pluginSettings in
   updateSettings r (withRealTimeUpdating wasRealTime) ;; saveSettings) w
  = Done tt (setData (Some (withRealTimeUpdating wasRealTime s))
               (setHeap (<[w_plugin w := withRealTimeUpdating wasRealTime s]> (w_heap w)) w)).
Proof.
  intros Hs. unfold pluginSettings.
  unfold bind at 1, getWorld at 1. unfold bind at 1, ret at 1.
  unfold bind at 1, updateSettings at 1. rewrite Hs.
  apply saveSettings_eval. cbn [w_heap w_plugin setHeap].
  apply nth_error_insert_eq. eapply nth_error_lt; exact Hs.
Qed.

Lemma tryFinally_world body cleanup w wf :
  cleanup (worldOf (body w)) = Done tt wf ->
  worldOf (tryFinally body cleanup w) = wf.
Proof.
  unfold tryFinally. destruct (body w) as [[] wb|wb]; cbn [worldOf]; now intros ->.
Qed.

End StartupFacts.

(** The startup refresh switches live sync off while it runs and puts
    it back.  Whether the two passes return or throw, the plugin holds
    the same settings object afterwards, the object is as it was before
    (live sync included) or differs by the previous suffix having been
    brought up to the current one, and it is what data.json holds. *)
Theorem startup_refresh_restores_live_sync w s :
  nth_error (w_heap w) (w_plugin w) = Some s ->
  let w' := worldOf (Plugin.runStartupRefresh w) in
  w_plugin w' = w_plugin w /\
  exists s',
    nth_error (w_heap w') (w_plugin w') = Some s' /\
    (s' = s \/ s' = withPreviousHubSuffix (Some (hubSuffix s)) s) /\
    realTimeUpdating s' = realTimeUpdating s /\
    w_data w' = Some s'.
Proof.
  intros Hs w'.
  set (r := w_plugin w) in *.
  set (off := withRealTimeUpdating false s).
  set (w1 := setHeap (<[r := off]> (w_heap w)) w).
  assert (r < length (w_heap w)) as Hlt by (eapply nth_error_lt; exact Hs).
  assert (nth_error (w_heap w1) (w_plugin w1) = Some off) as Hoff
    by (apply nth_error_insert_eq; exact Hlt).
  destruct (startup_passes w1 off Hoff) as [Hplugin Hheap]. cbv zeta in Hplugin, Hheap.
  match type of Hplugin with
  | w_plugin (worldOf (?b w1)) = _ => set (body := b) in *
  end.
  set (w2 := worldOf (body w1)) in *.
  change (w_plugin w1) with r in *.
  assert (exists s2, nth_error (w_heap w2) (w_plugin w2) = Some s2 /\
                     (withRealTimeUpdating (realTimeUpdating s) s2 = s \/
                      withRealTimeUpdating (realTimeUpdating s) s2
                      = withPreviousHubSuffix (Some (hubSuffix s)) s)) as (s2 & Hs2 & Hcases).
  { rewrite Hplugin. destruct Hheap as [-> | ->].
    - exists off. split; [exact Hoff|]. left. apply withRealTimeUpdating_restore.
    - exists (withPreviousHubSuffix (Some (hubSuffix off)) off).
      split; [apply nth_error_insert_eq; cbn; now rewrite length_insert|].
      right. apply withRealTimeUpdating_restore_migrated. }
  set (s3 := withRealTimeUpdating (realTimeUpdating s) s2) in *.
  assert (w' = setData (Some s3) (setHeap (<[w_plugin w2 := s3]> (w_heap w2)) w2)) as ->.
  { unfold w', Plugin.runStartupRefresh, Plugin.pluginSettings.
    unfold bind at 1, getWorld at 1. unfold bind at 1, ret at 1. fold r.
    unfold bind at 1, readSettings at 1. rewrite Hs.
    unfold bind at 1, updateSettings at 1. rewrite Hs. fold off. fold w1.
    apply tryFinally_world. fold body. fold w2.
    apply (startup_cleanup (realTimeUpdating s) w2 s2 Hs2). }
  cbn [w_plugin w_heap w_data setData setHeap].
  split; [exact Hplugin|]. exists s3.
  split; [apply nth_error_insert_eq; eapply nth_error_lt; exact Hs2|].
  split; [exact Hcases|]. split; [|reflexivity].
  destruct Hcases as [-> | ->]; reflexivity.
Qed.

(** The loaded plugin of the note scenario. *)
Lemma startup_refresh_witness :
  option_map realTimeUpdating
    (nth_error (w_heap (worldOf (Plugin.runStartupRefresh (Scenarios.noteWorld (js "body")))))
       0)
  = Some true.
Proof.
  destruct (startup_refresh_restores_live_sync (Scenarios.noteWorld (js "body"))
              Scenarios.liveSettings eq_refl) as (Hp & s' & Hs' & _ & Hrt & _).
  rewrite Hp in Hs'. cbn [w_plugin Scenarios.noteWorld Scenarios.loaded] in Hs'.
  rewrite Hs'. cbn [option_map]. now rewrite Hrt.
Defined.

(** ** hubContent.ts: what the removal of the hubs touches *)

Section TrashFacts.

Lemma withoutFile_fold_In trashed (fs : list (TFile * str)) e :
  In e (fold_left (fun fs f => withoutFile (file_path f) fs) trashed fs) -> In e fs.
Proof.
  revert fs. induction trashed as [|f trashed IH]; intros fs; [easy|].
  cbn [fold_left]. intros H. apply IH in H. unfold withoutFile in H.
  now apply filter_In in H.
Qed.

Lemma trashedOnly_refl P w : trashedOnly P w w.
Proof.
  exists []. split; [constructor|]. cbn. rewrite app_nil_r, setFiles_same. auto.
Qed.

Lemma trashedOnly_trans P w1 w2 w3 :
  trashedOnly P w1 w2 -> trashedOnly P w2 w3 -> trashedOnly P w1 w3.
Proof.
  intros (t1 & H1 & Hw1 & Hv1 & Hh1) (t2 & H2 & Hw2 & Hv2 & Hh2).
  exists (t1 ++ t2). split; [|split; [|split]].
  - apply List.Forall_app. split; [exact H1|].
    eapply List.Forall_impl; [|exact H2]. intros f [Hin Hp]. split; [|exact Hp].
    rewrite Hv1 in Hin. cbn [allFiles setFiles] in Hin.
    apply in_map_iff in Hin as (e & He & Hin). apply withoutFile_fold_In in Hin.
    apply in_map_iff. eauto.
  - rewrite Hw2, Hw1, map_app. now rewrite app_assoc.
  - rewrite Hv2, Hv1, fold_left_app. reflexivity.
  - congruence.
Qed.

(** A change of the lock table is no change of the vault. *)
Lemma trashedOnly_locks P w l : trashedOnly P w (setLocks l w).
Proof.
  exists []. split; [constructor|]. cbn. rewrite app_nil_r, setFiles_same. auto.
Qed.

Lemma trashFile_trashedOnly (P : TFile -> Prop) file w :
  In file (map fst (allFiles (w_vault w))) -> P file ->
  trashedOnly P w (worldOf (trashFile file w)).
Proof.
  intros Hin Hp. unfold trashFile, bind, getVault.
  destruct (pathIsFile (w_vault w) (file_path file)); [|apply trashedOnly_refl].
  cbn. exists [file]. split; [repeat constructor; assumption|]. cbn. auto.
Qed.

Lemma children_file v folder index child :
  nth_error (children v folder) index = Some (AFile child) ->
  In child (map fst (allFiles v)) /\ parentIs folder (file_parent child) = true.
Proof.
  intros H. apply nth_error_In in H. unfold children in H.
  apply in_app_or in H as [H|H].
  - apply in_map_iff in H as (f & [= ->] & Hin). now apply filter_In in Hin.
  - apply in_map_iff in H as (d & [=] & _).
Qed.

Lemma trashHubChildren_trashedOnly folder suffix fuel index w :
  trashedOnly
    (fun f => parentIs folder (file_parent f) = true /\
              hubShaped (folder_name folder) suffix (file_basename f))
    w
    (worldOf (trashHubChildren folder (getHubNameForFolder (folder_name folder) suffix)
                (getNumberedHubPattern (folder_name folder) suffix) fuel index w)).
Proof.
  revert index w. induction fuel as [|fuel IH]; intros index w; [apply trashedOnly_refl|].
  cbn [trashHubChildren]. unfold bind at 1, getVault at 1.
  destruct (nth_error (children (w_vault w) folder) index) as [[child|d]|] eqn:E;
    [|apply IH|apply trashedOnly_refl].
  apply children_file in E as [Hin Hparent].
  fold (isHubBasename (folder_name folder) suffix (file_basename child)).
  destruct (isHubBasename (folder_name folder) suffix (file_basename child)) eqn:Eh.
  - unfold bind at 1. unfold bind at 1. cbn [setWriteLock modifyWorld].
    set (wl := setLocks _ w).
    pose proof (trashFile_trashedOnly
                  (fun f => parentIs folder (file_parent f) = true /\
                            hubShaped (folder_name folder) suffix (file_basename f))
                  child wl Hin (conj Hparent (proj1 (isHubBasename_shaped _ _ _) Eh))) as Ht.
    destruct (trashFile child wl) as [[] wt|wt]; cbn [worldOf] in *.
    + eapply trashedOnly_trans; [|apply IH].
      eapply trashedOnly_trans; [apply trashedOnly_locks|exact Ht].
    + eapply trashedOnly_trans; [apply trashedOnly_locks|exact Ht].
  - unfold bind at 1, ret at 1. apply IH.
Qed.

Lemma forEach_trashedOnly {A} P (xs : list A) body :
  (forall x w, trashedOnly P w (worldOf (body x w))) ->
  forall w, trashedOnly P w (worldOf (forEach xs body w)).
Proof.
  intros Hb. induction xs as [|x xs IH]; intros w; [apply trashedOnly_refl|].
  cbn [forEach]. unfold bind. specialize (Hb x w).
  destruct (body x w) as [[] w1|w1]; cbn [worldOf] in *; [|exact Hb].
  eapply trashedOnly_trans; [exact Hb|apply IH].
Qed.

Lemma trashedOnly_weaken (P Q : TFile -> Prop) w w' :
  (forall f, P f -> Q f) -> trashedOnly P w w' -> trashedOnly Q w w'.
Proof.
  intros Hpq (t & Ht & Hrest). exists t. split; [|exact Hrest].
  eapply List.Forall_impl; [|exact Ht]. intros f [Hin Hp]. auto.
Qed.

Lemma trashedOnly_folders P w w' :
  trashedOnly P w w' -> allFolders (w_vault w') = allFolders (w_vault w).
Proof. intros (t & _ & _ & -> & _). reflexivity. Qed.

Lemma hubShaped_orElse folderName suffix basename :
  hubShaped folderName (orElse suffix (js "_")) basename <->
  hubShaped folderName suffix basename.
Proof. unfold hubShaped. now rewrite orElse_idem. Qed.

Lemma deleteAllHubFilesWithSuffix_trashedOnly settings s suffix w :
  nth_error (w_heap w) settings = Some s ->
  trashedOnly (removableHub (w_vault w) s suffix) w
    (worldOf (deleteAllHubFilesWithSuffix settings suffix w)).
Proof.
  intros Hs. unfold deleteAllHubFilesWithSuffix.
  unfold bind at 1, readSettings at 1. rewrite Hs.
  unfold bind at 1, getVault at 1.
  set (v := w_vault w).
  assert (forall folders w1,
            (forall folder, In folder folders -> In folder (allFolders v)) ->
            trashedOnly (removableHub v s suffix) w1
              (worldOf (forEach folders
                (fun folder =>
                   if shouldSkipPath (folder_path folder) (pathSkipFromSettings s)
                   then ret tt
                   else if isRootFolder (folder_path folder) then ret tt
                   else
                     let baseName := getHubNameForFolder (folder_name folder) suffix in
                     let numberedPattern :=
                       getNumberedHubPattern (folder_name folder) suffix in
                     let! v := getVault in
                     trashHubChildren folder baseName numberedPattern
                       (length (children v folder)) 0) w1))) as Hloop.
  { induction folders as [|folder folders IH]; intros w1 Hall; [apply trashedOnly_refl|].
    cbn [forEach]. unfold bind at 1.
    assert (trashedOnly (removableHub v s suffix) w1
              (worldOf ((if shouldSkipPath (folder_path folder) (pathSkipFromSettings s)
                         then ret tt
                         else if isRootFolder (folder_path folder) then ret tt
                         else
                           let! v := getVault in
                           trashHubChildren folder
                             (getHubNameForFolder (folder_name folder) suffix)
                             (getNumberedHubPattern (folder_name folder) suffix)
                             (length (children v folder)) 0) w1))) as Hstep.
    { destruct (shouldSkipPath _ _) eqn:Eskip; [apply trashedOnly_refl|].
      destruct (isRootFolder _); [apply trashedOnly_refl|].
      unfold bind, getVault.
      eapply trashedOnly_weaken; [|apply trashHubChildren_trashedOnly].
      intros f [Hparent Hshape]. exists folder.
      split; [apply Hall; now left|]. auto. }
    cbv zeta.
    match goal with
    | |- trashedOnly _ _ (worldOf (match ?m w1 with _ => _ end)) =>
        destruct (m w1) as [[] w2|w2]; cbn [worldOf] in *
    end; [|exact Hstep].
    eapply trashedOnly_trans; [exact Hstep|].
    apply IH. intros d Hd. apply Hall. now right. }
  apply Hloop. auto.
Qed.

Lemma withoutFile_fold_filter trashed (fs : list (TFile * str)) :
  fold_left (fun fs f => withoutFile (file_path f) fs) trashed fs =
  List.filter
    (fun e => negb (List.existsb (fun f => eqs (file_path (fst e)) (file_path f)) trashed))
    fs.
Proof.
  revert fs. induction trashed as [|f trashed IH]; intros fs; cbn [fold_left List.existsb].
  - cbn [negb]. induction fs as [|e fs IHfs]; [reflexivity|]. cbn. now rewrite <- IHfs.
  - rewrite IH. unfold withoutFile. clear IH.
    induction fs as [|e fs IHfs]; [reflexivity|]. cbn [List.filter].
    destruct (eqs (file_path (fst e)) (file_path f)); cbn [negb orb].
    + exact IHfs.
    + cbn [List.filter]. destruct (negb _); [now rewrite IHfs|exact IHfs].
Qed.

End TrashFacts.

(** "Remove hub notes" removes hub notes and nothing else.  Whether the
    pass returns or throws, all it has done to the vault is trash files
    that were children of a folder of the vault that is not excluded and
    whose basename is the folder name, the suffix, and digits or
    nothing: the log of writes has grown by one trash entry for each of
    these, the folders are as before, and every other file is there
    with its text unchanged. *)
Theorem remove_hub_notes_trashes_only_hubs settings s w :
  nth_error (w_heap w) settings = Some s ->
  let v := w_vault w in
  let w' := worldOf (removeAllHubNotes settings w) in
  exists trashed : list TFile,
    Forall (fun f => In f (map fst (allFiles v)) /\ removableHub v s (hubSuffix s) f) trashed /\
    w_writes w' = w_writes w ++ map (fun f => WTrash (file_path f)) trashed /\
    allFolders (w_vault w') = allFolders v /\
    allFiles (w_vault w') =
      List.filter
        (fun e => negb (List.existsb (fun f => eqs (file_path (fst e)) (file_path f)) trashed))
        (allFiles v) /\
    w_heap w' = w_heap w.
Proof.
  intros Hs v w'.
  assert (removeAllHubNotes settings w
          = deleteAllHubFilesWithSuffix settings (orElse (hubSuffix s) (js "_")) w) as Heval.
  { unfold removeAllHubNotes. unfold bind at 1, readSettings at 1. now rewrite Hs. }
  unfold w'. rewrite Heval.
  destruct (deleteAllHubFilesWithSuffix_trashedOnly settings s
              (orElse (hubSuffix s) (js "_")) w Hs) as (trashed & Ht & Hw & Hv & Hh).
  exists trashed. split; [|split; [exact Hw|split; [|split; [|exact Hh]]]].
  - eapply List.Forall_impl; [|exact Ht]. intros f [Hin (folder & Hf & Hskip & Hp & Hshape)].
    split; [exact Hin|]. exists folder. repeat split; try assumption.
    now apply hubShaped_orElse.
  - now rewrite Hv.
  - rewrite Hv. cbn [allFiles setFiles]. apply withoutFile_fold_filter.
Qed.

(** The vault of the note scenario: what is trashed is a hub. *)
Lemma remove_hub_notes_witness :
  exists trashed : list TFile,
    Forall (fun f => removableHub (w_vault (Scenarios.noteWorld (js "body")))
                       Scenarios.liveSettings (js "_") f) trashed /\
    w_writes (worldOf (removeAllHubNotes 0 (Scenarios.noteWorld (js "body"))))
    = map (fun f => WTrash (file_path f)) trashed.
Proof.
  destruct (remove_hub_notes_trashes_only_hubs 0 Scenarios.liveSettings
              (Scenarios.noteWorld (js "body")) eq_refl)
    as (trashed & Ht & Hw & _).
  exists trashed. split; [|exact Hw].
  eapply List.Forall_impl; [|exact Ht]. now intros f [_ Hf].
Defined.

(** ** settings.ts: the excluded folder names *)

Section SkipNamesFacts.
Import SettingsTab.

Lemma dropWhile_suffix (p : ascii -> bool) l : exists pre, l = pre ++ dropWhile p l.
Proof.
  induction l as [|c l [pre IH]]; [now exists []|]. cbn [dropWhile].
  destruct (p c); [|now exists []].
  exists (c :: pre). cbn [app]. now f_equal.
Qed.

Lemma dropWhile_head (p : ascii -> bool) l :
  match dropWhile p l with [] => True | c :: _ => p c = false end.
Proof.
  induction l as [|c l IH]; [exact I|]. cbn [dropWhile].
  destruct (p c) eqn:E; [exact IH|exact E].
Qed.

(** [trim] answers the empty string or a string with no white space at
    either end. *)
Lemma trim_ends s :
  trim s = [] \/
  (match trim s with c :: _ => isSpace c = false | [] => True end /\
   match rev (trim s) with d :: _ => isSpace d = false | [] => True end).
Proof.
  unfold trim. set (y := dropWhile isSpace s).
  pose proof (dropWhile_head isSpace s) as Hy. fold y in Hy.
  destruct y as [|c y]; [now left|].
  pose proof (dropWhile_head isSpace (rev (c :: y))) as Hz.
  destruct (dropWhile_suffix isSpace (rev (c :: y))) as [pre Hpre].
  remember (dropWhile isSpace (rev (c :: y))) as z eqn:Ez.
  destruct z as [|d z].
  - exfalso.
    assert (dropWhile isSpace (rev (c :: y)) <> []) as Hne.
    { cbn [rev]. clear -Hy. induction (rev y) as [|x l IH]; cbn [app dropWhile].
      - now rewrite Hy.
      - destruct (isSpace x); [exact IH|discriminate]. }
    now apply Hne.
  - right. rewrite rev_involutive. split; [|exact Hz].
    apply (f_equal (@rev ascii)) in Hpre. rewrite rev_involutive, rev_app_distr in Hpre.
    destruct (rev (d :: z)) as [|c' t] eqn:E.
    + apply (f_equal (@rev ascii)) in E. rewrite rev_involutive in E. discriminate E.
    + cbn [app] in Hpre. injection Hpre as <- _. exact Hy.
Qed.

Lemma trim_idem s : trim (trim s) = trim s.
Proof.
  destruct (trim_ends s) as [-> | [Hh Hl]]; [reflexivity|].
  now apply trim_id.
Qed.

Lemma memc_app c a b : memc c (a ++ b) = memc c a || memc c b.
Proof. unfold memc. apply existsb_app. Qed.

Lemma memc_rev c a : memc c (rev a) = memc c a.
Proof.
  induction a as [|x a IH]; [reflexivity|]. cbn [rev]. rewrite memc_app, IH.
  unfold memc. cbn [List.existsb]. rewrite orb_false_r. apply orb_comm.
Qed.

Lemma memc_dropWhile c p l : memc c l = false -> memc c (dropWhile p l) = false.
Proof.
  intros H. destruct (dropWhile_suffix p l) as [pre Hpre].
  rewrite Hpre, memc_app in H. now apply orb_false_elim in H as [_ H].
Qed.

Lemma memc_trim c s : memc c s = false -> memc c (trim s) = false.
Proof.
  intros H. unfold trim. rewrite memc_rev. apply memc_dropWhile.
  rewrite memc_rev. now apply memc_dropWhile.
Qed.

Lemma split_pieces sep s : Forall (fun l => memc sep l = false) (split sep s).
Proof.
  induction s as [|c s IH]; [repeat constructor|]. cbn [split].
  destruct (eqc c sep) eqn:E; [constructor; [reflexivity|exact IH]|].
  destruct (split sep s) as [|l ls]; [repeat constructor; unfold memc; cbn;
    rewrite orb_false_r; apply eqc_neq; apply eqc_neq in E; congruence|].
  inversion IH; subst. constructor; [|assumption].
  unfold memc in *. cbn [List.existsb]. apply orb_false_iff. split; [|assumption].
  apply eqc_neq. apply eqc_neq in E. congruence.
Qed.

Lemma split_skipFolderNamesText names :
  Forall storedName names ->
  map trim (split ","%char (skipFolderNamesText names)) =
  match names with [] => [[]] | _ :: _ => names end.
Proof.
  unfold skipFolderNamesText.
  induction 1 as [|n names Hn Hnames IH]; [reflexivity|].
  destruct Hn as (Hne & Hcomma & Htrim).
  destruct names as [|m names].
  - cbn [join]. rewrite split_no_sep by exact Hcomma. cbn [map]. now rewrite Htrim.
  - rewrite join_cons by discriminate.
    change (n ++ js ", " ++ ?x) with (n ++ ","%char :: (" "%char :: x)).
    rewrite split_app, split_no_sep by exact Hcomma.
    cbn [app map]. rewrite Htrim. f_equal.
    assert (forall x, map trim (split ","%char (" "%char :: x)) = map trim (split ","%char x))
      as Hsp.
    { intros x. cbn [split]. change (eqc " "%char ","%char) with false. cbv iota.
      pose proof (split_nonempty ","%char x) as Hx.
      destruct (split ","%char x) as [|l ls]; [contradiction|]. reflexivity. }
    rewrite Hsp. exact IH.
Qed.

End SkipNamesFacts.

(** The field of the excluded folder names shows what it stored.  A list
    of names that are not empty, hold no comma and have no white space
    at either end is read back from the text the field shows for it; and
    every list the field stores, whatever was typed, is such a list. *)
Theorem skip_names_field_round_trip :
  (forall names,
     Forall SettingsTab.storedName names ->
     SettingsTab.parseSkipFolderNames (SettingsTab.skipFolderNamesText names) = names) /\
  (forall typed, Forall SettingsTab.storedName (SettingsTab.parseSkipFolderNames typed)).
Proof.
  split.
  - intros names Hnames. unfold SettingsTab.parseSkipFolderNames.
    rewrite split_skipFolderNamesText by exact Hnames.
    destruct names as [|n names]; [reflexivity|].
    induction Hnames as [|m l (Hne & _) _ IH]; [reflexivity|].
    cbn [List.filter]. destruct m; [contradiction|]. cbn [nonEmpty]. now rewrite IH.
  - intros typed. unfold SettingsTab.parseSkipFolderNames.
    apply List.Forall_forall. intros name Hin.
    apply filter_In in Hin as [Hin Hne].
    apply in_map_iff in Hin as (piece & <- & Hpiece).
    split; [now destruct (trim piece)|]. split; [|apply trim_idem].
    apply memc_trim.
    pose proof (split_pieces ","%char typed) as Hp.
    rewrite List.Forall_forall in Hp. now apply Hp.
Qed.

(** ** settings.ts: the suffix field *)

(** The suffix field keeps the suffix usable in a file name.  When the
    current suffix is not empty and holds none of the refused
    characters, then after any input is saved the suffix is still so;
    the settings are untouched, or the suffix is the input (the
    underscore for the empty input), the suffix it replaces is kept as
    the previous one, and the settings are saved. *)
Theorem save_suffix_keeps_suffix_valid w s typed :
  nth_error (w_heap w) (w_plugin w) = Some s ->
  hubSuffix s <> [] ->
  Plugin.hasInvalidChars (hubSuffix s) = false ->
  exists w' s',
    Plugin.saveSuffix typed w = Done tt w' /\
    nth_error (w_heap w') (w_plugin w') = Some s' /\
    hubSuffix s' <> [] /\
    Plugin.hasInvalidChars (hubSuffix s') = false /\
    (w' = w /\ s' = s \/
     Plugin.hasInvalidChars typed = false /\
     hubSuffix s' = orElse typed (js "_") /\
     hubSuffix s' <> hubSuffix s /\
     previousHubSuffix s' = Some (hubSuffix s) /\
     w_data w' = Some s').
Proof.
  intros Hs Hne Hvalid.
  assert (forall pending,
            eqs pending (hubSuffix s) = true ->
            (if eqs pending (hubSuffix s) then ret tt
             else updateSettings (w_plugin w)
                    (fun s0 => withHubSuffix pending
                                 (withPreviousHubSuffix (Some (hubSuffix s0)) s0)) ;;
                  saveSettings) w = Done tt w) as Hsame
    by (intros pending ->; reflexivity).
  unfold Plugin.saveSuffix, Plugin.pluginSettings.
  unfold bind at 1, getWorld at 1. unfold bind at 1, ret at 1.
  unfold bind at 1, readSettings at 1. rewrite Hs.
  destruct (Plugin.hasInvalidChars typed) eqn:Etyped.
  - exists w, s. rewrite Hsame by apply eqs_refl. auto 10.
  - destruct (eqs (orElse typed (js "_")) (hubSuffix s)) eqn:Esame.
    + exists w, s. auto 10.
    + set (s' := withHubSuffix (orElse typed (js "_"))
                   (withPreviousHubSuffix (Some (hubSuffix s)) s)).
      assert (w_plugin w < length (w_heap w)) as Hlt by (eapply nth_error_lt; exact Hs).
      exists (setData (Some s') (setHeap (<[w_plugin w := s']> (w_heap w)) w)), s'.
      split.
      { unfold bind at 1, updateSettings at 1. rewrite Hs.
        apply saveSettings_eval. now apply nth_error_insert_eq. }
      split; [now apply nth_error_insert_eq|].
      split; [apply orElse_nonempty; discriminate|].
      split; [cbn [s' hubSuffix withHubSuffix]; destruct typed; [reflexivity|exact Etyped]|].
      right. split; [reflexivity|]. split; [reflexivity|].
      split; [now apply eqs_neq in Esame|]. split; reflexivity.
Qed.

(** The default settings and the inputs [--] and [a/b]. *)
Lemma save_suffix_witness :
  (exists w',
     Plugin.saveSuffix (js "--") (Scenarios.noteWorld (js "body")) = Done tt w' /\
     option_map hubSuffix (nth_error (w_heap w') 0) = Some (js "--")) /\
  Plugin.saveSuffix (js "a/b") (Scenarios.noteWorld (js "body"))
  = Done tt (Scenarios.noteWorld (js "body")).
Proof.
  split.
  - destruct (save_suffix_keeps_suffix_valid (Scenarios.noteWorld (js "body"))
                Scenarios.liveSettings (js "--") eq_refl)
      as (w' & s' & Hrun & Hs' & _ & _ & [[-> _]|(_ & Hsuffix & _)]);
      [discriminate|reflexivity| |].
    + vm_compute in Hrun. discriminate Hrun.
    + exists w'. split; [exact Hrun|].
      assert (w_plugin w' = 0) as Hp
        by (vm_compute in Hrun; injection Hrun as <-; reflexivity).
      rewrite Hp in Hs'. rewrite Hs'. cbn [option_map]. now rewrite Hsuffix.
  - destruct (save_suffix_keeps_suffix_valid (Scenarios.noteWorld (js "body"))
                Scenarios.liveSettings (js "a/b") eq_refl)
      as (w' & s' & Hrun & _ & _ & _ & [[-> _]|(Hbad & _)]);
      [discriminate|reflexivity|exact Hrun|].
    vm_compute in Hbad. discriminate Hbad.
Defined.

(** ** main.ts: the hubs stay removed across a restart *)

Section PausedFacts.
Import Plugin.

Lemma handlerStops_paused settings s w :
  nth_error (w_heap w) settings = Some s ->
  autoCreateSuppressedUntilBuildRefresh s = true ->
  handlerStops settings w = Done true w.
Proof.
  intros Hs Hflag. unfold handlerStops, bind, readSettings. rewrite Hs, Hflag.
  now destruct (realTimeUpdating s).
Qed.

Lemma isWriteLocked_answer path w :
  exists answer w',
    isWriteLocked path w = Done answer w' /\
    w_vault w' = w_vault w /\ w_writes w' = w_writes w /\
    w_heap w' = w_heap w /\ w_startupTimer w' = w_startupTimer w.
Proof.
  unfold isWriteLocked. destruct (w_locks w !! path); [|eexists _, _; eauto].
  destruct (_ >=? _)%Z; eexists _, _; eauto.
Qed.

(** A vault event, or the startup timer when none is scheduled, under
    handlers whose settings object has the flag set: nothing is
    written. *)
Lemma paused_event_writes_nothing w r s e :
  w_handlers w = Some r ->
  nth_error (w_heap w) r = Some s ->
  autoCreateSuppressedUntilBuildRefresh s = true ->
  w_startupTimer w = false ->
  match e with
  | VaultCreate _ | VaultRename _ _ | VaultDelete _ | StartupTimerFires => True
  | _ => False
  end ->
  w_vault (worldOf (step e w)) = w_vault w /\ w_writes (worldOf (step e w)) = w_writes w.
Proof.
  intros Hh Hs Hflag Htimer He.
  assert (forall w1, w_heap w1 = w_heap w -> handlerStops r w1 = Done true w1) as Hstop.
  { intros w1 Hheap. apply handlerStops_paused with (s := s); [|exact Hflag].
    now rewrite Hheap. }
  enough (forall P : World -> Prop,
            (forall w', w_vault w' = w_vault w -> w_writes w' = w_writes w -> P w') ->
            P (worldOf (step e w))) as Hquiet
    by (apply Hquiet; auto).
  intros P Hp.
  destruct e; try contradiction; cbn [step].
  - unfold bind, getWorld. rewrite Htimer. now apply Hp.
  - unfold withHandlers, bind at 1, getWorld at 1. rewrite Hh.
    unfold onVaultCreate, bind at 1.
    destruct (isWriteLocked_answer (abstract_path file) w)
      as (answer & w1 & -> & Hv & Hw & Hheap & _).
    destruct answer; [now apply Hp|].
    destruct file as [f|d]; unfold catchAll, onFileCreate, onFolderCreate, bind at 1;
      rewrite (Hstop w1 Hheap); now apply Hp.
  - unfold withHandlers, bind at 1, getWorld at 1. rewrite Hh.
    unfold onVaultRename.
    destruct file as [f|d].
    + unfold catchAll, onFileRename, bind at 1. rewrite (Hstop w eq_refl). now apply Hp.
    + unfold bind at 1.
      destruct (isWriteLocked_answer (folder_path d) w)
        as (a1 & w1 & -> & Hv1 & Hw1 & Hheap1 & _).
      destruct a1; [now apply Hp|].
      unfold bind at 1.
      destruct (isWriteLocked_answer oldPath w1)
        as (a2 & w2 & -> & Hv2 & Hw2 & Hheap2 & _).
      destruct a2; [apply Hp; cbn; congruence|].
      unfold catchAll, onFolderRename, bind at 1.
      rewrite (Hstop w2) by congruence. apply Hp; cbn; congruence.
  - unfold withHandlers, bind at 1, getWorld at 1. rewrite Hh.
    unfold onVaultDelete. destruct file as [f|d]; [now apply Hp|].
    unfold catchAll, onFolderDelete, bind at 1. rewrite (Hstop w eq_refl). now apply Hp.
Qed.

Lemma keepsData_removeAllHubNotes settings :
  keepsField w_data (removeAllHubNotes settings).
Proof. apply keepsField_removeAllHubNotes; intros; reflexivity. Qed.

End PausedFacts.

(** The hubs stay removed across a restart.  After "Remove hub notes",
    whether the removal returned or threw, data.json holds the settings
    with the suppression flag set.  When Obsidian then loads the plugin
    from that data.json, no startup refresh is scheduled, and no vault
    event writes to the vault. *)
Theorem remove_then_reload_stays_paused w s :
  nth_error (w_heap w) (w_plugin w) = Some s ->
  let removed := worldOf (Plugin.removeAllHubNotesCommand w) in
  w_data removed = Some (withAutoCreateSuppressed true s) /\
  forall restarted,
    w_data restarted = w_data removed ->
    w_startupTimer restarted = false ->
    exists loaded,
      Plugin.onload restarted = Done tt loaded /\
      w_startupTimer loaded = false /\
      w_vault loaded = w_vault restarted /\
      forall e,
        match e with
        | Plugin.VaultCreate _ | Plugin.VaultRename _ _ | Plugin.VaultDelete _
        | Plugin.StartupTimerFires => True
        | _ => False
        end ->
        w_vault (worldOf (Plugin.step e loaded)) = w_vault loaded /\
        w_writes (worldOf (Plugin.step e loaded)) = w_writes loaded.
Proof.
  intros Hs removed.
  set (s1 := withAutoCreateSuppressed true s).
  assert (w_data removed = Some s1) as Hdata.
  { unfold removed, Plugin.removeAllHubNotesCommand, Plugin.pluginSettings.
    unfold bind at 1, getWorld at 1. unfold bind at 1, ret at 1.
    unfold bind at 1, updateSettings at 1. rewrite Hs. fold s1.
    unfold bind at 1.
    rewrite (saveSettings_eval _ s1)
      by (apply nth_error_insert_eq; eapply nth_error_lt; exact Hs).
    unfold bind at 1, getWorld at 1. unfold bind at 1, ret at 1.
    now rewrite keepsData_removeAllHubNotes. }
  split; [exact Hdata|].
  intros restarted Hsame Htimer. rewrite Hdata in Hsame.
  set (r := length (w_heap restarted)).
  set (loaded := setHandlers (Some r)
                   (setPlugin r (setHeap (w_heap restarted ++ [s1]) restarted))).
  assert (nth_error (w_heap loaded) r = Some s1) as Hr.
  { cbn. unfold r. now rewrite nth_error_app2, Nat.sub_diag by lia. }
  exists loaded. split; [|split; [exact Htimer|split; [reflexivity|]]].
  - unfold Plugin.onload, Plugin.loadSettings.
    unfold bind at 1. unfold bind at 1, getWorld at 1. rewrite Hsame.
    unfold bind at 1, newSettings at 1. cbn [modifyWorld].
    unfold bind at 1. cbn [registerVaultEvents modifyWorld w_plugin setPlugin].
    fold r. fold loaded.
    unfold bind at 1, getWorld at 1.
    unfold bind at 1, readSettings at 1.
    change (w_plugin loaded) with r. rewrite Hr.
    cbn [autoCreateSuppressedUntilBuildRefresh s1 withAutoCreateSuppressed negb].
    now rewrite andb_false_r.
  - intros e He.
    apply (paused_event_writes_nothing loaded r s1 e); try reflexivity; assumption.
Qed.

(** The session of the scenarios: load, remove the hubs, restart, and a
    folder N is created. *)
Lemma remove_then_reload_witness :
  let removed :=
    Plugin.run [Plugin.Onload; Plugin.RemoveAllHubNotes] Scenarios.sessionStart in
  let restarted :=
    Scenarios.unloaded (w_vault (Scenarios.withFolder Scenarios.dirN removed))
      (withAutoCreateSuppressed true Scenarios.liveSettings) in
  w_writes (Plugin.run [Plugin.Onload; Plugin.VaultCreate (AFolder Scenarios.dirN)] restarted)
  = [].
Proof.
  intros removed restarted.
  destruct (remove_then_reload_stays_paused (worldOf (Plugin.onload Scenarios.sessionStart))
              Scenarios.liveSettings eq_refl) as [Hdata Hreload].
  destruct (Hreload restarted) as (loaded & Hload & _ & _ & Hevents);
    [rewrite Hdata; reflexivity|reflexivity|].
  cbn [Plugin.run Plugin.step]. rewrite Hload. cbn [worldOf].
  destruct (Hevents (Plugin.VaultCreate (AFolder Scenarios.dirN)) I) as [_ Hw].
  cbn [Plugin.step] in Hw. rewrite Hw.
  vm_compute in Hload. injection Hload as <-. reflexivity.
Defined.

(** ** hubContent.ts: the creation of a hub *)

Section CreateHubFacts.

Lemma splitAtLast_none sep s : memc sep s = false -> splitAtLast sep s = None.
Proof.
  induction s as [|c s IH]; [reflexivity|].
  unfold memc. cbn [List.existsb splitAtLast]. intros H.
  apply orb_false_elim in H as [Hc Hs]. unfold memc in IH. rewrite (IH Hs).
  assert (eqc c sep = false) as -> by (apply eqc_neq; apply eqc_neq in Hc; congruence).
  reflexivity.
Qed.

Lemma splitAtLast_app sep a b :
  memc sep b = false -> splitAtLast sep (a ++ sep :: b) = Some (a, b).
Proof.
  intros Hb. induction a as [|c a IH]; cbn [app splitAtLast].
  - now rewrite (splitAtLast_none sep b Hb), eqc_refl.
  - now rewrite IH.
Qed.

Lemma findFolder_In v folder :
  List.NoDup (map folder_path (allFolders v)) -> In folder (allFolders v) ->
  findFolder v (folder_path folder) = Some folder.
Proof.
  unfold findFolder. induction (allFolders v) as [|d l IH]; [contradiction|].
  cbn [map]. intros Hnd Hin. apply List.NoDup_cons_iff in Hnd as [Hnotin Hnd].
  cbn [List.find]. destruct (eqs (folder_path d) (folder_path folder)) eqn:E.
  - destruct Hin as [->|Hin]; [reflexivity|].
    apply eqs_eq in E. exfalso. apply Hnotin. rewrite E. now apply in_map.
  - destruct Hin as [->|Hin]; [now rewrite eqs_refl in E|]. now apply IH.
Qed.

Lemma fileAt_hubPath v folder name :
  List.NoDup (map folder_path (allFolders v)) -> In folder (allFolders v) ->
  memc "/"%char name = false ->
  fileAt v (hubPath folder name) = Some (hubFileOf folder name).
Proof.
  intros Hnd Hin Hname. unfold fileAt, hubPath.
  change (folder_path folder ++ js "/" ++ name ++ js ".md")
    with (folder_path folder ++ "/"%char :: (name ++ js ".md")).
  rewrite splitAtLast_app by (rewrite memc_app, Hname; reflexivity).
  change (name ++ js ".md") with (name ++ "."%char :: js "md").
  rewrite splitAtLast_app by reflexivity.
  now rewrite findFolder_In.
Qed.

Lemma vaultCreate_eval v path data f w :
  w_vault w = v -> pathExists v path = false -> fileAt v path = Some f ->
  vaultCreate path data w =
  Done tt (setWrites (w_writes w ++ [WCreate path data])
             (setVault (setFiles (allFiles v ++ [(f, data)]) v) w)).
Proof.
  intros <- Hfree Hf. unfold vaultCreate, bind, getVault. now rewrite Hfree, Hf.
Qed.

Lemma find_app_none {A} (p : A -> bool) l x :
  List.find p l = None -> p x = true -> List.find p (l ++ [x]) = Some x.
Proof.
  induction l as [|a l IH]; cbn [app List.find]; intros Hl Hx; [now rewrite Hx|].
  destruct (p a); [discriminate|]. now apply IH.
Qed.

(** The folders and the creation times decide the expected names and the
    content of the hubs. *)
Lemma expected_name_same_folders v v' folder s :
  allFolders v' = allFolders v -> statCtime v' = statCtime v ->
  getExpectedHubNameForFolder v' folder s = getExpectedHubNameForFolder v folder s.
Proof.
  intros Hf Hc. unfold getExpectedHubNameForFolder, getFoldersWithSameName, ctimeOf.
  now rewrite Hf, Hc.
Qed.

Lemma hubContentOf_same_folders v v' folder s :
  allFolders v' = allFolders v -> statCtime v' = statCtime v ->
  hubContentOf v' folder s = hubContentOf v folder s.
Proof.
  intros Hf Hc. unfold hubContentOf.
  destruct (folder_parent folder) as [parent|]; [|reflexivity].
  now rewrite (expected_name_same_folders v v' parent s Hf Hc).
Qed.

Lemma isHubBasename_expected v folder s :
  isHubBasename (folder_name folder) (orElse (hubSuffix s) (js "_"))
    (getExpectedHubNameForFolder v folder s) = true.
Proof.
  destruct (expected_is_hubNameFor v folder s) as [numbered ->].
  rewrite isHubBasename_orElse. apply hubNameFor_isHubBasename.
Qed.

Lemma findHubInFolder_find v folder s :
  findHubInFolder v folder s =
  List.find (fun f => isHubBasename (folder_name folder) (orElse (hubSuffix s) (js "_"))
                        (file_basename f))
    (childFiles v folder).
Proof. unfold findHubInFolder, findHubInFolderWithName, children. apply firstHubFile_find. Qed.

Lemma readFile_app_new v path f data :
  pathExists v path = false -> file_path f = path ->
  readFile (setFiles (allFiles v ++ [(f, data)]) v) path = Some data.
Proof.
  intros Hfree Hp. unfold pathExists in Hfree. apply orb_false_elim in Hfree as [Hfile _].
  unfold readFile, pathIsFile in *. cbn [allFiles setFiles].
  induction (allFiles v) as [|e l IH]; cbn [app List.find List.existsb] in *.
  - cbn [fst]. now rewrite Hp, eqs_refl.
  - apply orb_false_elim in Hfile as [He Hl]. rewrite He. now apply IH.
Qed.

(** What [ensureHubForFolder] does to a folder without a hub. *)
Lemma ensureHubForFolder_create_eval w settings s folder :
  let v := w_vault w in
  let name := getExpectedHubNameForFolder v folder s in
  let path := hubPath folder name in
  let content := hubContentOf v folder s in
  nth_error (w_heap w) settings = Some s ->
  List.NoDup (map folder_path (allFolders v)) ->
  In folder (allFolders v) ->
  findHubInFolder v folder s = None ->
  memc "/"%char name = false ->
  pathExists v path = false ->
  ensureHubForFolder folder settings w =
  Done tt (setWrites (w_writes w ++ [WCreate path content])
             (setVault (setFiles (allFiles v ++ [(hubFileOf folder name, content)]) v)
                (setLocks (<[path := w_now w]> (w_locks w)) w))).
Proof.
  intros v name path content Hs Hnd Hin Hnone Hname Hfree.
  unfold ensureHubForFolder. unfold bind at 1, readSettings at 1. rewrite Hs.
  unfold bind at 1, getVault at 1. fold v. rewrite Hnone.
  unfold bind at 1, buildHubContent at 1, bind at 1, readSettings at 1. rewrite Hs.
  unfold bind at 1, getVault at 1, ret at 1. fold v. fold name. fold path. fold content.
  unfold bind at 1. cbn [setWriteLock modifyWorld].
  rewrite (vaultCreate_eval v path content (hubFileOf folder name)); try reflexivity.
  - exact Hfree.
  - now apply fileAt_hubPath.
Qed.

End CreateHubFacts.

(** [ensureHubForFolder] on a folder without a hub.  For a folder of a
    vault whose folders have distinct paths, when the folder has no hub,
    its expected hub name holds no slash and nothing exists at the path
    of the hub, the call returns; the only write is the creation of the
    file folder/name.md with the content [buildHubContent] computes,
    listed after the files the vault had; [findHubInFolder] then finds
    that file; and a second call writes nothing. *)
Theorem ensure_hub_creates_expected_hub w settings s folder :
  let v := w_vault w in
  let name := getExpectedHubNameForFolder v folder s in
  let hub := hubFileOf folder name in
  let content := hubContentOf v folder s in
  nth_error (w_heap w) settings = Some s ->
  List.NoDup (map folder_path (allFolders v)) ->
  In folder (allFolders v) ->
  findHubInFolder v folder s = None ->
  memc "/"%char name = false ->
  pathExists v (file_path hub) = false ->
  exists w',
    ensureHubForFolder folder settings w = Done tt w' /\
    w_writes w' = w_writes w ++ [WCreate (file_path hub) content] /\
    allFolders (w_vault w') = allFolders v /\
    allFiles (w_vault w') = allFiles v ++ [(hub, content)] /\
    findHubInFolder (w_vault w') folder s = Some hub /\
    getExpectedHubNameForFolder (w_vault w') folder s = name /\
    ensureHubForFolder folder settings w' = Done tt w'.
Proof.
  intros v name hub content Hs Hnd Hin Hnone Hname Hfree.
  eexists. split;
    [exact (ensureHubForFolder_create_eval w settings s folder Hs Hnd Hin Hnone Hname Hfree)|].
  cbn [w_writes w_vault setWrites setVault setLocks allFolders allFiles setFiles].
  fold v. fold name. fold content. fold hub.
  set (v' := setFiles (allFiles v ++ [(hub, content)]) v).
  assert (findHubInFolder v' folder s = Some hub) as Hfound.
  { rewrite findHubInFolder_find in *. unfold childFiles in *. cbn [allFiles v' setFiles].
    rewrite map_app, List.filter_app. cbn [map List.filter fst].
    assert (parentIs folder (file_parent hub) = true) as -> by apply eqs_refl.
    apply find_app_none; [exact Hnone|]. apply isHubBasename_expected. }
  assert (getExpectedHubNameForFolder v' folder s = name) as Hsame
    by (now apply expected_name_same_folders).
  repeat (split; [reflexivity|]). split; [exact Hfound|]. split; [exact Hsame|].
  apply ensureHubForFolder_fixed with (s := s); [exact Hs|].
  exists hub. split; [exact Hfound|]. split.
  - cbn [w_vault setWrites setVault]. fold v'.
    rewrite (hubContentOf_same_folders v v' folder s) by reflexivity.
    now apply readFile_app_new.
  - intros _. cbn [w_vault setWrites setVault]. fold v'. now rewrite Hsame.
Qed.

(** The folder N added to the vault of the note scenario. *)
Lemma ensure_hub_witness :
  exists w',
    ensureHubForFolder Scenarios.dirN 0
      (Scenarios.withFolder Scenarios.dirN (Scenarios.noteWorld (js "body"))) = Done tt w' /\
    w_writes w' = [WCreate (js "N/N_.md") Scenarios.topHubText].
Proof.
  destruct (ensure_hub_creates_expected_hub
              (Scenarios.withFolder Scenarios.dirN (Scenarios.noteWorld (js "body"))) 0
              Scenarios.liveSettings Scenarios.dirN)
    as (w' & Hrun & Hw & _); try reflexivity.
  - repeat constructor; simpl; intuition discriminate.
  - simpl. tauto.
  - exists w'. split; [exact Hrun|exact Hw].
Defined.

(** ** hideStyles.ts and writeLock.ts: the hub the plugin has just created *)

Section HubPathFacts.
Import HideStyles.

Lemma getHubNotePaths_spec v s path :
  path ∈ getHubNotePaths v s <->
  exists folder,
    In folder (allFolders v) /\
    shouldSkipPath (folder_path folder) (pathSkipFromSettings s) = false /\
    isRootFolder (folder_path folder) = false /\
    path = hubPath folder (getExpectedHubNameForFolder v folder s).
Proof.
  unfold getHubNotePaths.
  assert (forall (l : list TFolder) (acc : gset str),
            path ∈ fold_left
              (fun (paths : gset str) folder =>
                 if shouldSkipPath (folder_path folder) (pathSkipFromSettings s) then paths
                 else if isRootFolder (folder_path folder) then paths
                 else {[ folder_path folder ++ js "/"
                         ++ getExpectedHubNameForFolder v folder s ++ js ".md" ]} ∪ paths)
              l acc
            <-> path ∈ acc \/
                exists folder,
                  In folder l /\
                  shouldSkipPath (folder_path folder) (pathSkipFromSettings s) = false /\
                  isRootFolder (folder_path folder) = false /\
                  path = hubPath folder (getExpectedHubNameForFolder v folder s)) as Hfold.
  { induction l as [|d l IH]; intros acc; cbn [fold_left].
    - split; [now left|]. intros [H|(folder & [] & _)]. exact H.
    - rewrite IH. clear IH. split.
      + intros [Hacc|(folder & Hin & Hrest)].
        * destruct (shouldSkipPath (folder_path d) _) eqn:Es; [now left|].
          destruct (isRootFolder (folder_path d)) eqn:Er; [now left|].
          apply elem_of_union in Hacc as [Hnew|Hacc]; [|now left].
          apply elem_of_singleton in Hnew. right. exists d.
          split; [now left|]. auto.
        * right. exists folder. split; [now right|exact Hrest].
      + intros [Hacc|(folder & [->|Hin] & Hs & Hr & Hp)].
        * left. destruct (shouldSkipPath (folder_path d) _); [exact Hacc|].
          destruct (isRootFolder (folder_path d)); [exact Hacc|].
          apply elem_of_union. now right.
        * left. rewrite Hs, Hr. apply elem_of_union. left.
          apply elem_of_singleton. exact Hp.
        * right. exists folder. auto. }
  rewrite Hfold. split.
  - intros [H|H]; [|exact H]. now apply elem_of_empty in H.
  - intros H. now right.
Qed.

End HubPathFacts.

(** The hub the plugin has just created is hidden and is not taken for
    a new note.  After [ensureHubForFolder] has created the hub of a
    folder that is neither excluded nor the root (under the conditions
    of the creation), the path of the hub is one of the paths
    [getHubNotePaths] computes, so that [decorateFileExplorer] puts the
    hiding class on its item when hubs are hidden; and for less than
    [WRITE_LOCK_MS] after the creation the create notification of the
    vault for that file is ignored, whatever settings object the
    handlers hold. *)
Theorem created_hub_is_hidden_and_not_reprocessed w settings s folder :
  let v := w_vault w in
  let name := getExpectedHubNameForFolder v folder s in
  let hub := hubFileOf folder name in
  let w' := worldOf (ensureHubForFolder folder settings w) in
  nth_error (w_heap w) settings = Some s ->
  List.NoDup (map folder_path (allFolders v)) ->
  In folder (allFolders v) ->
  shouldSkipPath (folder_path folder) (pathSkipFromSettings s) = false ->
  isRootFolder (folder_path folder) = false ->
  findHubInFolder v folder s = None ->
  memc "/"%char name = false ->
  pathExists v (file_path hub) = false ->
  file_path hub ∈ HideStyles.getHubNotePaths (w_vault w') s /\
  (hideHubNotesInExplorer s = true ->
   forall navFiles el,
     In el navFiles -> HideStyles.navPath el = file_path hub ->
     In {| HideStyles.navPath := file_path hub; HideStyles.hubNoteClass := true |}
        (HideStyles.decorateFileExplorer (w_vault w') s navFiles)) /\
  (forall handlers dt,
     (0 <= dt < WRITE_LOCK_MS)%Z ->
     onVaultCreate handlers (AFile hub) (setNow (w_now w + dt) w')
     = Done tt (setNow (w_now w + dt) w')).
Proof.
  intros v name hub w' Hs Hnd Hin Hskip Hroot Hnone Hname Hfree.
  assert (ensureHubForFolder folder settings w =
          Done tt (setWrites (w_writes w ++ [WCreate (file_path hub) (hubContentOf v folder s)])
                     (setVault (setFiles (allFiles v
                                          ++ [(hub, hubContentOf v folder s)]) v)
                        (setLocks (<[file_path hub := w_now w]> (w_locks w)) w)))) as Heval
    by exact (ensureHubForFolder_create_eval w settings s folder Hs Hnd Hin Hnone Hname Hfree).
  unfold w'. rewrite Heval. cbn [worldOf].
  set (v' := setFiles (allFiles v ++ [(hub, hubContentOf v folder s)]) v).
  assert (file_path hub ∈ HideStyles.getHubNotePaths v' s) as Hpath.
  { apply getHubNotePaths_spec. exists folder.
    split; [exact Hin|]. split; [exact Hskip|]. split; [exact Hroot|].
    now rewrite (expected_name_same_folders v v' folder s). }
  split; [exact Hpath|]. split.
  - intros Hhide navFiles el Hel Hp. unfold HideStyles.decorateFileExplorer.
    cbn [w_vault setWrites setVault]. fold v'. rewrite Hhide. cbn [negb].
    apply in_map_iff. exists el. split; [|exact Hel].
    rewrite Hp. f_equal. rewrite bool_decide_eq_true_2 by exact Hpath.
    unfold hub, hubFileOf, hubPath. cbn [file_path].
    destruct (folder_path folder); reflexivity.
  - intros handlers dt Hdt. unfold onVaultCreate. unfold bind at 1.
    rewrite (isWriteLocked_fresh (file_path hub) _ (w_now w)).
    + reflexivity.
    + cbn. apply lookup_insert_eq.
    + cbn. lia.
Qed.

(** The folder N added to the vault of the note scenario, and the create
    notification of its hub half a second later. *)
Lemma created_hub_witness :
  let w' := worldOf (ensureHubForFolder Scenarios.dirN 0
                       (Scenarios.withFolder Scenarios.dirN
                          (Scenarios.noteWorld (js "body")))) in
  onVaultCreate 0 (AFile (hubFileOf Scenarios.dirN (js "N_"))) (setNow 600 w')
  = Done tt (setNow 600 w').
Proof.
  intros w'.
  assert (List.NoDup
            (map folder_path
               (allFolders
                  (w_vault (Scenarios.withFolder Scenarios.dirN
                              (Scenarios.noteWorld (js "body"))))))) as Hnd
    by (repeat constructor; simpl; intuition discriminate).
  assert (In Scenarios.dirN
            (allFolders
               (w_vault (Scenarios.withFolder Scenarios.dirN
                           (Scenarios.noteWorld (js "body")))))) as Hin
    by (simpl; tauto).
  destruct (created_hub_is_hidden_and_not_reprocessed
              (Scenarios.withFolder Scenarios.dirN (Scenarios.noteWorld (js "body"))) 0
              Scenarios.liveSettings Scenarios.dirN
              eq_refl Hnd Hin eq_refl eq_refl eq_refl eq_refl eq_refl)
    as (_ & _ & Hquiet).
  apply (Hquiet 0 500%Z). unfold WRITE_LOCK_MS. lia.
Defined.

(** ** linksInNotes.ts and commands.ts: the passes over all the notes *)

Section RewritePassFacts.

Lemma map_id_on {A} (h : A -> A) l : (forall x, In x l -> h x = x) -> map h l = l.
Proof.
  induction l as [|a l IH]; intros H; [reflexivity|]. cbn [map].
  rewrite (H a) by now left. rewrite IH; [reflexivity|]. intros x Hx. apply H. now right.
Qed.

Lemma paths_rewritten g l : map pathOf (rewrittenFiles g l) = map pathOf l.
Proof.
  unfold rewrittenFiles. rewrite map_map. apply map_ext. intros e.
  now destruct (isMarkdown (fst e)).
Qed.

Lemma rewrittenFiles_app g l1 l2 :
  rewrittenFiles g (l1 ++ l2) = rewrittenFiles g l1 ++ rewrittenFiles g l2.
Proof. apply map_app. Qed.

Lemma rewriteLog_app g l1 l2 : rewriteLog g (l1 ++ l2) = rewriteLog g l1 ++ rewriteLog g l2.
Proof. apply flat_map_app. Qed.

Lemma path_not_in (l : list (TFile * str)) p :
  ~ In p (map pathOf l) -> forall e, In e l -> eqs (file_path (fst e)) p = false.
Proof.
  intros Hp e He. apply eqs_neq. intros <-. apply Hp.
  exact (in_map pathOf l e He).
Qed.

(** With distinct paths, the file a pass reaches holds the text it had
    at the start. *)
Lemma find_head g done f t todo :
  List.NoDup (map pathOf (done ++ (f, t) :: todo)) ->
  List.find (fun e => eqs (file_path (fst e)) (file_path f))
    (rewrittenFiles g done ++ (f, t) :: todo) = Some (f, t).
Proof.
  intros Hnd. rewrite map_app in Hnd. cbn [map] in Hnd.
  apply List.NoDup_remove_2 in Hnd.
  assert (~ In (file_path f) (map pathOf (rewrittenFiles g done))) as Hdone
    by (rewrite paths_rewritten; intros H; apply Hnd, in_or_app; now left).
  pose proof (path_not_in _ _ Hdone) as Hno. clear Hdone Hnd.
  induction (rewrittenFiles g done) as [|e l IH]; cbn [app List.find].
  - cbn [fst]. now rewrite eqs_refl.
  - rewrite (Hno e) by now left. apply IH. intros x Hx. apply Hno. now right.
Qed.

Lemma modify_head g done f t d todo :
  List.NoDup (map pathOf (done ++ (f, t) :: todo)) ->
  map (fun e => if eqs (file_path (fst e)) (file_path f) then (fst e, d) else e)
    (rewrittenFiles g done ++ (f, t) :: todo)
  = rewrittenFiles g done ++ (f, d) :: todo.
Proof.
  intros Hnd. rewrite map_app in Hnd. cbn [map] in Hnd.
  apply List.NoDup_remove_2 in Hnd.
  assert (~ In (file_path f) (map pathOf (rewrittenFiles g done))) as Hdone
    by (rewrite paths_rewritten; intros H; apply Hnd, in_or_app; now left).
  assert (~ In (file_path f) (map pathOf todo)) as Htodo
    by (intros H; apply Hnd, in_or_app; now right).
  rewrite map_app. cbn [map fst]. rewrite eqs_refl. f_equal; [|f_equal].
  - apply map_id_on. intros e He. now rewrite (path_not_in _ _ Hdone e He).
  - apply map_id_on. intros e He. now rewrite (path_not_in _ _ Htodo e He).
Qed.

Lemma setFiles_setFiles fs fs' v : setFiles fs (setFiles fs' v) = setFiles fs v.
Proof. reflexivity. Qed.

Lemma sameButNotes_refl lockOn w : sameButNotes lockOn w w.
Proof. unfold sameButNotes. tauto. Qed.

Lemma sameButNotes_trans lockOn w1 w2 w3 :
  sameButNotes lockOn w1 w2 -> sameButNotes lockOn w2 w3 -> sameButNotes lockOn w1 w3.
Proof.
  unfold sameButNotes. intros H1 H2.
  destruct H1 as (?&?&?&?&?&?&?&?&?&L1), H2 as (?&?&?&?&?&?&?&?&?&L2).
  repeat split; try congruence. intros E. rewrite (L2 E). exact (L1 E).
Qed.

Lemma sameButNotes_rewriteFile lockOn g f t w :
  sameButNotes lockOn w (rewriteFile lockOn g f t w).
Proof.
  unfold rewriteFile. destruct (eqs (g f t) t); [apply sameButNotes_refl|].
  unfold sameButNotes. destruct lockOn; cbn; repeat split; try reflexivity.
  discriminate.
Qed.

Lemma rewriteFile_files lockOn g done f t todo w :
  allFiles (w_vault w) = rewrittenFiles g done ++ (f, t) :: todo ->
  List.NoDup (map pathOf (done ++ (f, t) :: todo)) ->
  isMarkdown f = true ->
  allFiles (w_vault (rewriteFile lockOn g f t w))
  = rewrittenFiles g (done ++ [(f, t)]) ++ todo.
Proof.
  intros Hfiles Hnd Hmd. rewrite rewrittenFiles_app. cbn [rewrittenFiles map fst snd].
  rewrite Hmd, <- app_assoc. cbn [app]. unfold rewriteFile.
  destruct (eqs (g f t) t) eqn:E.
  - apply eqs_eq in E. now rewrite E.
  - destruct lockOn; cbn [w_vault setWrites setVault setLocks allFiles setFiles];
      rewrite Hfiles; now apply modify_head.
Qed.

Lemma rewriteFile_writes lockOn g f t w :
  isMarkdown f = true ->
  w_writes (rewriteFile lockOn g f t w) = w_writes w ++ rewriteLog g [(f, t)].
Proof.
  intros Hmd. unfold rewriteFile, rewriteLog, pathOf. cbn [flat_map fst snd].
  rewrite Hmd, app_nil_r. cbn [andb].
  destruct (eqs (g f t) t); cbn [negb]; [now rewrite app_nil_r|].
  now destruct lockOn.
Qed.

Lemma readFile_head g done f t todo w :
  allFiles (w_vault w) = rewrittenFiles g done ++ (f, t) :: todo ->
  List.NoDup (map pathOf (done ++ (f, t) :: todo)) ->
  readFile (w_vault w) (file_path f) = Some t.
Proof.
  intros Hfiles Hnd. unfold readFile. rewrite Hfiles.
  now rewrite (find_head g done f t todo Hnd).
Qed.

(** What [setWriteLock] and [vault.modify] make of a world in which the
    file exists. *)
Lemma modify_eval (lockOn : bool) (g : TFile -> str -> str) f t w :
  readFile (w_vault w) (file_path f) = Some t ->
  eqs (g f t) t = false ->
  ((if lockOn then setWriteLock (file_path f) else ret tt) ;; vaultModify f (g f t)) w
  = Done tt (rewriteFile lockOn g f t w).
Proof.
  intros Hread Hne. unfold rewriteFile. rewrite Hne.
  pose proof (readFile_pathIsFile _ _ _ Hread) as Hfile.
  destruct lockOn; unfold bind at 1.
  - unfold setWriteLock, modifyWorld. unfold vaultModify, bind at 1, getVault at 1.
    cbn [w_vault setLocks]. rewrite Hfile. reflexivity.
  - unfold ret at 1. unfold vaultModify, bind at 1, getVault at 1.
    rewrite Hfile. reflexivity.
Qed.

Section Loop.
Variables (lockOn : bool) (g : TFile -> str -> str).
Variables (body : TFile -> M unit) (stable : World -> Prop).
Hypothesis body_eval :
  forall w f t,
    stable w -> readFile (w_vault w) (file_path f) = Some t ->
    body f w = Done tt (rewriteFile lockOn g f t w).
Hypothesis stable_kept : forall w f t, stable w -> stable (rewriteFile lockOn g f t w).

#[local] Set Default Proof Using "All".

Lemma forEach_rewrite todo : forall done w,
  allFiles (w_vault w) = rewrittenFiles g done ++ todo ->
  List.NoDup (map pathOf (done ++ todo)) ->
  stable w ->
  exists w',
    forEach (List.filter isMarkdown (map fst todo)) body w = Done tt w' /\
    allFiles (w_vault w') = rewrittenFiles g (done ++ todo) /\
    w_writes w' = w_writes w ++ rewriteLog g todo /\
    sameButNotes lockOn w w'.
Proof.
  induction todo as [|[f t] todo IH]; intros done w Hfiles Hnd Hst.
  - exists w. rewrite !app_nil_r in *.
    repeat split; try assumption; apply sameButNotes_refl.
  - cbn [map List.filter fst]. destruct (isMarkdown f) eqn:Hmd.
    + cbn [forEach]. unfold bind at 1.
      rewrite (body_eval w f t Hst (readFile_head g done f t todo w Hfiles Hnd)).
      destruct (IH (done ++ [(f, t)]) (rewriteFile lockOn g f t w))
        as (w' & Hrun & Hf & Hw & Hsame).
      * now apply rewriteFile_files.
      * now rewrite <- app_assoc.
      * now apply stable_kept.
      * exists w'. split; [exact Hrun|]. split; [now rewrite <- app_assoc in Hf|].
        split.
        -- rewrite Hw, (rewriteFile_writes lockOn g f t w Hmd), <- app_assoc.
           now rewrite <- rewriteLog_app.
        -- eapply sameButNotes_trans; [apply sameButNotes_rewriteFile|exact Hsame].
    + destruct (IH (done ++ [(f, t)]) w) as (w' & Hrun & Hf & Hw & Hsame).
      * rewrite rewrittenFiles_app. cbn [rewrittenFiles map fst].
        now rewrite Hmd, <- app_assoc.
      * now rewrite <- app_assoc.
      * exact Hst.
      * exists w'. split; [exact Hrun|]. split; [now rewrite <- app_assoc in Hf|].
        split; [|exact Hsame].
        rewrite Hw. f_equal. change ((f, t) :: todo) with ([(f, t)] ++ todo).
        rewrite rewriteLog_app. unfold rewriteLog at 2. cbn [flat_map fst].
        now rewrite Hmd.
Qed.

End Loop.

(** The loop of "Unhide in vault". *)
Lemma unhideFiles_rewrite todo : forall done count w,
  let g := fun (_ : TFile) => Commands.unwrapObHideInText in
  allFiles (w_vault w) = rewrittenFiles g done ++ todo ->
  List.NoDup (map pathOf (done ++ todo)) ->
  exists w',
    unhideFiles (List.filter isMarkdown (map fst todo)) count w
    = Done (count + length (rewriteLog g todo)) w' /\
    allFiles (w_vault w') = rewrittenFiles g (done ++ todo) /\
    w_writes w' = w_writes w ++ rewriteLog g todo /\
    sameButNotes false w w'.
Proof.
  intros done count w g. revert done count w.
  induction todo as [|[f t] todo IH]; intros done count w Hfiles Hnd.
  - exists w. rewrite !app_nil_r in *. cbn. rewrite Nat.add_0_r.
    repeat split; try assumption; apply sameButNotes_refl.
  - cbn [map List.filter fst]. destruct (isMarkdown f) eqn:Hmd.
    + pose proof (readFile_head g done f t todo w Hfiles Hnd) as Hread.
      cbn [unhideFiles]. unfold bind at 1, vaultRead at 1. rewrite Hread.
      assert (rewriteLog g ((f, t) :: todo) = rewriteLog g [(f, t)] ++ rewriteLog g todo)
        as Hlog by (change ((f, t) :: todo) with ([(f, t)] ++ todo); apply rewriteLog_app).
      destruct (IH (done ++ [(f, t)])
                  (count + length (rewriteLog g [(f, t)]))
                  (rewriteFile false g f t w))
        as (w' & Hrun & Hf & Hw & Hsame).
      * now apply rewriteFile_files.
      * now rewrite <- app_assoc.
      * exists w'. split; [|split; [now rewrite <- app_assoc in Hf|split]].
        -- rewrite Hlog, length_app, Nat.add_assoc, <- Hrun. clear Hrun.
           pose proof (modify_eval false g f t w Hread) as Hm.
           unfold bind at 1, ret at 1 in Hm.
           unfold rewriteLog. cbn [flat_map fst snd]. rewrite Hmd. cbn [andb].
           change (g f t) with (Commands.unwrapObHideInText t) in *.
           destruct (eqs (Commands.unwrapObHideInText t) t) eqn:E; cbn [negb app length].
           ++ unfold rewriteFile. change (g f t) with (Commands.unwrapObHideInText t).
              rewrite E. now rewrite Nat.add_0_r.
           ++ unfold bind at 1. rewrite (Hm eq_refl). now rewrite Nat.add_1_r.
        -- rewrite Hw, (rewriteFile_writes false g f t w Hmd), <- app_assoc.
           now rewrite Hlog.
        -- eapply sameButNotes_trans; [apply sameButNotes_rewriteFile|exact Hsame].
    + destruct (IH (done ++ [(f, t)]) count w) as (w' & Hrun & Hf & Hw & Hsame).
      * rewrite rewrittenFiles_app. cbn [rewrittenFiles map fst].
        now rewrite Hmd, <- app_assoc.
      * now rewrite <- app_assoc.
      * exists w'.
        assert (rewriteLog g ((f, t) :: todo) = rewriteLog g todo) as ->.
        { change ((f, t) :: todo) with ([(f, t)] ++ todo).
          rewrite rewriteLog_app. unfold rewriteLog at 1. cbn [flat_map fst].
          now rewrite Hmd. }
        split; [exact Hrun|]. split; [now rewrite <- app_assoc in Hf|].
        split; [exact Hw|exact Hsame].
Qed.

Lemma readFile_rewritten g fs f t v :
  List.NoDup (map pathOf fs) -> In (f, t) fs ->
  readFile (setFiles (rewrittenFiles g fs) v) (file_path f)
  = Some (if isMarkdown f then g f t else t).
Proof.
  intros Hnd Hin. apply in_split in Hin as (l1 & l2 & ->).
  unfold readFile. cbn [allFiles setFiles]. rewrite rewrittenFiles_app.
  change (rewrittenFiles g ((f, t) :: l2))
    with ((if isMarkdown f then (f, g f t) else (f, t)) :: rewrittenFiles g l2).
  rewrite map_app in Hnd. cbn [map] in Hnd. apply List.NoDup_remove_2 in Hnd.
  assert (~ In (file_path f) (map pathOf (rewrittenFiles g l1))) as Hdone
    by (rewrite paths_rewritten; intros H; apply Hnd, in_or_app; now left).
  pose proof (path_not_in _ _ Hdone) as Hno. clear Hdone Hnd.
  induction (rewrittenFiles g l1) as [|e l IH]; cbn [app List.find].
  - destruct (isMarkdown f); cbn [fst]; now rewrite eqs_refl.
  - rewrite (Hno e) by now left. apply IH. intros x Hx. apply Hno. now right.
Qed.

Lemma vault_of_files w w' fs :
  allFiles (w_vault w') = fs -> sameButNotes false w w' \/ sameButNotes true w w' ->
  w_vault w' = setFiles fs (w_vault w).
Proof.
  intros <- H.
  assert (allFolders (w_vault w') = allFolders (w_vault w) /\
          statCtime (w_vault w') = statCtime (w_vault w) /\
          configDir (w_vault w') = configDir (w_vault w)) as (H1 & H2 & H3)
    by (destruct H as [H|H]; unfold sameButNotes in H; tauto).
  destruct (w_vault w'), (w_vault w). cbn in *. now subst.
Qed.

(** The body of the loop of [removeAllHubLinksFromNotes]. *)
Lemma removeLinks_body_eval settings s v0 w f t :
  nth_error (w_heap w) settings = Some s ->
  allFolders (w_vault w) = allFolders v0 ->
  statCtime (w_vault w) = statCtime v0 ->
  readFile (w_vault w) (file_path f) = Some t ->
  (let! content := vaultRead f in
   let lines := split newline content in
   let! s := readSettings settings in
   let afterHub := stripLeadingHubLinkLines lines None s in
   let rest := join LF (skipn afterHub lines) in
   let rest := stripSeparator rest in
   let! hubNote := isHubNote f settings in
   let rest := if hubNote then updateParentLinkUnderDirectory rest None else rest in
   if eqs rest content then ret tt
   else setWriteLock (file_path f) ;; vaultModify f rest) w
  = Done tt (rewriteFile true (withoutHubLinks v0 s) f t w).
Proof.
  intros Hs Hfo Hct Hread.
  assert (isHubNote f settings w = Done (isHubNoteIn v0 s f) w) as Hnote.
  { unfold isHubNote, isHubNoteIn. destruct (file_parent f) as [folder|]; [|reflexivity].
    destruct (isRoot folder); [reflexivity|].
    unfold bind, readSettings, getVault. rewrite Hs. unfold ret.
    now rewrite (expected_name_same_folders v0 (w_vault w) folder s Hfo Hct). }
  unfold bind at 1, vaultRead at 1. rewrite Hread.
  unfold bind at 1, readSettings at 1. rewrite Hs.
  unfold bind at 1. rewrite Hnote.
  change (if isHubNoteIn v0 s f
          then updateParentLinkUnderDirectory
                 (stripSeparator
                    (join LF (skipn (stripLeadingHubLinkLines (split newline t) None s)
                                (split newline t)))) None
          else stripSeparator
                 (join LF (skipn (stripLeadingHubLinkLines (split newline t) None s)
                             (split newline t))))
    with (withoutHubLinks v0 s f t).
  destruct (eqs (withoutHubLinks v0 s f t) t) eqn:E.
  - unfold rewriteFile. now rewrite E.
  - exact (modify_eval true (withoutHubLinks v0 s) f t w Hread E).
Qed.

(** The pass of [removeAllHubLinksFromNotes] over a vault with distinct
    paths. *)
Lemma removeLinks_eval w settings s :
  nth_error (w_heap w) settings = Some s ->
  List.NoDup (map pathOf (allFiles (w_vault w))) ->
  exists w',
    removeAllHubLinksFromNotes settings w = Done tt w' /\
    w_vault w' = setFiles (rewrittenFiles (withoutHubLinks (w_vault w) s)
                             (allFiles (w_vault w))) (w_vault w) /\
    w_writes w' = w_writes w
                  ++ rewriteLog (withoutHubLinks (w_vault w) s) (allFiles (w_vault w)) /\
    sameButNotes true w w'.
Proof.
  intros Hs Hnd. set (v0 := w_vault w).
  destruct (forEach_rewrite true (withoutHubLinks v0 s)
              (fun file =>
                 let! content := vaultRead file in
                 let lines := split newline content in
                 let! s := readSettings settings in
                 let afterHub := stripLeadingHubLinkLines lines None s in
                 let rest := join LF (skipn afterHub lines) in
                 let rest := stripSeparator rest in
                 let! hubNote := isHubNote file settings in
                 let rest :=
                   if hubNote then updateParentLinkUnderDirectory rest None else rest in
                 if eqs rest content then ret tt
                 else setWriteLock (file_path file) ;; vaultModify file rest)
              (fun w1 => nth_error (w_heap w1) settings = Some s /\
                         allFolders (w_vault w1) = allFolders v0 /\
                         statCtime (w_vault w1) = statCtime v0)
              ltac:(intros w1 f t (H1 & H2 & H3) Hr;
                    exact (removeLinks_body_eval settings s v0 w1 f t H1 H2 H3 Hr))
              ltac:(intros w1 f t (H1 & H2 & H3);
                    pose proof (sameButNotes_rewriteFile true (withoutHubLinks v0 s) f t w1)
                      as (S1 & S2 & _ & S4 & _);
                    rewrite S1, S2, S4; auto)
              (allFiles v0) [] w eq_refl Hnd (conj Hs (conj eq_refl eq_refl)))
    as (w' & Hrun & Hf & Hw & Hsame).
  exists w'. split; [exact Hrun|]. split; [|split; [exact Hw|exact Hsame]].
  apply vault_of_files; [exact Hf|now right].
Qed.

End RewritePassFacts.

Section RemoveLinksFacts.
Import RegExp.

Lemma isHubNoteIn_false v s note :
  (forall folder, file_parent note = Some folder -> isRoot folder = false ->
                  file_basename note <> getExpectedHubNameForFolder v folder s) ->
  isHubNoteIn v s note = false.
Proof.
  intros H. unfold isHubNoteIn. destruct (file_parent note) as [folder|]; [|reflexivity].
  destruct (isRoot folder) eqn:Er; [reflexivity|]. apply eqs_neq. now apply H.
Qed.

(** What is cut from a note that is not a hub is cut from its top. *)
Lemma withoutHubLinks_suffix v s f t :
  isHubNoteIn v s f = false -> exists cut, t = cut ++ withoutHubLinks v s f t.
Proof.
  intros Hnote. unfold withoutHubLinks. rewrite Hnote.
  destruct (join_firstn_skipn LF (split newline t)
              (stripLeadingHubLinkLines (split newline t) None s)) as [before Hb].
  rewrite join_split in Hb.
  destruct (stripSeparator_suffix
              (join LF (skipn (stripLeadingHubLinkLines (split newline t) None s)
                          (split newline t)))) as [p Hp].
  exists (before ++ p). rewrite <- app_assoc, <- Hp. exact Hb.
Qed.

(** A text that begins with something else than white space and [---]
    has no separator to strip. *)
Lemma stripSeparator_text body :
  startsWithText body -> startsWith (js "---") body = false -> stripSeparator body = body.
Proof.
  intros Hbody Hdash. unfold stripSeparator, replaceFirstWithEmpty, separatorPattern.
  cbn [app]. rewrite execFrom_anchored_none; [reflexivity|].
  unfold matchHere. rewrite matchK_start.
  rewrite matchK_star_skip by now apply startsWithText_no_space.
  rewrite matchK_opt_skip by now apply startsWithText_no_newline.
  destruct body as [|c1 body]; [reflexivity|].
  change (lits (js "---") ++ [IStar ASpace; IOne (AChar newline); IStar ASpace])
    with (IOne (AChar "-"%char) :: IOne (AChar "-"%char) :: IOne (AChar "-"%char)
          :: [IStar ASpace; IOne (AChar newline); IStar ASpace]).
  rewrite matchK_one_cons. cbn [atomMatches].
  destruct (eqc "-"%char c1) eqn:E1; [|reflexivity].
  destruct body as [|c2 body]; [reflexivity|].
  rewrite matchK_one_cons. cbn [atomMatches].
  destruct (eqc "-"%char c2) eqn:E2; [|reflexivity].
  destruct body as [|c3 body]; [reflexivity|].
  rewrite matchK_one_cons. cbn [atomMatches].
  destruct (eqc "-"%char c3) eqn:E3; [|reflexivity].
  change (js "---") with ("-"%char :: "-"%char :: "-"%char :: []) in Hdash.
  cbn [startsWith] in Hdash. rewrite E1, E2, E3 in Hdash. discriminate Hdash.
Qed.

(** The text the removal computes for a note that reads the block and a
    body. *)
Lemma withoutHubLinks_block v s s0 note folderName numbered separator body :
  let name := hubNameFor folderName (hubSuffix s) numbered in
  isHubNoteIn v s note = false ->
  linkSafe name = true ->
  startsWithText body ->
  startsWith (js "---") body = false ->
  (separator = false -> body <> [] -> isHubLinkLine (firstLine body) None s = false) ->
  withoutHubLinks v s note (newTopFor (Some (wikiLink name)) separator s0 ++ body) = body.
Proof.
  intros name Hnote Hsafe Hbody Hdash Hfirst. unfold withoutHubLinks. rewrite Hnote.
  rewrite (lines_of_block s0 name separator body Hsafe).
  unfold name.
  rewrite (strip_of_block s0 s folderName numbered separator body Hsafe Hbody Hfirst).
  destruct separator.
  - rewrite <- !app_assoc. now apply stripSeparator_written.
  - now apply stripSeparator_text.
Qed.

End RemoveLinksFacts.

(** "Unhide in vault" does to every note what "Unhide in note" does to
    one, and nothing else.  On a vault whose files have distinct paths
    the command returns; afterwards every markdown file reads the
    unwrapped form of its text and every other file its text, the files
    and the folders are the same, the writes are one [modify] for each
    note whose text changed, in the order of the vault, the count the
    notice shows is their number, and the locks and the settings are
    untouched. *)
Theorem unhide_in_vault_unwraps_every_note w :
  let v := w_vault w in
  let changes := rewriteLog (fun _ => Commands.unwrapObHideInText) (allFiles v) in
  List.NoDup (map pathOf (allFiles v)) ->
  exists count w',
    unhideInVault w = Done count w' /\
    (forall f t, In (f, t) (allFiles v) ->
       readFile (w_vault w') (file_path f)
       = Some (if isMarkdown f then Commands.unwrapObHideInText t else t)) /\
    map fst (allFiles (w_vault w')) = map fst (allFiles v) /\
    allFolders (w_vault w') = allFolders v /\
    w_writes w' = w_writes w ++ changes /\
    count = length changes /\
    w_locks w' = w_locks w /\
    w_heap w' = w_heap w.
Proof.
  intros v changes Hnd.
  destruct (unhideFiles_rewrite (allFiles v) [] 0 w eq_refl Hnd)
    as (w' & Hrun & Hf & Hw & Hsame).
  exists (length changes), w'.
  pose proof (vault_of_files w w' _ Hf (or_introl Hsame)) as Hv.
  destruct Hsame as (Hfo & _ & _ & Hheap & _ & _ & _ & _ & _ & Hlocks).
  split; [exact Hrun|]. split; [|split; [|split; [|split; [|split; [|split]]]]].
  - intros f t Hin. rewrite Hv. now apply readFile_rewritten.
  - rewrite Hf. cbn [app]. unfold rewrittenFiles. rewrite map_map. apply map_ext.
    intros e. now destruct (isMarkdown (fst e)).
  - exact Hfo.
  - exact Hw.
  - reflexivity.
  - now apply Hlocks.
  - exact Hheap.
Qed.

(** The note of folder Z with one hidden word. *)
Lemma unhide_in_vault_witness :
  exists w',
    unhideInVault (Scenarios.noteWorld (js "a " ++ hiddenSpan (js "b") ++ js " c"))
    = Done 1 w' /\
    readFile (w_vault w') (file_path Scenarios.noteN) = Some (js "a b c").
Proof.
  assert (List.NoDup
            (map pathOf
               (allFiles (w_vault (Scenarios.noteWorld
                                     (js "a " ++ hiddenSpan (js "b") ++ js " c"))))))
    as Hnd by (repeat constructor; simpl; intuition discriminate).
  destruct (unhide_in_vault_unwraps_every_note
              (Scenarios.noteWorld (js "a " ++ hiddenSpan (js "b") ++ js " c")) Hnd)
    as (count & w' & Hrun & Hread & _ & _ & _ & Hcount & _).
  exists w'. split.
  - rewrite Hrun, Hcount. reflexivity.
  - rewrite (Hread Scenarios.noteN (js "a " ++ hiddenSpan (js "b") ++ js " c"));
      [reflexivity|]. simpl. tauto.
Defined.

(** "Remove hub links" cuts notes at the top only.  On a vault whose
    files have distinct paths the pass returns.  Afterwards the folders,
    the files and the settings are the same; every file that is not
    markdown reads its text; every note that is not the hub of its
    folder reads an end of its text, what is gone being cut off the
    top; and every write of the pass is a [modify] of a markdown file of
    the vault. *)
Theorem remove_links_cuts_only_note_tops w settings s :
  let v := w_vault w in
  nth_error (w_heap w) settings = Some s ->
  List.NoDup (map pathOf (allFiles v)) ->
  exists w' log,
    removeAllHubLinksFromNotes settings w = Done tt w' /\
    allFolders (w_vault w') = allFolders v /\
    map fst (allFiles (w_vault w')) = map fst (allFiles v) /\
    w_heap w' = w_heap w /\
    (forall f t, In (f, t) (allFiles v) ->
       exists t',
         readFile (w_vault w') (file_path f) = Some t' /\
         (isMarkdown f = false -> t' = t) /\
         ((forall folder, file_parent f = Some folder -> isRoot folder = false ->
                          file_basename f <> getExpectedHubNameForFolder v folder s) ->
          exists cut, t = cut ++ t')) /\
    w_writes w' = w_writes w ++ log /\
    Forall (fun x => exists f t text,
                       In (f, t) (allFiles v) /\ isMarkdown f = true /\
                       x = WModify (file_path f) text) log.
Proof.
  intros v Hs Hnd.
  destruct (removeLinks_eval w settings s Hs Hnd) as (w' & Hrun & Hv & Hw & Hsame).
  fold v in Hv, Hw.
  exists w', (rewriteLog (withoutHubLinks v s) (allFiles v)).
  destruct Hsame as (Hfo & _ & _ & Hheap & _).
  split; [exact Hrun|]. split; [exact Hfo|]. split; [|split; [exact Hheap|split; [|split]]].
  - rewrite Hv. cbn [allFiles setFiles]. unfold rewrittenFiles. rewrite map_map.
    apply map_ext. intros e. now destruct (isMarkdown (fst e)).
  - intros f t Hin.
    exists (if isMarkdown f then withoutHubLinks v s f t else t).
    split; [rewrite Hv; now apply readFile_rewritten|]. split.
    + now intros ->.
    + intros Hnote. destruct (isMarkdown f); [|now exists []].
      apply withoutHubLinks_suffix. now apply isHubNoteIn_false.
  - exact Hw.
  - apply List.Forall_forall. intros x Hx. unfold rewriteLog in Hx.
    apply in_flat_map in Hx as ([f t] & Hin & Hx). cbn [fst snd] in Hx.
    destruct (isMarkdown f) eqn:Hmd; [|destruct Hx].
    destruct (negb _); [|destruct Hx]. destruct Hx as [<-|[]].
    exists f, t, (withoutHubLinks v s f t). auto.
Qed.

(** The note of folder Z holding the block and a body. *)
Lemma remove_links_cuts_witness :
  exists w',
    removeAllHubLinksFromNotes 0 (Scenarios.noteWorld (Scenarios.linkBlock ++ js "body"))
    = Done tt w' /\
    w_writes w' = [WModify (js "Z/n.md") (js "body")].
Proof.
  assert (List.NoDup
            (map pathOf
               (allFiles (w_vault (Scenarios.noteWorld (Scenarios.linkBlock ++ js "body"))))))
    as Hnd by (repeat constructor; simpl; intuition discriminate).
  destruct (remove_links_cuts_only_note_tops
              (Scenarios.noteWorld (Scenarios.linkBlock ++ js "body")) 0
              Scenarios.liveSettings eq_refl Hnd)
    as (w' & log & Hrun & _).
  exists w'. split; [exact Hrun|].
  vm_compute in Hrun. injection Hrun as <-. reflexivity.
Defined.

(** "Remove hub links" undoes the block the upsert writes.  A note that
    is not the hub of its folder and reads the block (written under any
    of the hide, blink and separator settings, for a hub name of the
    current suffix without [ ] ], [#], [|] or line break), then a body
    that is empty or begins with something else than white space and
    [---] (and, when the block has no separator, whose first line is not
    a hub link), reads the body after the pass. *)
Theorem remove_links_undoes_link_block w settings s s0 note folderName numbered
    separator body :
  let v := w_vault w in
  let name := hubNameFor folderName (hubSuffix s) numbered in
  nth_error (w_heap w) settings = Some s ->
  List.NoDup (map pathOf (allFiles v)) ->
  In (note, newTopFor (Some (wikiLink name)) separator s0 ++ body) (allFiles v) ->
  isMarkdown note = true ->
  (forall folder, file_parent note = Some folder -> isRoot folder = false ->
                  file_basename note <> getExpectedHubNameForFolder v folder s) ->
  linkSafe name = true ->
  startsWithText body ->
  startsWith (js "---") body = false ->
  (separator = false -> body <> [] -> isHubLinkLine (firstLine body) None s = false) ->
  exists w',
    removeAllHubLinksFromNotes settings w = Done tt w' /\
    readFile (w_vault w') (file_path note) = Some body.
Proof.
  intros v name Hs Hnd Hin Hmd Hnote Hsafe Hbody Hdash Hfirst.
  destruct (removeLinks_eval w settings s Hs Hnd) as (w' & Hrun & Hv & _).
  fold v in Hv. exists w'. split; [exact Hrun|].
  rewrite Hv, (readFile_rewritten _ _ _ _ _ Hnd Hin), Hmd. f_equal.
  apply withoutHubLinks_block; try assumption. now apply isHubNoteIn_false.
Qed.

(** The note of folder Z holding a link without separator and a body. *)
Lemma remove_links_undoes_witness :
  exists w',
    removeAllHubLinksFromNotes 0
      (Scenarios.noteWorld (js "[[Z_]]" ++ LF ++ LF ++ js "body"))
    = Done tt w' /\
    readFile (w_vault w') (js "Z/n.md") = Some (js "body").
Proof.
  assert (List.NoDup
            (map pathOf
               (allFiles (w_vault (Scenarios.noteWorld
                                     (js "[[Z_]]" ++ LF ++ LF ++ js "body"))))))
    as Hnd by (repeat constructor; simpl; intuition discriminate).
  apply (remove_links_undoes_link_block
           (Scenarios.noteWorld (js "[[Z_]]" ++ LF ++ LF ++ js "body"))
           0 Scenarios.liveSettings Scenarios.liveSettings
           Scenarios.noteN (js "Z") None false (js "body") eq_refl Hnd).
  - right. left. reflexivity.
  - reflexivity.
  - intros folder [= <-] _. discriminate.
  - reflexivity.
  - exact eq_refl.
  - reflexivity.
  - intros _ _. reflexivity.
Defined.

(** ** linksInNotes.ts: the link refresh over all the notes *)

Section LinkPassFacts.

Lemma children_same v0 v folder :
  sameStructure v0 v -> children v folder = children v0 folder.
Proof. intros (Hfo & _ & Hfi). unfold children. now rewrite Hfo, Hfi. Qed.

Lemma waitForNumberedHubNow_same v0 v folder s :
  sameStructure v0 v -> waitForNumberedHubNow v folder s = waitForNumberedHubNow v0 folder s.
Proof.
  intros Hsame. unfold waitForNumberedHubNow, waitForNumberedHub. f_equal.
  generalize 0. induction (attemptsOf None) as [|n IH]; intros i; [reflexivity|].
  cbn [pollNumberedHub].
  assert (findHubInFolder v folder s = findHubInFolder v0 folder s) as ->
    by (unfold findHubInFolder, findHubInFolderWithName; now rewrite (children_same v0 v)).
  destruct Hsame as (Hfo & Hct & Hfi).
  rewrite (expected_name_same_folders v0 v folder s Hfo Hct).
  destruct (findHubInFolder v0 folder s) as [hub|]; [|apply IH].
  destruct (eqs _ _); [reflexivity|apply IH].
Qed.

Lemma rewriteFile_structure lockOn g f t v0 w :
  sameStructure v0 (w_vault w) -> sameStructure v0 (w_vault (rewriteFile lockOn g f t w)).
Proof.
  intros (Hfo & Hct & Hfi). unfold rewriteFile.
  destruct (eqs (g f t) t); [now repeat split|].
  destruct lockOn; cbn [w_vault setWrites setVault setLocks];
    (repeat split; [exact Hfo|exact Hct|]);
    cbn [allFiles setFiles]; rewrite <- Hfi, map_map; apply map_ext;
    intros e; now destruct (eqs _ _).
Qed.

Lemma upsert_eval settings s v0 w f t :
  nth_error (w_heap w) settings = Some s ->
  sameStructure v0 (w_vault w) ->
  readFile (w_vault w) (file_path f) = Some t ->
  upsertHubLinkInNote f settings w = Done tt (rewriteFile true (upsertedText v0 s) f t w).
Proof.
  intros Hs Hsame Hread.
  pose proof Hsame as (Hfo & Hct & _).
  assert (getCorrectHubLinkForNote f settings w = Done (correctHubLinkIn v0 s f) w) as Hlink.
  { unfold getCorrectHubLinkForNote, correctHubLinkIn.
    destruct (file_parent f) as [folder|]; [|reflexivity].
    destruct (isRoot folder); [reflexivity|].
    unfold bind, readSettings, getVault. rewrite Hs.
    destruct (shouldSkipPath _ _); [reflexivity|].
    rewrite (waitForNumberedHubNow_same v0 (w_vault w) folder s Hsame).
    rewrite (expected_name_same_folders v0 (w_vault w) folder s Hfo Hct).
    now destruct (waitForNumberedHubNow v0 folder s). }
  assert (isHubNote f settings w = Done (isHubNoteIn v0 s f) w) as Hnote.
  { unfold isHubNote, isHubNoteIn. destruct (file_parent f) as [folder|]; [|reflexivity].
    destruct (isRoot folder); [reflexivity|].
    unfold bind, readSettings, getVault. rewrite Hs. unfold ret.
    now rewrite (expected_name_same_folders v0 (w_vault w) folder s Hfo Hct). }
  assert (getCorrectParentLinkForHubNote f settings w = Done (parentLinkIn v0 s f) w)
    as Hparent.
  { unfold getCorrectParentLinkForHubNote, parentLinkIn.
    destruct (file_parent f) as [folder|]; [|reflexivity].
    destruct (isRoot folder); [reflexivity|].
    destruct (folder_parent folder) as [parent|]; [|reflexivity].
    destruct (isRoot parent); [reflexivity|].
    unfold bind, readSettings, getVault. rewrite Hs.
    destruct (shouldSkipPath _ _); [reflexivity|].
    now rewrite (expected_name_same_folders v0 (w_vault w) parent s Hfo Hct). }
  unfold upsertHubLinkInNote. unfold bind at 1. rewrite Hlink.
  unfold bind at 1. unfold vaultRead at 1. rewrite Hread.
  unfold bind at 1. unfold readSettings at 1. rewrite Hs.
  unfold bind at 1. rewrite Hnote.
  destruct (isHubNoteIn v0 s f) eqn:Ehub.
  - unfold bind at 1. rewrite Hparent.
    match goal with
    | |- (if eqs ?x t then _ else _) w = _ =>
        assert (x = upsertedText v0 s f t) as ->
          by (unfold upsertedText; now rewrite Ehub)
    end.
    destruct (eqs (upsertedText v0 s f t) t) eqn:E.
    + unfold rewriteFile. now rewrite E.
    + exact (modify_eval true (upsertedText v0 s) f t w Hread E).
  - unfold bind at 1. unfold readSettings at 1. rewrite Hs.
    cbn [negb]. rewrite andb_true_r.
    match goal with
    | |- (if eqs ?x t then _ else _) w = _ =>
        assert (x = upsertedText v0 s f t) as ->
          by (unfold upsertedText; now rewrite Ehub)
    end.
    destruct (eqs (upsertedText v0 s f t) t) eqn:E.
    + unfold rewriteFile. now rewrite E.
    + exact (modify_eval true (upsertedText v0 s) f t w Hread E).
Qed.

Lemma rewriteFile_same lockOn g f t w : g f t = t -> rewriteFile lockOn g f t w = w.
Proof. intros E. unfold rewriteFile. now rewrite E, eqs_refl. Qed.

Lemma rewriteFile_ext lockOn g g' f t w :
  g f t = g' f t -> rewriteFile lockOn g f t w = rewriteFile lockOn g' f t w.
Proof. intros E. unfold rewriteFile. now rewrite E. Qed.

(** The body of the loop of [buildRefreshHubLinks]. *)
Lemma refresh_body_eval settings s v0 w f t :
  nth_error (w_heap w) settings = Some s ->
  sameStructure v0 (w_vault w) ->
  readFile (w_vault w) (file_path f) = Some t ->
  match file_parent f with
  | Some folder =>
      if negb (isRoot folder)
         && shouldSkipPath (folder_path folder) (pathSkipFromSettings s)
      then ret tt
      else upsertHubLinkInNote f settings
  | None => upsertHubLinkInNote f settings
  end w
  = Done tt (rewriteFile true (refreshedText v0 s) f t w).
Proof.
  intros Hs Hsame Hread.
  destruct (file_parent f) as [folder|] eqn:Hp.
  - destruct (negb (isRoot folder) && shouldSkipPath _ _) eqn:Hsk.
    + rewrite rewriteFile_same; [reflexivity|].
      unfold refreshedText. now rewrite Hp, Hsk.
    + rewrite (rewriteFile_ext true (refreshedText v0 s) (upsertedText v0 s))
        by (unfold refreshedText; now rewrite Hp, Hsk).
      now apply upsert_eval.
  - rewrite (rewriteFile_ext true (refreshedText v0 s) (upsertedText v0 s))
      by (unfold refreshedText; now rewrite Hp).
    now apply upsert_eval.
Qed.

(** The pass of [buildRefreshHubLinks] over a vault with distinct paths. *)
Lemma buildRefreshHubLinks_eval w settings s :
  nth_error (w_heap w) settings = Some s ->
  List.NoDup (map pathOf (allFiles (w_vault w))) ->
  exists w1,
    buildRefreshHubLinks settings w
    = Done tt (setHeap (<[settings := withPreviousHubSuffix (Some (hubSuffix s)) s]>
                          (w_heap w1)) w1) /\
    w_vault w1 = setFiles (rewrittenFiles (refreshedText (w_vault w) s)
                             (allFiles (w_vault w))) (w_vault w) /\
    w_writes w1 = w_writes w
                  ++ rewriteLog (refreshedText (w_vault w) s) (allFiles (w_vault w)) /\
    sameButNotes true w w1.
Proof.
  intros Hs Hnd. set (v0 := w_vault w).
  destruct (forEach_rewrite true (refreshedText v0 s)
              (fun file =>
                 match file_parent file with
                 | Some folder =>
                     if negb (isRoot folder)
                        && shouldSkipPath (folder_path folder) (pathSkipFromSettings s)
                     then ret tt
                     else upsertHubLinkInNote file settings
                 | None => upsertHubLinkInNote file settings
                 end)
              (fun w1 => nth_error (w_heap w1) settings = Some s /\
                         sameStructure v0 (w_vault w1))
              ltac:(intros w1 f t (H1 & H2) Hr;
                    exact (refresh_body_eval settings s v0 w1 f t H1 H2 Hr))
              ltac:(intros w1 f t (H1 & H2); split;
                    [pose proof (sameButNotes_rewriteFile true (refreshedText v0 s) f t w1)
                       as (_ & _ & _ & S4 & _); now rewrite S4
                    |now apply rewriteFile_structure])
              (allFiles v0) [] w eq_refl Hnd
              (conj Hs (conj eq_refl (conj eq_refl eq_refl))))
    as (w1 & Hrun & Hf & Hw & Hsame).
  exists w1. split; [|split; [|split; [exact Hw|exact Hsame]]].
  - unfold buildRefreshHubLinks. unfold bind at 1, readSettings at 1. rewrite Hs.
    unfold bind at 1, getVault at 1. fold v0.
    unfold bind at 1. unfold getMarkdownFiles. fold isMarkdown.
    change (fun f : TFile => eqs (file_extension f) (js "md")) with isMarkdown.
    rewrite Hrun. unfold updateSettings.
    destruct Hsame as (_ & _ & _ & Hheap & _). now rewrite Hheap, Hs.
  - apply vault_of_files; [exact Hf|now right].
Qed.

(** What the upsert drops from a note that is not a hub is cut from its
    top. *)
Lemma upsertedText_suffix v s f t :
  isHubNoteIn v s f = false ->
  exists cut tail,
    t = cut ++ tail /\
    upsertedText v s f t
    = newTopFor (correctHubLinkIn v s f) (insertSeparatorAfterHubLink s) s ++ tail.
Proof.
  intros Hnote. unfold upsertedText. rewrite Hnote.
  destruct (join_firstn_skipn LF (split newline t)
              (stripLeadingHubLinkLines (split newline t) None s)) as [before Hb].
  rewrite join_split in Hb.
  set (rest := join LF (skipn (stripLeadingHubLinkLines (split newline t) None s)
                          (split newline t))) in *.
  destruct (stripSeparator_suffix rest) as [p Hp].
  destruct (isSome (correctHubLinkIn v s f)); cbn [andb].
  - destruct (insertSeparatorAfterHubLink s).
    + exists (before ++ p), (stripSeparator rest). split; [|reflexivity].
      rewrite <- app_assoc, <- Hp. exact Hb.
    + exists before, rest. split; [exact Hb|reflexivity].
  - exists (before ++ p), (stripSeparator rest). split; [|reflexivity].
    rewrite <- app_assoc, <- Hp. exact Hb.
Qed.

End LinkPassFacts.

(** "Build/refresh links" over the whole vault.  On a vault whose files
    have distinct paths the pass returns.  Afterwards the folders and
    the files are the same and the settings object holds the current
    suffix as the previous one.  A file that is not markdown, or that
    lies in an excluded folder, reads its text.  A note that is not the
    hub of its folder reads an end of its text, what is gone being cut
    off the top, under the link block of its folder when the folder is
    neither the root nor excluded and its hub carries its expected
    name, and bare otherwise. *)
Theorem link_refresh_rewrites_note_tops w settings s :
  let v := w_vault w in
  nth_error (w_heap w) settings = Some s ->
  List.NoDup (map pathOf (allFiles v)) ->
  exists w',
    buildRefreshHubLinks settings w = Done tt w' /\
    allFolders (w_vault w') = allFolders v /\
    map fst (allFiles (w_vault w')) = map fst (allFiles v) /\
    nth_error (w_heap w') settings = Some (withPreviousHubSuffix (Some (hubSuffix s)) s) /\
    forall f t, In (f, t) (allFiles v) ->
      exists t',
        readFile (w_vault w') (file_path f) = Some t' /\
        (isMarkdown f = false -> t' = t) /\
        (forall folder, file_parent f = Some folder -> isRoot folder = false ->
           shouldSkipPath (folder_path folder) (pathSkipFromSettings s) = true -> t' = t) /\
        ((forall folder, file_parent f = Some folder -> isRoot folder = false ->
                         file_basename f <> getExpectedHubNameForFolder v folder s) ->
         exists cut tail,
           t = cut ++ tail /\
           (t' = tail \/
            exists folder hub,
              file_parent f = Some folder /\ isRoot folder = false /\
              shouldSkipPath (folder_path folder) (pathSkipFromSettings s) = false /\
              waitForNumberedHubNow v folder s = Some hub /\
              t' = newTopFor (Some (wikiLink (getExpectedHubNameForFolder v folder s)))
                     (insertSeparatorAfterHubLink s) s ++ tail)).
Proof.
  intros v Hs Hnd.
  destruct (buildRefreshHubLinks_eval w settings s Hs Hnd)
    as (w1 & Hrun & Hv & _ & Hsame).
  fold v in Hv. destruct Hsame as (Hfo & _ & _ & Hheap & _).
  eexists. split; [exact Hrun|]. cbn [w_vault setHeap w_heap].
  split; [exact Hfo|]. split; [|split].
  - rewrite Hv. cbn [allFiles setFiles]. unfold rewrittenFiles. rewrite map_map.
    apply map_ext. intros e. now destruct (isMarkdown (fst e)).
  - apply nth_error_insert_eq. rewrite Hheap. eapply nth_error_lt. exact Hs.
  - intros f t Hin.
    exists (if isMarkdown f then refreshedText v s f t else t).
    split; [rewrite Hv; now apply readFile_rewritten|]. split; [|split].
    + now intros ->.
    + intros folder Hparent Hroot Hskip. destruct (isMarkdown f); [|reflexivity].
      unfold refreshedText. now rewrite Hparent, Hroot, Hskip.
    + intros Hnote. destruct (isMarkdown f); [|exists [], t; split; [reflexivity|now left]].
      apply isHubNoteIn_false in Hnote.
      assert (exists cut tail,
                t = cut ++ tail /\
                upsertedText v s f t
                = newTopFor (correctHubLinkIn v s f) (insertSeparatorAfterHubLink s) s
                  ++ tail) as (cut & tail & Ht & Hup) by now apply upsertedText_suffix.
      unfold refreshedText.
      destruct (file_parent f) as [folder|] eqn:Hparent.
      * destruct (isRoot folder) eqn:Hroot; cbn [negb andb].
        -- exists cut, tail. split; [exact Ht|]. left. rewrite Hup.
           unfold correctHubLinkIn. now rewrite Hparent, Hroot.
        -- destruct (shouldSkipPath _ _) eqn:Hskip.
           ++ exists [], t. split; [reflexivity|now left].
           ++ exists cut, tail. split; [exact Ht|]. rewrite Hup.
              unfold correctHubLinkIn. rewrite Hparent, Hroot, Hskip.
              destruct (waitForNumberedHubNow v folder s) as [hub|] eqn:Hhub.
              ** right. exists folder, hub. auto 10.
              ** now left.
      * exists cut, tail. split; [exact Ht|]. left. rewrite Hup.
        unfold correctHubLinkIn. now rewrite Hparent.
Qed.

(** The vault of the note scenario: the note n of folder Z gets the link
    to the hub of Z. *)
Lemma link_refresh_witness :
  exists w',
    buildRefreshHubLinks 0 (Scenarios.noteWorld (js "body")) = Done tt w' /\
    readFile (w_vault w') (js "Z/n.md") = Some (Scenarios.linkBlock ++ js "body").
Proof.
  assert (List.NoDup
            (map pathOf (allFiles (w_vault (Scenarios.noteWorld (js "body"))))))
    as Hnd by (repeat constructor; simpl; intuition discriminate).
  destruct (link_refresh_rewrites_note_tops (Scenarios.noteWorld (js "body")) 0
              Scenarios.liveSettings eq_refl Hnd) as (w' & Hrun & _).
  exists w'. split; [exact Hrun|].
  vm_compute in Hrun. injection Hrun as <-. reflexivity.
Defined.

(** ** vaultEvents.ts: a note that was created or moved *)

Section MovedNoteFacts.

Lemma handlerStops_live settings s w :
  nth_error (w_heap w) settings = Some s ->
  realTimeUpdating s = true ->
  autoCreateSuppressedUntilBuildRefresh s = false ->
  hubSuffix s = previousSuffixOf s ->
  handlerStops settings w = Done false w.
Proof.
  intros Hs Hlive Hflag Hsuffix.
  unfold handlerStops, bind at 1, readSettings at 1. rewrite Hs, Hlive, Hflag.
  cbn [negb]. unfold runSuffixMigrationIfNeeded, bind at 1, readSettings at 1.
  rewrite Hs, <- Hsuffix. now rewrite eqs_refl.
Qed.

Lemma isWriteLocked_none path w :
  w_locks w !! path = None -> isWriteLocked path w = Done false w.
Proof. intros H. unfold isWriteLocked. now rewrite H. Qed.

Lemma sameStructure_refl v : sameStructure v v.
Proof. now repeat split. Qed.

Lemma readFile_rewriteFile lockOn g f t w :
  readFile (w_vault w) (file_path f) = Some t ->
  readFile (w_vault (rewriteFile lockOn g f t w)) (file_path f) = Some (g f t).
Proof.
  intros Hread. unfold rewriteFile. destruct (eqs (g f t) t) eqn:E.
  - apply eqs_eq in E. now rewrite E.
  - destruct lockOn; cbn [w_vault setWrites setVault setLocks];
      apply readFile_after_modify with (text := t); now rewrite setFiles_same.
Qed.

(** The two handlers of a note, once their guards are passed. *)
Lemma note_handlers_eval w settings s note t :
  nth_error (w_heap w) settings = Some s ->
  realTimeUpdating s = true ->
  autoCreateSuppressedUntilBuildRefresh s = false ->
  hubSuffix s = previousSuffixOf s ->
  w_locks w !! file_path note = None ->
  isMarkdown note = true ->
  readFile (w_vault w) (file_path note) = Some t ->
  onFileRename note settings w
  = Done tt (rewriteFile true (upsertedText (w_vault w) s) note t w) /\
  (shouldSkipPath (file_path note) (pathSkipFromSettings s) = false ->
   onFileCreate note settings w
   = Done tt (rewriteFile true (upsertedText (w_vault w) s) note t w)).
Proof.
  intros Hs Hlive Hflag Hsuffix Hlock Hmd Hread.
  pose proof (handlerStops_live settings s w Hs Hlive Hflag Hsuffix) as Hstop.
  pose proof (isWriteLocked_none _ w Hlock) as Hfree.
  pose proof (upsert_eval settings s (w_vault w) w note t Hs (sameStructure_refl _) Hread)
    as Hup.
  unfold isMarkdown in Hmd. split.
  - unfold onFileRename. unfold bind at 1. rewrite Hstop.
    unfold bind at 1. rewrite Hfree. now rewrite Hmd.
  - intros Hskip. unfold onFileCreate. unfold bind at 1. rewrite Hstop.
    unfold bind at 1. rewrite Hfree.
    unfold bind at 1, readSettings at 1. rewrite Hs, Hskip. now rewrite Hmd.
Qed.

(** The text the upsert makes of a note that reads a block and a body. *)
Lemma upsertedText_block v s s0 note folderName numbered separator body :
  let name := hubNameFor folderName (hubSuffix s) numbered in
  let link := correctHubLinkIn v s note in
  isHubNoteIn v s note = false ->
  linkSafe name = true ->
  startsWithText body ->
  startsWith (js "---") body = false ->
  (separator = false -> body <> [] -> isHubLinkLine (firstLine body) None s = false) ->
  upsertedText v s note (newTopFor (Some (wikiLink name)) separator s0 ++ body)
  = newTopFor link (insertSeparatorAfterHubLink s) s
    ++ (if isSome link && separator && negb (insertSeparatorAfterHubLink s)
        then js "---" ++ LF ++ LF else [])
    ++ body.
Proof.
  intros name link Hnote Hsafe Hbody Hdash Hfirst. unfold upsertedText. rewrite Hnote.
  rewrite (lines_of_block s0 name separator body Hsafe).
  unfold name.
  rewrite (strip_of_block s0 s folderName numbered separator body Hsafe Hbody Hfirst).
  fold link.
  assert (stripSeparator ((if separator then js "---" ++ LF ++ LF else []) ++ body) = body)
    as Hstrip.
  { destruct separator.
    - rewrite <- !app_assoc. now apply stripSeparator_written.
    - now apply stripSeparator_text. }
  destruct (isSome link); cbn [andb].
  - destruct (insertSeparatorAfterHubLink s); cbn [negb].
    + rewrite Hstrip. now rewrite andb_false_r.
    + now rewrite andb_true_r.
  - now rewrite Hstrip.
Qed.

End MovedNoteFacts.

(** A note that arrives in a folder gets the link of that folder in the
    place of the link it carried.  With live sync on, no suffix change
    pending and no lock on the note, for a markdown note that is not
    the hub of its folder, in a folder that is neither the root nor
    excluded and whose hub carries its expected name: when the note
    reads a link block (of any folder, written under any of the hide,
    blink and separator settings) and a body, the rename handler
    returns and the note reads the block of its folder and the body;
    the create handler does the same when the path of the note is not
    excluded.  An old separator stays, under the new block, when the
    separator setting is off now. *)
Theorem arriving_note_gets_link_of_its_folder w settings s s0 note folder hub
    oldFolderName numbered separator body :
  let v := w_vault w in
  let oldName := hubNameFor oldFolderName (hubSuffix s) numbered in
  let name := getExpectedHubNameForFolder v folder s in
  let after :=
    newTopFor (Some (wikiLink name)) (insertSeparatorAfterHubLink s) s
    ++ (if separator && negb (insertSeparatorAfterHubLink s)
        then js "---" ++ LF ++ LF else [])
    ++ body in
  nth_error (w_heap w) settings = Some s ->
  realTimeUpdating s = true ->
  autoCreateSuppressedUntilBuildRefresh s = false ->
  hubSuffix s = previousSuffixOf s ->
  w_locks w !! file_path note = None ->
  isMarkdown note = true ->
  file_parent note = Some folder ->
  isRoot folder = false ->
  shouldSkipPath (folder_path folder) (pathSkipFromSettings s) = false ->
  waitForNumberedHubNow v folder s = Some hub ->
  file_basename note <> name ->
  readFile v (file_path note)
  = Some (newTopFor (Some (wikiLink oldName)) separator s0 ++ body) ->
  linkSafe oldName = true ->
  startsWithText body ->
  startsWith (js "---") body = false ->
  (separator = false -> body <> [] -> isHubLinkLine (firstLine body) None s = false) ->
  exists w',
    onFileRename note settings w = Done tt w' /\
    (shouldSkipPath (file_path note) (pathSkipFromSettings s) = false ->
     onFileCreate note settings w = Done tt w') /\
    readFile (w_vault w') (file_path note) = Some after.
Proof.
  intros v oldName name after Hs Hlive Hflag Hsuffix Hlock Hmd Hparent Hroot Hskip Hhub
    Hnothub Hread Hsafe Hbody Hdash Hfirst.
  destruct (note_handlers_eval w settings s note _ Hs Hlive Hflag Hsuffix Hlock Hmd Hread)
    as [Hrename Hcreate].
  eexists. split; [exact Hrename|]. split; [exact Hcreate|].
  rewrite (readFile_rewriteFile true _ note _ w Hread). f_equal.
  assert (isHubNoteIn v s note = false) as Hnote.
  { unfold isHubNoteIn. rewrite Hparent, Hroot. now apply eqs_neq. }
  fold v. unfold oldName.
  rewrite (upsertedText_block v s s0 note oldFolderName numbered separator body
             Hnote Hsafe Hbody Hdash Hfirst).
  unfold correctHubLinkIn. rewrite Hparent, Hroot, Hskip, Hhub. reflexivity.
Qed.

(** The note moved from Y to Z: the link to the hub of Y becomes the
    link to the hub of Z. *)
Lemma arriving_note_witness :
  exists w',
    onFileRename Scenarios.movedNote 0 Scenarios.movedWorld = Done tt w' /\
    readFile (w_vault w') (js "Z/a.md")
    = Some (js "[[Z_]]" ++ LF ++ LF ++ js "---" ++ LF ++ LF ++ js "hello").
Proof.
  destruct (arriving_note_gets_link_of_its_folder
              Scenarios.movedWorld 0 Scenarios.liveSettings Scenarios.liveSettings
              Scenarios.movedNote Scenarios.dirZ (Scenarios.noteIn Scenarios.dirZ "Z_")
              (js "Y") None true (js "hello")
              eq_refl eq_refl eq_refl eq_refl eq_refl eq_refl eq_refl eq_refl eq_refl
              eq_refl)
    as (w' & Hrun & _ & Hread); try reflexivity; try discriminate.
  exists w'. split; [exact Hrun|exact Hread].
Defined.

(** A note that arrives at the vault root loses its link block.  With
    live sync on, no suffix change pending and no lock on the note, for
    a markdown note whose parent is the root: when the note reads a
    link block (of any folder, written under any of the hide, blink and
    separator settings) and a body, the rename handler returns and the
    note reads the body. *)
Theorem note_at_root_loses_link_block w settings s s0 note root
    oldFolderName numbered separator body :
  let v := w_vault w in
  let oldName := hubNameFor oldFolderName (hubSuffix s) numbered in
  nth_error (w_heap w) settings = Some s ->
  realTimeUpdating s = true ->
  autoCreateSuppressedUntilBuildRefresh s = false ->
  hubSuffix s = previousSuffixOf s ->
  w_locks w !! file_path note = None ->
  isMarkdown note = true ->
  file_parent note = Some root ->
  isRoot root = true ->
  readFile v (file_path note)
  = Some (newTopFor (Some (wikiLink oldName)) separator s0 ++ body) ->
  linkSafe oldName = true ->
  startsWithText body ->
  startsWith (js "---") body = false ->
  (separator = false -> body <> [] -> isHubLinkLine (firstLine body) None s = false) ->
  exists w',
    onFileRename note settings w = Done tt w' /\
    readFile (w_vault w') (file_path note) = Some body /\
    w_writes w' = w_writes w ++ [WModify (file_path note) body].
Proof.
  intros v oldName Hs Hlive Hflag Hsuffix Hlock Hmd Hparent Hroot Hread Hsafe Hbody Hdash
    Hfirst.
  destruct (note_handlers_eval w settings s note _ Hs Hlive Hflag Hsuffix Hlock Hmd Hread)
    as [Hrename _].
  assert (isHubNoteIn v s note = false) as Hnote
    by (unfold isHubNoteIn; now rewrite Hparent, Hroot).
  assert (upsertedText v s note (newTopFor (Some (wikiLink oldName)) separator s0 ++ body)
          = body) as Htext.
  { unfold oldName.
    rewrite (upsertedText_block v s s0 note oldFolderName numbered separator body
               Hnote Hsafe Hbody Hdash Hfirst).
    unfold correctHubLinkIn. rewrite Hparent, Hroot. reflexivity. }
  eexists. split; [exact Hrename|]. split.
  - rewrite (readFile_rewriteFile true _ note _ w Hread). now f_equal.
  - rewrite rewriteFile_writes by exact Hmd. f_equal.
    unfold rewriteLog, pathOf. cbn [flat_map fst snd]. rewrite Hmd. fold v. rewrite Htext.
    cbn [andb].
    assert (eqs body (newTopFor (Some (wikiLink oldName)) separator s0 ++ body) = false)
      as ->; [|reflexivity].
    apply eqs_neq. intros E. apply (f_equal (@length ascii)) in E.
    rewrite length_app in E. unfold newTopFor, wikiLink in E.
    rewrite !length_app in E. cbn [length js] in E.
    destruct (autoHideHubLinks s0); unfold hiddenSpan in E; rewrite ?length_app in E;
      cbn in E; lia.
Qed.

(** The note moved to the root from folder Z. *)
Lemma note_at_root_witness :
  exists w',
    onFileRename rootNote 0 rootNoteWorld = Done tt w' /\
    readFile (w_vault w') (js "a.md") = Some (js "hello").
Proof.
  destruct (note_at_root_loses_link_block
              rootNoteWorld 0 Scenarios.liveSettings Scenarios.liveSettings
              rootNote rootFolder (js "Z") None true (js "hello")
              eq_refl eq_refl eq_refl eq_refl eq_refl eq_refl eq_refl eq_refl)
    as (w' & Hrun & Hread & _); try reflexivity; try discriminate.
  exists w'. split; [exact Hrun|exact Hread].
Defined.
